(** * NAMASTE to ICD-11 mapping: keyword extraction, similarity and match aggregation

    A shallow embedding of [main.py] (the batch script) and [sample.py] (the
    FastAPI service) together with the parts of Python they run on:
    - [PyStr]: the [str] methods and the regular expression the programs use;
    - [PyFloat]: binary64 arithmetic, as specified by [SpecFloat];
    - [PyDict]: a [dict], with its insertion order;
    - [Difflib]: [difflib.SequenceMatcher], transcribed from CPython's [difflib.py];
    - [Net]: the two remote services, as an oracle, and the exception monad;
    - [Main] and [Sample]: the two programs;
    - [Scenario] and [Props]: the remote services of the examples and the
      predicates of the statements.
    The facts come after the definitions, module by module, then the claims
    C1 to C10, and at the end further properties of the two programs, X1
    onwards.

    Conventions.  A Python [str] is a [string] whose characters are the code
    points 0..255; [lower], [\w] and [\s] follow Python on that range.  Python
    integers are [Z], and a [float] is a binary64 number of [SpecFloat], so
    that scores are computed bit for bit.  Console output ([print]) is not
    modelled. *)

From Stdlib Require Import ZArith List String Ascii Bool Lia SpecFloat.
From Stdlib Require Import Permutation Sorted.
Import ListNotations.
Local Open Scope string_scope.
Local Open Scope list_scope.
Local Open Scope Z_scope.

(* ################################################################# *)
(** * Python strings *)

Module PyStr.

Definition ord (c : ascii) : Z := Z.of_N (N_of_ascii c).
Definition chr (n : Z) : ascii := ascii_of_N (Z.to_N n).

(** Code points with a lowercase mapping: A-Z, and U+00C0..U+00DE without the
    multiplication sign U+00D7. *)
Definition has_lower (c : ascii) : bool :=
  let n := ord c in
  ((65 <=? n) && (n <=? 90)) || ((192 <=? n) && (n <=? 222) && negb (n =? 215)).

Definition lower_char (c : ascii) : ascii :=
  if has_lower c then chr (ord c + 32) else c.

(** [s.lower()] *)
Fixpoint lower (s : string) : string :=
  match s with
  | EmptyString => EmptyString
  | String c r => String (lower_char c) (lower r)
  end.

(** [c.isspace()], which is also the class [\s] and what [split] and [strip]
    take for white space. *)
Definition isspace (c : ascii) : bool :=
  let n := ord c in
  ((9 <=? n) && (n <=? 13)) || ((28 <=? n) && (n <=? 32)) || (n =? 133) || (n =? 160).

(** [c.isalnum()] *)
Definition isalnum (c : ascii) : bool :=
  let n := ord c in
  ((48 <=? n) && (n <=? 57)) || ((65 <=? n) && (n <=? 90)) || ((97 <=? n) && (n <=? 122))
  || (n =? 170) || (n =? 178) || (n =? 179) || (n =? 181) || (n =? 185) || (n =? 186)
  || ((188 <=? n) && (n <=? 190))
  || ((192 <=? n) && (n <=? 255) && negb (n =? 215) && negb (n =? 247)).

(** The class [\w] of a [str] pattern. *)
Definition isword (c : ascii) : bool := isalnum c || (ord c =? 95).

(** [re.sub(r'[^\w\s]', ' ', s)] *)
Fixpoint sub_nonword_nonspace (s : string) : string :=
  match s with
  | EmptyString => EmptyString
  | String c r =>
      String (if isword c || isspace c then c else " "%char) (sub_nonword_nonspace r)
  end.

Definition nonempty (s : string) : bool :=
  match s with EmptyString => false | String _ _ => true end.

(** [split_go s] is the word [s] starts with (empty when [s] starts with white
    space) and the words after it. *)
Fixpoint split_go (s : string) : string * list string :=
  match s with
  | EmptyString => (EmptyString, [])
  | String c r =>
      let '(w, ws) := split_go r in
      if isspace c then (EmptyString, if nonempty w then w :: ws else ws)
      else (String c w, ws)
  end.

(** [s.split()] *)
Definition split (s : string) : list string :=
  let '(w, ws) := split_go s in if nonempty w then w :: ws else ws.

Fixpoint lstrip (s : string) : string :=
  match s with
  | EmptyString => EmptyString
  | String c r => if isspace c then lstrip r else s
  end.

Fixpoint rstrip (s : string) : string :=
  match s with
  | EmptyString => EmptyString
  | String c r =>
      let r' := rstrip r in
      if isspace c && negb (nonempty r') then EmptyString else String c r'
  end.

(** [s.strip()] *)
Definition strip (s : string) : string := rstrip (lstrip s).

(** [sub in s] *)
Fixpoint contains (sub s : string) : bool :=
  String.prefix sub s
  || match s with
     | EmptyString => false
     | String _ r => contains sub r
     end.

(** [len(s)] *)
Definition len (s : string) : Z := Z.of_nat (String.length s).

(** [sys.maxsize], the greatest length that a string of CPython can have. *)
Definition maxsize : Z := 2 ^ 63 - 1.

(** [x in l] for a list or a set of strings *)
Definition mem (x : string) (l : list string) : bool := existsb (String.eqb x) l.

End PyStr.

(* ################################################################# *)
(** * Python floats *)

(** A [float] is an IEEE 754 binary64 number; the operations are the
    correctly rounded ones of [SpecFloat] at precision 53. *)
Module PyFloat.

Definition float := spec_float.
Definition prec : Z := 53.
Definition emax : Z := 1024.

(** [float(n)] for an integer [n], also the conversion [2.0 * n] and [x / n] apply. *)
Definition of_int (n : Z) : float := binary_normalize prec emax n 0 false.

Definition mul : float -> float -> float := SFmul prec emax.
Definition div : float -> float -> float := SFdiv prec emax.

(** [x > y] *)
Definition gt (x y : float) : bool := SFltb y x.

(** [max(x, y)]: the first argument unless the second is greater. *)
Definition max (x y : float) : float := if gt y x then y else x.

Definition f0_0 : float := S754_zero false.
Definition f1_0 : float := S754_finite false 4503599627370496 (-52).
Definition f2_0 : float := S754_finite false 4503599627370496 (-51).
(** The literals [0.8] and [0.9]: [0x1.999999999999ap-1] and [0x1.ccccccccccccdp-1]. *)
Definition f0_8 : float := S754_finite false 7205759403792794 (-53).
Definition f0_9 : float := S754_finite false 8106479329266893 (-53).

(** Rounding to the nearest integer, ties to even, of [n / d] for [d > 0]. *)
Definition div_half_even (n d : Z) : Z :=
  let q := n / d in
  let r := n mod d in
  match 2 * r ?= d with
  | Lt => q
  | Gt => q + 1
  | Eq => if Z.even q then q else q + 1
  end.

(** [round(x, 3)]: the decimal with three places nearest to the exact value
    of [x] (ties to even), then the float nearest to that decimal. *)
Definition round3 (x : float) : float :=
  match x with
  | S754_finite s m e =>
      let q := if 0 <=? e then 1000 * (Zpos m) * 2 ^ e
               else div_half_even (1000 * Zpos m) (2 ^ (- e)) in
      match q with
      | Zpos p => div (S754_finite s p 0) (S754_finite false 1000 0)
      | _ => S754_zero s
      end
  | _ => x
  end.

End PyFloat.

(* ################################################################# *)
(** * Python dictionaries *)

(** A [dict] keeps its keys in insertion order, and assigning to a key that
    is present keeps the key where it is. *)
Module PyDict.
Section Dict.
Context {K V : Type}.
Variable eqb : K -> K -> bool.

Definition dict := list (K * V).

(** [d.get(k)] *)
Fixpoint get (d : dict) (k : K) : option V :=
  match d with
  | [] => None
  | (k', v) :: r => if eqb k k' then Some v else get r k
  end.

(** [d.get(k, default)] *)
Definition get_default (d : dict) (k : K) (default : V) : V :=
  match get d k with Some v => v | None => default end.

(** [k in d] *)
Definition has (d : dict) (k : K) : bool :=
  match get d k with Some _ => true | None => false end.

(** [d[k] = v] *)
Fixpoint set (d : dict) (k : K) (v : V) : dict :=
  match d with
  | [] => [(k, v)]
  | (k', v') :: r => if eqb k k' then (k', v) :: r else (k', v') :: set r k v
  end.

(** [del d[k]] *)
Fixpoint del (d : dict) (k : K) : dict :=
  match d with
  | [] => []
  | (k', v') :: r => if eqb k k' then r else (k', v') :: del r k
  end.

Definition keys (d : dict) : list K := map fst d.
End Dict.
Arguments dict : clear implicits.
End PyDict.

(* ################################################################# *)
(** * difflib.SequenceMatcher *)

(** [SequenceMatcher(None, a, b)] over sequences of characters: no junk
    predicate, and [autojunk] left at its default [True]. *)
Module Difflib.

(** The named tuple [Match(a, b, size)]. *)
Definition Match : Type := Z * Z * Z.

Record SequenceMatcher := {
  a : list ascii;
  b : list ascii;
  b2j : PyDict.dict ascii (list Z);
  bjunk : list ascii;
  bpopular : list ascii
}.

Definition len {A : Type} (l : list A) : Z := Z.of_nat (List.length l).

(** [s[i]] for an index inside the sequence. *)
Definition getitem (s : list ascii) (i : Z) : option ascii :=
  if i <? 0 then None else nth_error s (Z.to_nat i).

(** [x == y] on two elements that were read. *)
Definition elt_eqb (x y : option ascii) : bool :=
  match x, y with
  | Some c, Some d => Ascii.eqb c d
  | _, _ => false
  end.

(** [range(lo, hi)] *)
Definition range (lo hi : Z) : list Z :=
  map (fun k => lo + Z.of_nat k) (seq 0 (Z.to_nat (hi - lo))).

(** [enumerate(s)], counting from [i]. *)
Fixpoint enumerate {A : Type} (i : Z) (s : list A) : list (Z * A) :=
  match s with
  | [] => []
  | x :: r => (i, x) :: enumerate (i + 1) r
  end.

(** The body of the first loop of [__chain_b]:
    [indices = b2j.setdefault(elt, []); indices.append(i)]. *)
Definition index_step (b2j : PyDict.dict ascii (list Z)) (item : Z * ascii)
    : PyDict.dict ascii (list Z) :=
  let '(i, elt) := item in
  PyDict.set Ascii.eqb b2j elt (PyDict.get_default Ascii.eqb b2j elt [] ++ [i]).

(** The first loop of [__chain_b]. *)
Definition index_elements (s : list ascii) : PyDict.dict ascii (list Z) :=
  fold_left index_step (enumerate 0 s) [].

(** [__chain_b]: the index of [b], its junk (none without [isjunk]) and its
    popular elements, which leave the index. *)
Definition chain_b (s : list ascii) : PyDict.dict ascii (list Z) * list ascii * list ascii :=
  let b2j := index_elements s in
  let junk : list ascii := [] in
  let n := len s in
  if 200 <=? n then
    let ntest := n / 100 + 1 in
    let popular :=
      map fst (filter (fun '(elt, idxs) => len idxs >? ntest) b2j) in
    (fold_left (PyDict.del Ascii.eqb) popular b2j, junk, popular)
  else (b2j, junk, []).

(** [SequenceMatcher(None, a, b)] *)
Definition new (sa sb : list ascii) : SequenceMatcher :=
  let '(idx, junk, popular) := chain_b sb in
  {| a := sa; b := sb; b2j := idx; bjunk := junk; bpopular := popular |}.

Definition isbjunk (sm : SequenceMatcher) (x : option ascii) : bool :=
  match x with
  | Some c => existsb (Ascii.eqb c) (bjunk sm)
  | None => false
  end.

Section FindLongestMatch.
Variable sm : SequenceMatcher.
Variables alo ahi blo bhi : Z.

(** The loop [for j in b2j.get(a[i], nothing)] of row [i], with its
    [continue] and [break]; [best] is [(besti, bestj, bestsize)]. *)
Fixpoint scan_row (i : Z) (j2len : PyDict.dict Z Z) (js : list Z)
    (newj2len : PyDict.dict Z Z) (best : Match) : PyDict.dict Z Z * Match :=
  match js with
  | [] => (newj2len, best)
  | j :: js' =>
      if j <? blo then scan_row i j2len js' newj2len best
      else if j >=? bhi then (newj2len, best)
      else
        let k := PyDict.get_default Z.eqb j2len (j - 1) 0 + 1 in
        let newj2len := PyDict.set Z.eqb newj2len j k in
        let '(besti, bestj, bestsize) := best in
        scan_row i j2len js' newj2len
          (if k >? bestsize then (i - k + 1, j - k + 1, k) else best)
  end.

(** The body of the loop [for i in range(alo, ahi)], on the variables
    [j2len] and [best]. *)
Definition scan_step (vars : PyDict.dict Z Z * Match) (i : Z) : PyDict.dict Z Z * Match :=
  let '(j2len, best) := vars in
  let js :=
    match getitem (a sm) i with
    | Some x => PyDict.get_default Ascii.eqb (b2j sm) x []
    | None => []
    end in
  scan_row i j2len js [] best.

(** The loop [for i in range(alo, ahi)]. *)
Definition scan_rows (rows : list Z) : PyDict.dict Z Z * Match :=
  fold_left scan_step rows ([], (alo, blo, 0)).

(** The two pairs of [while] loops that extend the best block to the left
    and to the right: first over elements that are not junk ([junk] is
    [false]), then over junk.  A loop that moves left runs at most
    [besti - alo] times and one that moves right at most
    [ahi - (besti + bestsize)] times, which is what [n] counts. *)
Fixpoint extend_left (junk : bool) (n : nat) (best : Match) : Match :=
  match n with
  | O => best
  | S n' =>
      let '(besti, bestj, bestsize) := best in
      if (besti >? alo) && (bestj >? blo)
         && Bool.eqb (isbjunk sm (getitem (b sm) (bestj - 1))) junk
         && elt_eqb (getitem (a sm) (besti - 1)) (getitem (b sm) (bestj - 1))
      then extend_left junk n' (besti - 1, bestj - 1, bestsize + 1)
      else best
  end.

Fixpoint extend_right (junk : bool) (n : nat) (best : Match) : Match :=
  match n with
  | O => best
  | S n' =>
      let '(besti, bestj, bestsize) := best in
      if (besti + bestsize <? ahi) && (bestj + bestsize <? bhi)
         && Bool.eqb (isbjunk sm (getitem (b sm) (bestj + bestsize))) junk
         && elt_eqb (getitem (a sm) (besti + bestsize)) (getitem (b sm) (bestj + bestsize))
      then extend_right junk n' (besti, bestj, bestsize + 1)
      else best
  end.

Definition left_room (best : Match) : nat :=
  let '(besti, _, _) := best in Z.to_nat (besti - alo).

Definition right_room (best : Match) : nat :=
  let '(besti, _, bestsize) := best in Z.to_nat (ahi - (besti + bestsize)).

(** [find_longest_match(alo, ahi, blo, bhi)] *)
Definition find_longest_match : Match :=
  let best := snd (scan_rows (range alo ahi)) in
  let best := extend_left false (left_room best) best in
  let best := extend_right false (right_room best) best in
  let best := extend_left true (left_room best) best in
  let best := extend_right true (right_room best) best in
  best.

End FindLongestMatch.

(** The [while queue] loop of [get_matching_blocks].  The list [queue] has
    the end of the Python list first, so that [queue.pop()] takes its head
    and [queue.append] conses; [blocks] has the block appended last first.
    [None] when [fuel] iterations were not enough. *)
Fixpoint matching_loop (sm : SequenceMatcher) (fuel : nat)
    (queue : list (Z * Z * Z * Z)) (blocks : list Match) : option (list Match) :=
  match queue with
  | [] => Some blocks
  | (alo, ahi, blo, bhi) :: queue =>
      match fuel with
      | O => None
      | S fuel =>
          let '(i, j, k) := find_longest_match sm alo ahi blo bhi in
          if k =? 0 then matching_loop sm fuel queue blocks
          else
            let queue := if (alo <? i) && (blo <? j) then (alo, i, blo, j) :: queue else queue in
            let queue :=
              if (i + k <? ahi) && (j + k <? bhi) then (i + k, ahi, j + k, bhi) :: queue
              else queue in
            matching_loop sm fuel queue ((i, j, k) :: blocks)
      end
  end.

(** Tuples compare lexicographically. *)
Definition match_ltb (x y : Match) : bool :=
  let '(i1, j1, k1) := x in
  let '(i2, j2, k2) := y in
  (i1 <? i2) || ((i1 =? i2) && ((j1 <? j2) || ((j1 =? j2) && (k1 <? k2)))).

Fixpoint insert_sorted (x : Match) (l : list Match) : list Match :=
  match l with
  | [] => [x]
  | y :: r => if match_ltb x y then x :: l else y :: insert_sorted x r
  end.

(** [matching_blocks.sort()] *)
Definition sort (l : list Match) : list Match :=
  fold_left (fun acc x => insert_sorted x acc) l [].

(** The loop that collapses adjacent blocks, with what follows it. *)
Definition collapse (la lb : Z) (matching_blocks : list Match) : list Match :=
  let '(i1, j1, k1, non_adjacent) :=
    fold_left
      (fun '(i1, j1, k1, non_adjacent) '(i2, j2, k2) =>
         if (i1 + k1 =? i2) && (j1 + k1 =? j2) then (i1, j1, k1 + k2, non_adjacent)
         else (i2, j2, k2,
               if k1 =? 0 then non_adjacent else non_adjacent ++ [(i1, j1, k1)]))
      matching_blocks (0, 0, 0, []) in
  let non_adjacent := if k1 =? 0 then non_adjacent else non_adjacent ++ [(i1, j1, k1)] in
  non_adjacent ++ [(la, lb, 0)].

(** Iterations that always suffice for [matching_loop], see
    [matching_loop_terminates]. *)
Definition enough_fuel (sm : SequenceMatcher) : nat := S (2 * List.length (a sm)).

(** [get_matching_blocks()] *)
Definition get_matching_blocks (sm : SequenceMatcher) : list Match :=
  let la := len (a sm) in
  let lb := len (b sm) in
  let matching_blocks :=
    match matching_loop sm (enough_fuel sm) [(0, la, 0, lb)] [] with
    | Some blocks => rev blocks
    | None => []
    end in
  collapse la lb (sort matching_blocks).

(** [_calculate_ratio(matches, length)] *)
Definition calculate_ratio (matches length : Z) : PyFloat.float :=
  if length =? 0 then PyFloat.f1_0
  else PyFloat.div (PyFloat.mul PyFloat.f2_0 (PyFloat.of_int matches)) (PyFloat.of_int length).

(** [sum(triple[-1] for triple in blocks)] *)
Definition sum_sizes (blocks : list Match) : Z :=
  fold_left (fun acc '(_, _, k) => acc + k) blocks 0.

(** [ratio()] *)
Definition ratio (sm : SequenceMatcher) : PyFloat.float :=
  let matches := sum_sizes (get_matching_blocks sm) in
  calculate_ratio matches (len (a sm) + len (b sm)).

End Difflib.

(* ################################################################# *)
(** * The remote services and the effects of the programs *)

Module Net.

(** An entry of [destinationEntities]: a JSON object, of which the programs
    read the keys [title] and [theCode], either of which may be absent. *)
Record Entity := { title : option string; theCode : option string }.

(** [c.get(key, "")] *)
Definition get_or_empty (field : option string) : string :=
  match field with Some s => s | None => "" end.

Inductive request :=
  | TokenRequest
  | SearchRequest (token q : string).

(** What a call comes to: a value, or an exception with its message. *)
Inductive result (A : Type) :=
  | Ok (x : A)
  | Raise (msg : string).
Arguments Ok {A} x.
Arguments Raise {A} msg.

(** The token endpoint and the search endpoint.  Each answers a request
    given the requests the process made before it (first request first), so
    that nothing is assumed of the services: not that they answer the same
    query twice alike, not that their codes are distinct.  [Ok] carries the
    [access_token], respectively the [destinationEntities], of a response whose
    status is a success; [Raise] is what [raise_for_status] raises otherwise. *)
Record Remote := {
  token_endpoint : list request -> result string;
  search_endpoint : list request -> string -> string -> result (list Entity)
}.

(** The state of the process: the requests it has made and the global
    [_token_cache] of [sample.py]. *)
Record State := { requests : list request; token_cache : option string }.

Definition M (A : Type) : Type := State -> result A * State.

Definition ret {A : Type} (x : A) : M A := fun st => (Ok x, st).

Definition bind {A B : Type} (c : M A) (k : A -> M B) : M B :=
  fun st =>
    match c st with
    | (Ok x, st') => k x st'
    | (Raise msg, st') => (Raise msg, st')
    end.

Notation "x <- c ;; k" := (bind c (fun x => k))
  (at level 61, c at next level, right associativity).

(** [for x in l: acc = body(acc, x)] *)
Fixpoint for_each {A B : Type} (l : list A) (acc : B) (body : B -> A -> M B) : M B :=
  match l with
  | [] => ret acc
  | x :: r => acc' <- body acc x ;; for_each r acc' body
  end.

(** [requests.post(TOKEN_URL, data=data)], [raise_for_status()] and
    [r.json()["access_token"]]. *)
Definition post_token (remote : Remote) : M string :=
  fun st =>
    (token_endpoint remote (requests st),
     {| requests := requests st ++ [TokenRequest]; token_cache := token_cache st |}).

(** [search_icd(term, token)], the same function in both programs. *)
Definition search_icd (remote : Remote) (term token : string) : M (list Entity) :=
  fun st =>
    (search_endpoint remote (requests st) token term,
     {| requests := requests st ++ [SearchRequest token term];
        token_cache := token_cache st |}).

Definition get_cache : M (option string) := fun st => (Ok (token_cache st), st).

Definition set_cache (t : string) : M unit :=
  fun st => (Ok tt, {| requests := requests st; token_cache := Some t |}).

(** The search queries among the requests, in the order they were made. *)
Fixpoint queries (l : list request) : list string :=
  match l with
  | [] => []
  | TokenRequest :: r => queries r
  | SearchRequest _ q :: r => q :: queries r
  end.

End Net.

(* ################################################################# *)
(** * main.py *)

Module Main.
Import Net.

Definition stop_words : list string :=
  ["is"; "are"; "the"; "and"; "or"; "of"; "in"; "to"; "by"; "at"; "such"; "as";
   "this"; "may"; "be"; "it"; "with"; "a"; "an"; "various"; "parts"; "body";
   "functions"; "consequent"; "explained"; "marked"; "increase"].

Definition medical_terms : list string :=
  ["roughness"; "hoarseness"; "voice"; "emaciation"; "blackish"; "discoloration";
   "twitching"; "warmth"; "insomnia"; "strength"; "stools"; "physiological";
   "pathological"].

(** The list [medical_keywords] of [extract_keywords]. *)
Definition medical_keywords (definition : string) : list string :=
  let clean_def := PyStr.sub_nonword_nonspace (PyStr.lower definition) in
  let words := PyStr.split clean_def in
  let keywords :=
    filter (fun word => (PyStr.len word >? 3) && negb (PyStr.mem word stop_words)) words in
  filter (fun word => existsb (fun term => PyStr.contains term word) medical_terms) keywords.

(** The list [compound_terms] of [extract_keywords]. *)
Definition compound_terms (definition : string) : list string :=
  let low := PyStr.lower definition in
  (if PyStr.contains "hoarseness" low && PyStr.contains "voice" low
   then ["hoarse voice"] else [])
  ++ (if PyStr.contains "hard" low && PyStr.contains "stools" low
      then ["hard stools"] else [])
  ++ (if PyStr.contains "physical" low && PyStr.contains "strength" low
      then ["weakness"] else [])
  ++ (if PyStr.contains "blackish" low && PyStr.contains "discoloration" low
      then ["skin discoloration"] else []).

Definition extract_keywords (definition : string) : list string :=
  let all_keywords := medical_keywords definition ++ compound_terms definition in
  firstn 8 all_keywords.

Definition similarity (a b : string) : PyFloat.float :=
  Difflib.ratio
    (Difflib.new (list_ascii_of_string (PyStr.lower a)) (list_ascii_of_string (PyStr.lower b))).

Definition get_token (remote : Remote) : M string := post_token remote.

(** A value of [all_candidates]: [(title, score, source)]. *)
Definition Candidate : Type := string * PyFloat.float * string.

(** The variables [all_candidates], [best_overall_match] (a triple
    [(code, title, source)]) and [best_overall_score]. *)
Record Locals := {
  all_candidates : PyDict.dict string Candidate;
  best_overall_match : option (string * string * string);
  best_overall_score : PyFloat.float
}.

(** The test [if score > best_overall_score] and its two assignments. *)
Definition update_best (code title source : string) (score : PyFloat.float)
    (all : PyDict.dict string Candidate) (vars : Locals) : Locals :=
  if PyFloat.gt score (best_overall_score vars)
  then {| all_candidates := all;
          best_overall_match := Some (code, title, source);
          best_overall_score := score |}
  else {| all_candidates := all;
          best_overall_match := best_overall_match vars;
          best_overall_score := best_overall_score vars |}.

(** [code not in all_candidates or score > all_candidates[code][1]] *)
Definition improves (all : PyDict.dict string Candidate) (code : string)
    (score : PyFloat.float) : bool :=
  match PyDict.get String.eqb all code with
  | None => true
  | Some (_, old, _) => PyFloat.gt score old
  end.

(** The body of the loop over the candidates of the term query. *)
Definition term_candidate (nam_term : string) (vars : Locals) (c : Entity) : Locals :=
  let title := get_or_empty (title c) in
  let code := get_or_empty (theCode c) in
  let score := similarity nam_term title in
  let all := PyDict.set String.eqb (all_candidates vars) code (title, score, "NAMASTE_term") in
  update_best code title "NAMASTE_term" score all vars.

(** The body of the loop over the candidates of a keyword query. *)
Definition keyword_candidate (nam_term keyword : string) (vars : Locals) (c : Entity)
    : Locals :=
  let title := get_or_empty (title c) in
  let code := get_or_empty (theCode c) in
  let score_vs_term := similarity nam_term title in
  let score_vs_keyword := similarity keyword title in
  let score := PyFloat.max score_vs_term (PyFloat.mul score_vs_keyword PyFloat.f0_8) in
  let source := ("keyword: " ++ keyword)%string in
  let all :=
    if improves (all_candidates vars) code score
    then PyDict.set String.eqb (all_candidates vars) code (title, score, source)
    else all_candidates vars in
  update_best code title source score all vars.

(** The body of the loop over the candidates of a symptom-phrase query. *)
Definition symptom_candidate (phrase : string) (vars : Locals) (c : Entity) : Locals :=
  let title := get_or_empty (title c) in
  let code := get_or_empty (theCode c) in
  let score := PyFloat.mul (similarity phrase title) PyFloat.f0_9 in
  let source := ("symptom: " ++ phrase)%string in
  let all :=
    if improves (all_candidates vars) code score
    then PyDict.set String.eqb (all_candidates vars) code (title, score, source)
    else all_candidates vars in
  update_best code title source score all vars.

Definition symptom_phrases : list string :=
  ["voice hoarseness"; "muscle twitching"; "sleep disorders"; "constipation";
   "skin discoloration"; "muscle weakness"].

(** The dictionary [result], which is the row written to the CSV file. *)
Record Row := {
  NAMASTE_CODE : string;
  NAMASTE_TERM : string;
  ICD11_CODE : option string;
  ICD11_TERM : option string;
  SIMILARITY : PyFloat.float;
  MATCH_SOURCE : option string
}.

Definition make_row (nam_code nam_term : string) (vars : Locals) : Row :=
  {| NAMASTE_CODE := nam_code;
     NAMASTE_TERM := nam_term;
     ICD11_CODE := option_map (fun '(code, _, _) => code) (best_overall_match vars);
     ICD11_TERM := option_map (fun '(_, title, _) => title) (best_overall_match vars);
     SIMILARITY := PyFloat.round3 (best_overall_score vars);
     MATCH_SOURCE := option_map (fun '(_, _, source) => source) (best_overall_match vars) |}.

(** The three query phases of [build_mapping_specific], as a function of its
    constants [nam_term] and [nam_def]. *)
Definition run_queries (nam_term nam_def : string) (remote : Remote) (token : string)
    : M Locals :=
  let vars :=
    {| all_candidates := []; best_overall_match := None;
       best_overall_score := PyFloat.f0_0 |} in
  candidates <- search_icd remote nam_term token ;;
  let vars :=
    match candidates with
    | [] => vars
    | _ => fold_left (term_candidate nam_term) candidates vars
    end in
  vars <- (if PyStr.nonempty (PyStr.strip nam_def) then
             let keywords := extract_keywords nam_def in
             for_each keywords vars
               (fun vars keyword =>
                  candidates <- search_icd remote keyword token ;;
                  ret (fold_left (keyword_candidate nam_term keyword) candidates vars))
           else ret vars) ;;
  for_each symptom_phrases vars
    (fun vars phrase =>
       candidates <- search_icd remote phrase token ;;
       ret (fold_left (symptom_candidate phrase) candidates vars)).

(** The body of [build_mapping_specific], as a function of its three
    constants; it yields the row it saves and the final [all_candidates]. *)
Definition build_mapping (nam_code nam_term nam_def : string) (remote : Remote)
    : M (Row * PyDict.dict string Candidate) :=
  token <- get_token remote ;;
  vars <- run_queries nam_term nam_def remote token ;;
  ret (make_row nam_code nam_term vars, all_candidates vars).

Definition nam_code : string := "SR12 (AAA-2)".
Definition nam_term : string := "vAtavRuddhiH".
Definition nam_def : string :=
  "It is characterized by roughness or hoarseness of voice, emaciation, blackish discoloration of body, twitching in various parts of body, desire for warmth, insomnia, reduced physical strength, hard stools. This may be explained by marked increase of vatadosha functions and consequent physiological and pathological ramifications.".

Definition build_mapping_specific (remote : Remote)
    : M (Row * PyDict.dict string Candidate) :=
  build_mapping nam_code nam_term nam_def remote.

End Main.

(* ################################################################# *)
(** * sample.py *)

Module Sample.
Import Net.

(** The request model [SearchRequest]. *)
Record SearchRequest := { query : string }.

Record ICDCandidate := {
  code : string;
  title : string;
  similarity_ : PyFloat.float;
  source : string
}.

Record ConceptMapResponse := {
  namaste_code : string;
  namaste_term : string;
  namaste_definition : string;
  extracted_keywords : list string;
  icd_candidates : list ICDCandidate;
  best_match : option ICDCandidate
}.

(** A value of [NAMASTE_DATA], with its keys ["code"], ["term"] and
    ["definition"]. *)
Record Entry := { entry_code : string; entry_term : string; entry_definition : string }.

(** The two entries.  The first definition has the letter a-macron (U+0101)
    twice, in "vata"; it lies outside the code points that [string] holds and
    stands here as the two bytes of its UTF-8 form, 196 and 129. *)
Definition vata : string :=
  String "v" (String (PyStr.chr 196) (String (PyStr.chr 129) "ta")).

Definition NAMASTE_DATA : PyDict.dict string Entry :=
  [("6",
    {| entry_code := "6";
       entry_term := "vAtasa~jcayaH";
       entry_definition :=
         ("It is characterized by impaired movements of " ++ vata
          ++ ", fullness of abdomen and aversion to factors causing of increase of "
          ++ vata
          ++ " such as cold. This may be explained by accumulation of vatadosha at the designated site to a moderate level resulting in accumulation.")%string |});
   ("SR12 (AAA-2)",
    {| entry_code := "SR12 (AAA-2)";
       entry_term := "vAtavRuddhiH";
       entry_definition :=
         "It is characterized by roughness or hoarseness of voice, emaciation, blackish discoloration of body, twitching in various parts of body, desire for warmth, insomnia, reduced physical strength, hard stools. This may be explained by marked increase of vatadosha functions and consequent physiological and pathological ramifications." |})].

(** [get_token()], with the global [_token_cache]; an empty string is as
    false as [None]. *)
Definition get_token (remote : Remote) : M string :=
  cache <- get_cache ;;
  let fetch := (t <- post_token remote ;; _ <- set_cache t ;; ret t) in
  match cache with
  | Some t => if PyStr.nonempty t then ret t else fetch
  | None => fetch
  end.

Definition stop_words : list string :=
  ["is"; "are"; "the"; "and"; "or"; "of"; "in"; "to"; "by"; "at"; "such"; "as";
   "this"; "may"; "be"; "it"; "with"; "a"; "an"; "various"; "parts"; "body";
   "functions"; "consequent"; "explained"; "marked"; "increase"].

Definition medical_terms : list string :=
  ["movement"; "abdomen"; "fullness"; "aversion"; "cold"; "impaired"; "accumulation";
   "roughness"; "hoarseness"; "voice"; "emaciation"; "blackish"; "discoloration";
   "twitching"; "warmth"; "insomnia"; "strength"; "stools"].

(** The list [medical_keywords] of [extract_keywords]. *)
Definition medical_keywords (definition : string) : list string :=
  let clean_def := PyStr.sub_nonword_nonspace (PyStr.lower definition) in
  let words := PyStr.split clean_def in
  let keywords :=
    filter (fun word => (PyStr.len word >? 3) && negb (PyStr.mem word stop_words)) words in
  filter (fun word => existsb (fun term => PyStr.contains term word) medical_terms) keywords.

(** The list [compound_terms] of [extract_keywords]. *)
Definition compound_terms (definition : string) : list string :=
  let low := PyStr.lower definition in
  (if PyStr.contains "hoarseness" low && PyStr.contains "voice" low
   then ["hoarse voice"] else [])
  ++ (if PyStr.contains "hard" low && PyStr.contains "stools" low
      then ["hard stools"] else [])
  ++ (if PyStr.contains "physical" low && PyStr.contains "strength" low
      then ["weakness"] else []).

Definition extract_keywords (definition : string) : list string :=
  let all_keywords := medical_keywords definition ++ compound_terms definition in
  firstn 8 all_keywords.

Definition similarity (a b : string) : PyFloat.float :=
  Difflib.ratio
    (Difflib.new (list_ascii_of_string (PyStr.lower a)) (list_ascii_of_string (PyStr.lower b))).

(** A value of [all_candidates]: [(title, score, source)]. *)
Definition Candidate : Type := string * PyFloat.float * string.

(** The body of the loop over the candidates of the term query. *)
Definition term_candidate (term : string) (all_candidates : PyDict.dict string Candidate)
    (c : Entity) : PyDict.dict string Candidate :=
  let title := get_or_empty (Net.title c) in
  let code := get_or_empty (theCode c) in
  if PyStr.nonempty title && PyStr.nonempty code then
    let score := similarity term title in
    PyDict.set String.eqb all_candidates code (title, score, "NAMASTE_term")
  else all_candidates.

(** The body of the loop over the candidates of a keyword query. *)
Definition keyword_candidate (term keyword : string)
    (all_candidates : PyDict.dict string Candidate) (c : Entity)
    : PyDict.dict string Candidate :=
  let title := get_or_empty (Net.title c) in
  let code := get_or_empty (theCode c) in
  if PyStr.nonempty title && PyStr.nonempty code then
    let score_vs_term := similarity term title in
    let score_vs_keyword := similarity keyword title in
    let score := PyFloat.max score_vs_term (PyFloat.mul score_vs_keyword PyFloat.f0_8) in
    match PyDict.get String.eqb all_candidates code with
    | Some (_, old, _) =>
        if PyFloat.gt score old
        then PyDict.set String.eqb all_candidates code
               (title, score, ("keyword: " ++ keyword)%string)
        else all_candidates
    | None =>
        PyDict.set String.eqb all_candidates code
          (title, score, ("keyword: " ++ keyword)%string)
    end
  else all_candidates.

(** The variables [icd_candidates], [best_match] and [best_score] of the
    loop that converts the table to the response format. *)
Definition Converted : Type := list ICDCandidate * option ICDCandidate * PyFloat.float.

(** The body of that loop. *)
Definition convert_item (vars : Converted) (item : string * Candidate) : Converted :=
  let '(icd_candidates, best_match, best_score) := vars in
  let '(code, (title, score, source)) := item in
  let candidate :=
    {| code := code; title := title; similarity_ := PyFloat.round3 score;
       source := source |} in
  let icd_candidates := icd_candidates ++ [candidate] in
  if PyFloat.gt score best_score then (icd_candidates, Some candidate, score)
  else (icd_candidates, best_match, best_score).

Fixpoint insert_desc (x : ICDCandidate) (l : list ICDCandidate) : list ICDCandidate :=
  match l with
  | [] => [x]
  | y :: r =>
      if PyFloat.gt (similarity_ x) (similarity_ y) then x :: l else y :: insert_desc x r
  end.

(** [icd_candidates.sort(key=lambda x: x.similarity, reverse=True)]; the
    sort is stable. *)
Definition sort_by_similarity (l : list ICDCandidate) : list ICDCandidate :=
  fold_left (fun acc x => insert_desc x acc) l [].

(** The queries of the [try] statement: the table [all_candidates] they build. *)
Definition run_queries (remote : Remote) (term : string) (keywords : list string)
    (token : string) : M (PyDict.dict string Candidate) :=
  let all_candidates : PyDict.dict string Candidate := [] in
  candidates <- search_icd remote term token ;;
  let all_candidates := fold_left (term_candidate term) candidates all_candidates in
  for_each keywords all_candidates
    (fun all_candidates keyword =>
       candidates <- search_icd remote keyword token ;;
       ret (fold_left (keyword_candidate term keyword) candidates all_candidates)).

(** The response built from the table. *)
Definition respond (namaste_entry : Entry) (keywords : list string)
    (all_candidates : PyDict.dict string Candidate) : ConceptMapResponse :=
  let '(icd_candidates, best_match, best_score) :=
    fold_left convert_item all_candidates ([], None, PyFloat.f0_0) in
  {| namaste_code := entry_code namaste_entry;
     namaste_term := entry_term namaste_entry;
     namaste_definition := entry_definition namaste_entry;
     extracted_keywords := keywords;
     icd_candidates := sort_by_similarity icd_candidates;
     best_match := best_match |}.

(** The body of the [try] statement of [search_namaste_mapping]. *)
Definition try_body (remote : Remote) (namaste_entry : Entry) : M ConceptMapResponse :=
  token <- get_token remote ;;
  let keywords := extract_keywords (entry_definition namaste_entry) in
  all_candidates <- run_queries remote (entry_term namaste_entry) keywords token ;;
  ret (respond namaste_entry keywords all_candidates).

(** The test of the loop that looks for the entry. *)
Definition entry_matches (query : string) (item : string * Entry) : bool :=
  let '(code, entry) := item in
  PyStr.contains (PyStr.lower query) (PyStr.lower code)
  || PyStr.contains (PyStr.lower query) (PyStr.lower (entry_term entry))
  || String.eqb query code.

(** The loop [for code, entry in NAMASTE_DATA.items()] with its [break]. *)
Definition find_entry (query : string) : option Entry :=
  option_map snd (find (entry_matches query) NAMASTE_DATA).

(** [repr] of a string that has no quote, backslash or control character, as
    the keys of [NAMASTE_DATA] are, and [str] of a list of such strings. *)
Definition repr_str (s : string) : string := ("'" ++ s ++ "'")%string.

Definition str_list (l : list string) : string :=
  ("[" ++ String.concat ", " (map repr_str l) ++ "]")%string.

(** What the endpoint answers: the response model, or an [HTTPException]. *)
Inductive Response :=
  | Return (body : ConceptMapResponse)
  | HTTPException (status_code : Z) (detail : string).

(** [POST /search] *)
Definition search_namaste_mapping (remote : Remote) (request : SearchRequest)
    : State -> Response * State :=
  fun st =>
    let query := PyStr.strip (query request) in
    match find_entry query with
    | None =>
        (HTTPException 404
           ("NAMASTE entry not found for query: '" ++ query ++ "'. Available entries: "
            ++ str_list (PyDict.keys NAMASTE_DATA))%string,
         st)
    | Some namaste_entry =>
        match try_body remote namaste_entry st with
        | (Ok response, st') => (Return response, st')
        | (Raise msg, st') =>
            (HTTPException 500 ("Error processing request: " ++ msg)%string, st')
        end
    end.

End Sample.


(* ################################################################# *)
(** * Remote services used as examples *)

Module Scenario.
Import Net.

Definition entity (t c : string) : Entity := {| title := Some t; theCode := Some c |}.

(** A process that has made no request yet. *)
Definition fresh : State := {| requests := []; token_cache := None |}.

(** Every search finds nothing. *)
Definition silent : Remote :=
  {| token_endpoint := fun _ => Ok "token";
     search_endpoint := fun _ _ _ => Ok [] |}.

(** The query for the term finds two entities that carry one code, the
    better match first; the other queries find nothing. *)
Definition twice : Remote :=
  {| token_endpoint := fun _ => Ok "token";
     search_endpoint := fun _ _ q =>
       Ok (if String.eqb q "vAtavRuddhiH"
           then [entity "Vata disorder" "SK00"; entity "Pitta disorder" "SK00"]
           else []) |}.

(** The query for the term finds one entity, whose title has no character of
    the term; the other queries find nothing. *)
Definition unrelated : Remote :=
  {| token_endpoint := fun _ => Ok "token";
     search_endpoint := fun _ _ q =>
       Ok (if String.eqb q "vAtavRuddhiH" then [entity "Bone" "SK01"] else []) |}.

(** The token endpoint refuses the credentials. *)
Definition denied : Remote :=
  {| token_endpoint := fun _ => Raise "401 Client Error";
     search_endpoint := fun _ _ _ => Ok [] |}.

(** The third search of the process fails; the others find nothing. *)
Definition flaky : Remote :=
  {| token_endpoint := fun _ => Ok "token";
     search_endpoint := fun h _ _ =>
       if Nat.eqb (List.length (queries h)) 2 then Raise "503 Server Error" else Ok [] |}.

(** A process whose cache holds a token. *)
Definition warm : State := {| requests := []; token_cache := Some "cached" |}.

(** The two values of [NAMASTE_DATA]. *)
Definition first_entry : Sample.Entry :=
  snd (nth 0 Sample.NAMASTE_DATA
         ("", {| Sample.entry_code := ""; Sample.entry_term := "";
                 Sample.entry_definition := "" |})).

Definition second_entry : Sample.Entry :=
  snd (nth 1 Sample.NAMASTE_DATA
         ("", {| Sample.entry_code := ""; Sample.entry_term := "";
                 Sample.entry_definition := "" |})).

(** The query for the term finds one entity, which has a code and no title;
    the other queries find nothing. *)
Definition untitled : Remote :=
  {| token_endpoint := fun _ => Ok "token";
     search_endpoint := fun _ _ q =>
       Ok (if String.eqb q "vAtavRuddhiH"
           then [{| title := None; theCode := Some "SK02" |}] else []) |}.

(** The query for the term finds two entities with two codes; the other
    queries find nothing. *)
Definition found : Remote :=
  {| token_endpoint := fun _ => Ok "token";
     search_endpoint := fun _ _ q =>
       Ok (if String.eqb q "vAtavRuddhiH"
           then [Scenario.entity "Vata disorder" "SK00";
                 Scenario.entity "Pitta disorder" "SK01"]
           else []) |}.

End Scenario.

(* ################################################################# *)
(** * Predicates of the statements *)

Module Props.

(** The indices at which [x] occurs in [s], counted from [i], in increasing order. *)
Fixpoint positions (x : ascii) (s : list ascii) (i : Z) : list Z :=
  match s with
  | [] => []
  | y :: r => if Ascii.eqb x y then i :: positions x r (i + 1) else positions x r (i + 1)
  end.

(** The number of elements just before index [m] of [s] that are in a row and
    all in the index [b2j] of the matcher (elements that are not popular). *)
Fixpoint run (sm : Difflib.SequenceMatcher) (s : list ascii) (m : nat) : Z :=
  match m with
  | O => 0
  | S m' =>
      match nth_error s m' with
      | Some x =>
          if PyDict.has Ascii.eqb (Difflib.b2j sm) x then run sm s m' + 1 else 0
      | None => 0
      end
  end.

(** What [scan_rows] keeps true of [j2len] and [best] on any two sequences,
    after [m] rows from [alo] on: the best block starts at [alo] or later and
    ends inside the rows seen, and no length in [j2len] exceeds [m]. *)
Definition inside (alo : Z) (m : nat) (vars : PyDict.dict Z Z * Difflib.Match) : Prop :=
  let '(j2len, (besti, bestj, bestsize)) := vars in
  alo <= besti /\ 0 <= bestsize /\ besti + bestsize <= alo + Z.of_nat m
  /\ forall j v, PyDict.get Z.eqb j2len j = Some v -> v <= Z.of_nat m.

(** A bound on the iterations that [matching_loop] makes from a queue: each
    range counts for one more than twice its length in [a]. *)
Fixpoint weight (queue : list (Z * Z * Z * Z)) : nat :=
  match queue with
  | [] => 0
  | (alo, ahi, _, _) :: queue => S (2 * Z.to_nat (ahi - alo)) + weight queue
  end.

(** What [scan_rows] keeps true of [j2len] and [best] when the two sequences
    are one sequence [s], after the rows before [m]: the best block is on the
    diagonal, inside the rows seen and as long as the longest run seen; and
    the lengths in [j2len] are bounded by the runs. *)
Definition diagonal (sm : Difflib.SequenceMatcher) (s : list ascii) (m : nat)
    (vars : PyDict.dict Z Z * Difflib.Match) : Prop :=
  let '(j2len, (besti, bestj, bestsize)) := vars in
  besti = bestj /\ 0 <= besti /\ 0 <= bestsize /\ besti + bestsize <= Z.of_nat m
  /\ (forall j v,
         PyDict.get Z.eqb j2len j = Some v ->
         0 <= j /\ v <= run sm s (Z.to_nat (j + 1)) /\ v <= run sm s m)
  /\ PyDict.get_default Z.eqb j2len (Z.of_nat m - 1) 0 = run sm s m
  /\ (forall j, (j <= m)%nat -> run sm s j <= bestsize).

(** The codes of a table are pairwise distinct. *)
Definition distinct_codes {V : Type} (table : PyDict.dict string V) : Prop :=
  NoDup (PyDict.keys table).

(** The status of an answer of the service: 200 for the response model. *)
Definition status (r : Sample.Response) : Z :=
  match r with
  | Sample.Return _ => 200
  | Sample.HTTPException status_code _ => status_code
  end.

(** What the variables of the conversion loop of the service are worth once
    the loop has taken the items [seen] of the table: [best_match] is unset
    with [best_score] at 0.0, or it is an item seen whose score is above 0.0
    and is [best_score]; no score seen is above [best_score]; and every item
    seen is in [icd_candidates]. *)
Definition converted (seen : PyDict.dict string Sample.Candidate)
    (vars : Sample.Converted) : Prop :=
  let '(icd_candidates, best_match, best_score) := vars in
  match best_match with
  | None => best_score = PyFloat.f0_0
  | Some best =>
      PyFloat.gt best_score PyFloat.f0_0 = true
      /\ exists score,
           In (Sample.code best, (Sample.title best, score, Sample.source best)) seen
           /\ Sample.similarity_ best = PyFloat.round3 score
           /\ best_score = score
  end
  /\ (forall code title score source,
         In (code, (title, score, source)) seen -> PyFloat.gt score best_score = false)
  /\ List.length icd_candidates = List.length seen.

(** What the batch aggregator keeps true of its variables: [best_overall_score]
    is 0.0 while no best match is set and above 0.0 once one is; no score of
    the table is above it; and no best match is set while the table is empty. *)
Definition tracked (vars : Main.Locals) : Prop :=
  match Main.best_overall_match vars with
  | None => Main.best_overall_score vars = PyFloat.f0_0
  | Some _ => PyFloat.gt (Main.best_overall_score vars) PyFloat.f0_0 = true
  end
  /\ (forall code title score source,
         In (code, (title, score, source)) (Main.all_candidates vars) ->
         PyFloat.gt score (Main.best_overall_score vars) = false)
  /\ (Main.all_candidates vars = [] -> Main.best_overall_match vars = None).

(** The searches that a program means to make, in order. *)
Definition batch_plan (nam_term nam_def : string) : list string :=
  [nam_term]
  ++ (if PyStr.nonempty (PyStr.strip nam_def) then Main.extract_keywords nam_def else [])
  ++ Main.symptom_phrases.

Definition service_plan (entry : Sample.Entry) : list string :=
  Sample.entry_term entry :: Sample.extract_keywords (Sample.entry_definition entry).

(** The requests [made] after the requests [before] are searches for the
    first queries of [plan], in order, of which the last fails with [msg] and
    the others succeed. *)
Definition stops_at (remote : Net.Remote) (token : string) (before : list Net.request)
    (plan : list string) (made : list Net.request) (msg : string) : Prop :=
  exists done q rest,
    plan = done ++ q :: rest
    /\ made = map (Net.SearchRequest token) (done ++ [q])
    /\ Net.search_endpoint remote (before ++ map (Net.SearchRequest token) done) token q
       = Net.Raise msg.

(** The number of token requests among the requests. *)
Fixpoint token_requests (l : list Net.request) : nat :=
  match l with
  | [] => 0
  | Net.TokenRequest :: r => S (token_requests r)
  | Net.SearchRequest _ _ :: r => token_requests r
  end.

(** How a program comes to the score and the source of a title: by the query
    for the term, by the query for one of the keywords, or by the query for one
    of the symptom phrases. *)
Definition scored (similarity : string -> string -> PyFloat.float) (term : string)
    (keywords phrases : list string) (title : string) (score : PyFloat.float)
    (source : string) : Prop :=
  (source = "NAMASTE_term" /\ score = similarity term title)
  \/ (exists keyword,
         In keyword keywords
         /\ source = ("keyword: " ++ keyword)%string
         /\ score = PyFloat.max (similarity term title)
                      (PyFloat.mul (similarity keyword title) PyFloat.f0_8))
  \/ (exists phrase,
         In phrase phrases
         /\ source = ("symptom: " ++ phrase)%string
         /\ score = PyFloat.mul (similarity phrase title) PyFloat.f0_9).

(** What the batch aggregator keeps true of its variables besides [tracked]:
    every entry of the table has the score and the source of its own title,
    and so has the best match, whose code is a key of the table. *)
Definition consistent (term : string) (keywords : list string) (vars : Main.Locals)
    : Prop :=
  (forall code title score source,
      In (code, (title, score, source)) (Main.all_candidates vars) ->
      scored Main.similarity term keywords Main.symptom_phrases title score source)
  /\ (forall code title source,
         Main.best_overall_match vars = Some (code, title, source) ->
         In code (PyDict.keys (Main.all_candidates vars))
         /\ scored Main.similarity term keywords Main.symptom_phrases title
              (Main.best_overall_score vars) source).

(** The [ICDCandidate] that the conversion loop makes of an item of the table. *)
Definition candidate_of (item : string * Sample.Candidate) : Sample.ICDCandidate :=
  let '(code, (title, score, source)) := item in
  {| Sample.code := code; Sample.title := title;
     Sample.similarity_ := PyFloat.round3 score; Sample.source := source |}.

(** The candidate [y] may follow the candidate [x] in a list in descending
    order of similarity: its similarity is not greater. *)
Definition follows (x y : Sample.ICDCandidate) : Prop :=
  PyFloat.gt (Sample.similarity_ y) (Sample.similarity_ x) = false.

(** What the service keeps true of an entry of its table: neither its code
    nor its title is empty, and it has the score and the source of its title. *)
Definition well_formed (term : string) (keywords : list string)
    (item : string * Sample.Candidate) : Prop :=
  let '(code, (title, score, source)) := item in
  PyStr.nonempty code = true /\ PyStr.nonempty title = true
  /\ scored Sample.similarity term keywords [] title score source.

(** The block [m] lies in the range [alo, ahi) of [a] and in the range
    [blo, bhi) of [b], and over it the elements of the two sequences are
    there and equal. *)
Definition sound (sm : Difflib.SequenceMatcher) (alo ahi blo bhi : Z) (m : Difflib.Match)
    : Prop :=
  let '(i, j, k) := m in
  0 <= k /\ alo <= i /\ i + k <= ahi /\ blo <= j /\ j + k <= bhi
  /\ forall d, 0 <= d < k ->
       Difflib.elt_eqb (Difflib.getitem (Difflib.a sm) (i + d))
         (Difflib.getitem (Difflib.b sm) (j + d)) = true.

(** What [j2len] holds after the row [i]: under [j], the length of a run of
    equal elements that ends at [i] in [a] and at [j] in [b] and stays in the
    ranges. *)
Definition lengths (sm : Difflib.SequenceMatcher) (alo blo bhi i : Z)
    (j2len : PyDict.dict Z Z) : Prop :=
  forall j v,
    PyDict.get Z.eqb j2len j = Some v ->
    1 <= v /\ v <= i - alo + 1 /\ v <= j - blo + 1 /\ j < bhi
    /\ forall t, 0 <= t < v ->
         Difflib.elt_eqb (Difflib.getitem (Difflib.a sm) (i - t))
           (Difflib.getitem (Difflib.b sm) (j - t)) = true.

(** The index [b2j] lists, under an element, places of [b] where it is. *)
Definition indexed (sm : Difflib.SequenceMatcher) : Prop :=
  forall x j,
    In j (PyDict.get_default Ascii.eqb (Difflib.b2j sm) x []) ->
    Difflib.getitem (Difflib.b sm) j = Some x.

(** The ranges of a queue of [get_matching_blocks] are in order and inside
    the two sequences. *)
Definition in_order (la lb : Z) (range : Z * Z * Z * Z) : Prop :=
  let '(alo, ahi, blo, bhi) := range in
  0 <= alo /\ alo <= ahi /\ ahi <= la /\ 0 <= blo /\ blo <= bhi /\ bhi <= lb.

(** The room that the ranges of a queue leave in [a] and in [b]. *)
Fixpoint room_a (queue : list (Z * Z * Z * Z)) : Z :=
  match queue with
  | [] => 0
  | (alo, ahi, _, _) :: queue => (ahi - alo) + room_a queue
  end.

Fixpoint room_b (queue : list (Z * Z * Z * Z)) : Z :=
  match queue with
  | [] => 0
  | (_, _, blo, bhi) :: queue => (bhi - blo) + room_b queue
  end.

(** The sum of the sizes of blocks, as a recursive function. *)
Fixpoint total (blocks : list Difflib.Match) : Z :=
  match blocks with
  | [] => 0
  | (_, _, k) :: blocks => k + total blocks
  end.

(** A float that is not NaN. *)
Definition is_number (x : PyFloat.float) : bool :=
  match x with S754_nan => false | _ => true end.

(** What the batch aggregator keeps true of its variables when no code comes
    twice in the answer to the term query: the scores of the table are
    numbers, and the best match is the entry that the table has under its
    code, with the best score. *)
Definition settled (vars : Main.Locals) : Prop :=
  (forall code title score source,
      In (code, (title, score, source)) (Main.all_candidates vars) ->
      is_number score = true)
  /\ is_number (Main.best_overall_score vars) = true
  /\ match Main.best_overall_match vars with
     | None => True
     | Some (code, title, source) =>
         PyDict.get String.eqb (Main.all_candidates vars) code
         = Some (title, Main.best_overall_score vars, source)
     end.

(** The score of a value [(title, score, source)] of a table. *)
Definition score_of (entry : string * PyFloat.float * string) : PyFloat.float :=
  snd (fst entry).

(** The entry [new] is the entry [old], or it has a greater score. *)
Definition kept_or_raised (old new : string * PyFloat.float * string) : Prop :=
  new = old \/ PyFloat.gt (score_of new) (score_of old) = true.

(** Every search of [plan], made in order after the requests [before],
    succeeds, and [P] holds of every entity that it finds. *)
Definition all_found (remote : Net.Remote) (token : string) (before : list Net.request)
    (plan : list string) (P : Net.Entity -> Prop) : Prop :=
  forall done q rest,
    plan = done ++ q :: rest ->
    exists cands,
      Net.search_endpoint remote (before ++ map (Net.SearchRequest token) done) token q
      = Net.Ok cands
      /\ forall c, In c cands -> P c.

End Props.

(* ################################################################# *)
(** * Facts about dictionaries *)

Module PyDictFacts.
Import PyDict.

Section Facts.
Context {K V : Type}.
Variable eqb : K -> K -> bool.
Hypothesis eqb_eq : forall x y, eqb x y = true <-> x = y.

Lemma eqb_refl : forall x, eqb x x = true.
Proof. intro x. now apply eqb_eq. Qed.

Lemma eqb_neq : forall x y, x <> y -> eqb x y = false.
Proof.
  intros x y H. destruct (eqb x y) eqn:E; [|reflexivity].
  apply eqb_eq in E. contradiction.
Qed.

Lemma get_set_same (d : dict K V) k v : get eqb (set eqb d k v) k = Some v.
Proof.
  induction d as [|[k' v'] r IH]; simpl.
  - now rewrite eqb_refl.
  - destruct (eqb k k') eqn:E; simpl; rewrite E; auto.
Qed.

Lemma get_set_other (d : dict K V) k v k' :
  k' <> k -> get eqb (set eqb d k v) k' = get eqb d k'.
Proof.
  intro N. induction d as [|[k0 v0] r IH]; simpl.
  - now rewrite (eqb_neq k' k N).
  - destruct (eqb k k0) eqn:E; simpl.
    + apply eqb_eq in E. subst k0. now rewrite (eqb_neq k' k N).
    + now rewrite IH.
Qed.

Lemma keys_set (d : dict K V) k v :
  keys (set eqb d k v) = if has eqb d k then keys d else keys d ++ [k].
Proof.
  unfold has, keys. induction d as [|[k0 v0] r IH]; simpl; [reflexivity|].
  destruct (eqb k k0) eqn:E; simpl; [reflexivity|].
  rewrite IH. now destruct (get eqb r k).
Qed.

Lemma get_None_not_key (d : dict K V) k : get eqb d k = None -> ~ In k (keys d).
Proof.
  induction d as [|[k0 v0] r IH]; simpl; [tauto|].
  destruct (eqb k k0) eqn:E; [discriminate|].
  intros H [H1|H1]; [|now apply IH].
  subst. rewrite eqb_refl in E. discriminate.
Qed.

Lemma get_Some_In (d : dict K V) k v : get eqb d k = Some v -> In (k, v) d.
Proof.
  induction d as [|[k0 v0] r IH]; simpl; [discriminate|].
  destruct (eqb k k0) eqn:E.
  - apply eqb_eq in E. subst. intros [= ->]. now left.
  - intro H. right. now apply IH.
Qed.

Lemma In_get_Some (d : dict K V) k v :
  NoDup (keys d) -> In (k, v) d -> get eqb d k = Some v.
Proof.
  induction d as [|[k0 v0] r IH]; simpl; [tauto|].
  intros ND [H|H].
  - injection H as -> ->. now rewrite eqb_refl.
  - inversion ND as [|? ? N ND']; subst.
    destruct (eqb k k0) eqn:E.
    + apply eqb_eq in E. subst. exfalso. apply N.
      change k0 with (fst (k0, v)). now apply in_map.
    + now apply IH.
Qed.

(** An assignment never makes a key appear twice. *)
Lemma NoDup_keys_set (d : dict K V) k v : NoDup (keys d) -> NoDup (keys (set eqb d k v)).
Proof.
  intro ND. rewrite keys_set. unfold has.
  destruct (get eqb d k) eqn:E; [assumption|].
  apply NoDup_app; [assumption | constructor; [intros [] | constructor] |].
  intros x Hx [Hk|[]]. subst x. now apply (get_None_not_key d k).
Qed.

Lemma get_del (d : dict K V) k k' :
  NoDup (keys d) -> get eqb (del eqb d k) k' = if eqb k' k then None else get eqb d k'.
Proof.
  induction d as [|[k0 v0] r IH]; simpl; intro ND.
  - now destruct (eqb k' k).
  - inversion ND as [|? ? N ND']; subst.
    destruct (eqb k k0) eqn:E.
    + apply eqb_eq in E. subst k0.
      destruct (eqb k' k) eqn:E'; [|reflexivity].
      apply eqb_eq in E'. subst k'.
      destruct (get eqb r k) eqn:G; [|reflexivity].
      exfalso. apply N. apply get_Some_In in G.
      change k with (fst (k, v)). now apply in_map.
    + simpl. rewrite IH by assumption.
      destruct (eqb k' k0) eqn:E0; [|reflexivity].
      apply eqb_eq in E0. subst k'.
      now rewrite (eqb_neq k0 k) by (intros ->; rewrite eqb_refl in E; discriminate).
Qed.

Lemma keys_del_incl (d : dict K V) k : incl (keys (del eqb d k)) (keys d).
Proof.
  induction d as [|[k0 v0] r IH]; simpl; [easy|].
  destruct (eqb k k0); simpl.
  - now apply incl_tl.
  - apply incl_cons; [now left | now apply incl_tl].
Qed.

Lemma NoDup_keys_del (d : dict K V) k : NoDup (keys d) -> NoDup (keys (del eqb d k)).
Proof.
  induction d as [|[k0 v0] r IH]; simpl; intro ND; [constructor|].
  inversion ND as [|? ? N ND']; subst.
  destruct (eqb k k0); [assumption|].
  simpl. constructor; [|now apply IH].
  intro H. apply N. now apply (keys_del_incl r k).
Qed.

End Facts.
End PyDictFacts.

(* ################################################################# *)
(** * Facts about the effects *)

Module NetFacts.
Import Net.

Lemma queries_app (l1 l2 : list request) : queries (l1 ++ l2) = queries l1 ++ queries l2.
Proof.
  induction l1 as [|[|t q] r IH]; simpl; [reflexivity | assumption | now rewrite IH].
Qed.

Lemma queries_searches (token : string) (l : list string) :
  queries (map (SearchRequest token) l) = l.
Proof. induction l as [|q r IH]; simpl; [reflexivity | now rewrite IH]. Qed.

(** A loop that makes one search for each string of a list, and nothing
    else, has made exactly these searches when it ends. *)
Lemma for_each_search {B : Type} (remote : Remote) (token : string)
    (f : B -> string -> list Entity -> B) :
  forall (l : list string) (acc : B) (st : State) (out : B) (st' : State),
    for_each l acc
      (fun acc q => candidates <- search_icd remote q token ;; ret (f acc q candidates)) st
    = (Ok out, st') ->
    requests st' = requests st ++ map (SearchRequest token) l
    /\ token_cache st' = token_cache st.
Proof.
  induction l as [|x r IH]; intros acc st out st' H.
  - injection H as _ <-. now rewrite app_nil_r.
  - simpl in H. unfold bind at 1 in H. unfold bind at 1 in H.
    unfold search_icd at 1 in H.
    destruct (search_endpoint remote (requests st) token x) as [cands|msg];
      [|discriminate].
    simpl in H. apply IH in H. simpl in H. destruct H as [H1 H2].
    rewrite H1, <- app_assoc. now split.
Qed.

End NetFacts.

(* ################################################################# *)
(** * The queries of the two programs *)

Module QueryFacts.
Import Net NetFacts.

Lemma main_run_queries_requests (term def : string) (remote : Remote) (token : string)
    (st : State) (vars : Main.Locals) (st' : State) :
  Main.run_queries term def remote token st = (Ok vars, st') ->
  requests st' =
    requests st
    ++ map (SearchRequest token)
         ([term]
          ++ (if PyStr.nonempty (PyStr.strip def) then Main.extract_keywords def else [])
          ++ Main.symptom_phrases).
Proof.
  unfold Main.run_queries. intro H.
  unfold bind at 1 in H. unfold search_icd at 1 in H.
  destruct (search_endpoint remote (requests st) token term) as [cands|msg]; [|discriminate].
  unfold bind at 1 in H.
  match type of H with
  | context [match ?c ?s with _ => _ end] => destruct (c s) as [[vars1|msg] st1] eqn:E1
  end; [|discriminate].
  apply (for_each_search remote token
           (fun vars phrase candidates =>
              fold_left (Main.symptom_candidate phrase) candidates vars)) in H.
  destruct H as [H _]. rewrite H. clear H.
  destruct (PyStr.nonempty (PyStr.strip def)).
  - apply (for_each_search remote token
             (fun vars keyword candidates =>
                fold_left (Main.keyword_candidate term keyword) candidates vars)) in E1.
    destruct E1 as [E1 _]. rewrite E1. simpl requests.
    rewrite !map_app. simpl. now rewrite <- !app_assoc.
  - injection E1 as _ <-. simpl requests.
    rewrite !map_app. simpl. now rewrite <- !app_assoc.
Qed.

Lemma sample_run_queries_requests (remote : Remote) (term : string)
    (keywords : list string) (token : string) (st : State)
    (all : PyDict.dict string Sample.Candidate) (st' : State) :
  Sample.run_queries remote term keywords token st = (Ok all, st') ->
  requests st' = requests st ++ map (SearchRequest token) (term :: keywords).
Proof.
  unfold Sample.run_queries. intro H.
  unfold bind at 1 in H. unfold search_icd at 1 in H.
  destruct (search_endpoint remote (requests st) token term) as [cands|msg]; [|discriminate].
  apply (for_each_search remote token
           (fun all keyword candidates =>
              fold_left (Sample.keyword_candidate term keyword) candidates all)) in H.
  destruct H as [H _]. rewrite H. simpl. now rewrite <- app_assoc.
Qed.

Lemma sample_get_token_queries (remote : Remote) (st : State) (r : result string)
    (st' : State) :
  Sample.get_token remote st = (r, st') -> queries (requests st') = queries (requests st).
Proof.
  unfold Sample.get_token, bind, get_cache, post_token, set_cache, ret. intro H.
  destruct (token_cache st) as [t|]; [destruct (PyStr.nonempty t)|];
    try destruct (token_endpoint remote (requests st));
    injection H as _ <-; simpl; rewrite ?queries_app; simpl; now rewrite ?app_nil_r.
Qed.

End QueryFacts.

(* ################################################################# *)
(** * The candidate table *)

Module TableFacts.
Import Net.

Lemma string_eqb_eq : forall x y : string, String.eqb x y = true <-> x = y.
Proof. exact String.eqb_eq. Qed.

(** What holds of the accumulator before a loop and is kept by its body
    holds after the loop. *)
Lemma for_each_invariant {A B : Type} (P : B -> Prop) (body : B -> A -> M B) :
  (forall acc x st r st', P acc -> body acc x st = (Ok r, st') -> P r) ->
  forall l acc st out st',
    P acc -> for_each l acc body st = (Ok out, st') -> P out.
Proof.
  intros Hbody. induction l as [|x r IH]; intros acc st out st' HP H.
  - now injection H as <- _.
  - simpl in H. unfold bind at 1 in H.
    destruct (body acc x st) as [[acc'|msg] st1] eqn:E; [|discriminate].
    apply (IH acc' st1 out st'); [|assumption].
    now apply (Hbody acc x st acc' st1).
Qed.

Lemma fold_left_invariant {A B : Type} (P : B -> Prop) (f : B -> A -> B) :
  (forall acc x, P acc -> P (f acc x)) ->
  forall l acc, P acc -> P (fold_left f l acc).
Proof.
  intros Hf. induction l as [|x r IH]; intros acc HP; simpl; [assumption|].
  apply IH. now apply Hf.
Qed.


Lemma distinct_codes_set {V : Type} (table : PyDict.dict string V) code v :
  Props.distinct_codes table -> Props.distinct_codes (PyDict.set String.eqb table code v).
Proof. apply PyDictFacts.NoDup_keys_set, string_eqb_eq. Qed.

(** ** main.py *)

Lemma main_update_best_table code title source score all vars :
  Main.all_candidates (Main.update_best code title source score all vars) = all.
Proof. unfold Main.update_best. now destruct (PyFloat.gt score (Main.best_overall_score vars)). Qed.

Lemma main_term_candidate_distinct term vars c :
  Props.distinct_codes (Main.all_candidates vars) ->
  Props.distinct_codes (Main.all_candidates (Main.term_candidate term vars c)).
Proof.
  intro H. unfold Main.term_candidate. rewrite main_update_best_table.
  now apply distinct_codes_set.
Qed.

Lemma main_keyword_candidate_distinct term keyword vars c :
  Props.distinct_codes (Main.all_candidates vars) ->
  Props.distinct_codes (Main.all_candidates (Main.keyword_candidate term keyword vars c)).
Proof.
  intro H. unfold Main.keyword_candidate. rewrite main_update_best_table.
  destruct (Main.improves _ _ _); [now apply distinct_codes_set | assumption].
Qed.

Lemma main_symptom_candidate_distinct phrase vars c :
  Props.distinct_codes (Main.all_candidates vars) ->
  Props.distinct_codes (Main.all_candidates (Main.symptom_candidate phrase vars c)).
Proof.
  intro H. unfold Main.symptom_candidate. rewrite main_update_best_table.
  destruct (Main.improves _ _ _); [now apply distinct_codes_set | assumption].
Qed.

(** The table of the batch aggregator never holds a code twice. *)
Lemma main_table_distinct_codes term def remote token st vars st' :
  Main.run_queries term def remote token st = (Ok vars, st') ->
  Props.distinct_codes (Main.all_candidates vars).
Proof.
  unfold Main.run_queries. intro H.
  unfold bind at 1 in H.
  destruct (search_icd remote term token st) as [[cands|msg] st1]; [|discriminate].
  unfold bind at 1 in H.
  match type of H with
  | context [match ?c ?s with _ => _ end] => destruct (c s) as [[vars1|msg] st2] eqn:E1
  end; [|discriminate].
  assert (P0 : Props.distinct_codes
                 (Main.all_candidates
                    match cands with
                    | [] =>
                        {| Main.all_candidates := []; Main.best_overall_match := None;
                           Main.best_overall_score := PyFloat.f0_0 |}
                    | _ :: _ =>
                        fold_left (Main.term_candidate term) cands
                          {| Main.all_candidates := []; Main.best_overall_match := None;
                             Main.best_overall_score := PyFloat.f0_0 |}
                    end)).
  { destruct cands as [|c0 cs]; [constructor|].
    apply (fold_left_invariant (fun v => Props.distinct_codes (Main.all_candidates v))).
    - intros; now apply main_term_candidate_distinct.
    - constructor. }
  assert (P1 : Props.distinct_codes (Main.all_candidates vars1)).
  { destruct (PyStr.nonempty (PyStr.strip def)).
    - revert E1.
      apply (for_each_invariant (fun v => Props.distinct_codes (Main.all_candidates v)));
        [|exact P0].
      intros acc x s r s' Hacc Hb. unfold bind, ret in Hb.
      destruct (search_icd remote x token s) as [[cs|msg] s1]; [|discriminate].
      injection Hb as <- _.
      apply (fold_left_invariant (fun v => Props.distinct_codes (Main.all_candidates v)));
        [|assumption].
      intros; now apply main_keyword_candidate_distinct.
    - injection E1 as <- _. exact P0. }
  revert H.
  apply (for_each_invariant (fun v => Props.distinct_codes (Main.all_candidates v)));
    [|exact P1].
  intros acc x s r s' Hacc Hb. unfold bind, ret in Hb.
  destruct (search_icd remote x token s) as [[cs|msg] s1]; [|discriminate].
  injection Hb as <- _.
  apply (fold_left_invariant (fun v => Props.distinct_codes (Main.all_candidates v)));
    [|assumption].
  intros; now apply main_symptom_candidate_distinct.
Qed.

(** A keyword or symptom candidate whose code is in the table with a score
    that the new score does not exceed leaves the table as it is. *)
Lemma main_keyword_candidate_keeps term keyword vars c t old s :
  PyDict.get String.eqb (Main.all_candidates vars) (get_or_empty (theCode c))
  = Some (t, old, s) ->
  PyFloat.gt
    (PyFloat.max (Main.similarity term (get_or_empty (title c)))
       (PyFloat.mul (Main.similarity keyword (get_or_empty (title c))) PyFloat.f0_8))
    old = false ->
  Main.all_candidates (Main.keyword_candidate term keyword vars c) = Main.all_candidates vars.
Proof.
  intros G L. unfold Main.keyword_candidate. rewrite main_update_best_table.
  unfold Main.improves. now rewrite G, L.
Qed.

Lemma main_symptom_candidate_keeps phrase vars c t old s :
  PyDict.get String.eqb (Main.all_candidates vars) (get_or_empty (theCode c))
  = Some (t, old, s) ->
  PyFloat.gt (PyFloat.mul (Main.similarity phrase (get_or_empty (title c))) PyFloat.f0_9) old
  = false ->
  Main.all_candidates (Main.symptom_candidate phrase vars c) = Main.all_candidates vars.
Proof.
  intros G L. unfold Main.symptom_candidate. rewrite main_update_best_table.
  unfold Main.improves. now rewrite G, L.
Qed.

(** ** sample.py *)

Lemma sample_term_candidate_distinct term all c :
  Props.distinct_codes all -> Props.distinct_codes (Sample.term_candidate term all c).
Proof.
  intro H. unfold Sample.term_candidate.
  destruct (_ && _); [now apply distinct_codes_set | assumption].
Qed.

Lemma sample_keyword_candidate_distinct term keyword all c :
  Props.distinct_codes all -> Props.distinct_codes (Sample.keyword_candidate term keyword all c).
Proof.
  intro H. unfold Sample.keyword_candidate.
  destruct (_ && _); [|assumption].
  destruct (PyDict.get String.eqb all _) as [[[t old] s]|];
    [destruct (PyFloat.gt _ old)|]; try assumption; now apply distinct_codes_set.
Qed.

(** The table of the service never holds a code twice. *)
Lemma sample_table_distinct_codes remote term keywords token st all st' :
  Sample.run_queries remote term keywords token st = (Ok all, st') ->
  Props.distinct_codes all.
Proof.
  unfold Sample.run_queries. intro H.
  unfold bind at 1 in H.
  destruct (search_icd remote term token st) as [[cands|msg] st1]; [|discriminate].
  revert H. apply for_each_invariant.
  - intros acc x s r s' Hacc Hb. unfold bind, ret in Hb.
    destruct (search_icd remote x token s) as [[cs|msg] s1]; [|discriminate].
    injection Hb as <- _.
    apply (fold_left_invariant Props.distinct_codes); [|assumption].
    intros; now apply sample_keyword_candidate_distinct.
  - apply (fold_left_invariant Props.distinct_codes); [|constructor].
    intros; now apply sample_term_candidate_distinct.
Qed.

Lemma sample_keyword_candidate_keeps term keyword
    (all : PyDict.dict string Sample.Candidate) c t old s :
  PyDict.get String.eqb all (get_or_empty (theCode c)) = Some (t, old, s) ->
  PyFloat.gt
    (PyFloat.max (Sample.similarity term (get_or_empty (title c)))
       (PyFloat.mul (Sample.similarity keyword (get_or_empty (title c))) PyFloat.f0_8))
    old = false ->
  Sample.keyword_candidate term keyword all c = all.
Proof.
  intros G L. unfold Sample.keyword_candidate. cbv zeta.
  destruct (_ && _); [|reflexivity]. now rewrite G, L.
Qed.

End TableFacts.

(* ################################################################# *)
(** * Facts about strings *)

Module PyStrFacts.
Import PyStr.


Lemma prefix_refl (s : string) : String.prefix s s = true.
Proof.
  induction s as [|c r IH]; simpl; [reflexivity|].
  destruct (ascii_dec c c); [assumption | contradiction].
Qed.

Lemma prefix_In (sub s : string) (c : ascii) :
  String.prefix sub s = true -> In c (list_ascii_of_string sub) -> In c (list_ascii_of_string s).
Proof.
  revert s. induction sub as [|x r IH]; intros s H Hc; [destruct Hc|].
  destruct s as [|y t]; simpl in H; [discriminate|].
  destruct (ascii_dec x y) as [->|]; [|discriminate].
  destruct Hc as [<-|Hc]; [now left | right; now apply IH].
Qed.

(** [sub in s] only if every character of [sub] is one of [s]. *)
Lemma contains_In (sub s : string) (c : ascii) :
  contains sub s = true -> In c (list_ascii_of_string sub) -> In c (list_ascii_of_string s).
Proof.
  induction s as [|y t IH]; simpl; intros H Hc.
  - rewrite orb_false_r in H. now apply (prefix_In sub "" c).
  - apply orb_true_iff in H. destruct H as [H|H].
    + now apply (prefix_In sub (String y t) c).
    + right. now apply IH.
Qed.

Lemma contains_refl (s : string) : contains s s = true.
Proof.
  destruct s as [|x r]; [reflexivity|].
  change (String.prefix (String x r) (String x r) || contains (String x r) r = true).
  now rewrite prefix_refl.
Qed.

Lemma contains_empty (s : string) : contains "" s = true.
Proof. now destruct s. Qed.

Lemma chars_lower (s : string) (c : ascii) :
  In c (list_ascii_of_string (lower s)) -> exists c0, In c0 (list_ascii_of_string s) /\ c = lower_char c0.
Proof.
  induction s as [|x r IH]; simpl; [tauto|].
  intros [<-|H].
  - exists x. split; [now left | reflexivity].
  - destruct (IH H) as [c0 [H0 ->]]. exists c0. split; [now right | reflexivity].
Qed.

Lemma chars_sub_nonword_nonspace (s : string) (c : ascii) :
  In c (list_ascii_of_string (sub_nonword_nonspace s)) -> In c (list_ascii_of_string s) \/ c = " "%char.
Proof.
  induction s as [|x r IH]; simpl; [tauto|].
  intros [<-|H].
  - destruct (isword x || isspace x); [left; now left | now right].
  - destruct (IH H); [left; now right | now right].
Qed.

(** The words that [split] makes are made of characters of the string, none
    of them white space. *)
Lemma split_go_chars (s : string) :
  (forall c, In c (list_ascii_of_string (fst (split_go s))) -> In c (list_ascii_of_string s) /\ isspace c = false)
  /\ (forall w, In w (snd (split_go s)) ->
        forall c, In c (list_ascii_of_string w) -> In c (list_ascii_of_string s) /\ isspace c = false).
Proof.
  induction s as [|x r [IH1 IH2]]; simpl; [tauto|].
  destruct (split_go r) as [w ws]. simpl in IH1, IH2.
  destruct (isspace x) eqn:E; simpl.
  - split; [tauto|]. intros w' Hw' c Hc.
    assert (H : In c (list_ascii_of_string r) /\ isspace c = false).
    { destruct (nonempty w); [destruct Hw' as [<-|Hw']|]; eauto. }
    tauto.
  - split.
    + intros c [<-|Hc]; [tauto|]. apply IH1 in Hc. tauto.
    + intros w' Hw' c Hc. destruct (IH2 w' Hw' c Hc). tauto.
Qed.

Lemma split_chars (s w : string) (c : ascii) :
  In w (split s) -> In c (list_ascii_of_string w) -> In c (list_ascii_of_string s) /\ isspace c = false.
Proof.
  unfold split. destruct (split_go_chars s) as [H1 H2].
  destruct (split_go s) as [w0 ws]. simpl in H1, H2.
  destruct (nonempty w0); [intros [<-|H]|intros H]; eauto.
Qed.

(** Lowering a character keeps it alphanumeric or not. *)
Lemma isalnum_lower_char (c : ascii) : isalnum (lower_char c) = isalnum c.
Proof. destruct c as [[] [] [] [] [] [] [] []]; reflexivity. Qed.

Lemma In_firstn {A : Type} (n : nat) (l : list A) (x : A) : In x (firstn n l) -> In x l.
Proof.
  revert l. induction n as [|n IH]; intros [|y r]; simpl; try tauto.
  intros [H|H]; [now left | right; now apply IH].
Qed.

End PyStrFacts.

(* ################################################################# *)
(** * The keyword extractor *)

Module KeywordFacts.
Import PyStr PyStrFacts.

Lemma In_firstn_app_head {A : Type} (n : nat) (l1 l2 : list A) (x : A) :
  In x (firstn n (l1 ++ x :: l2)) <-> In x (firstn n l1) \/ (List.length l1 < n)%nat.
Proof.
  rewrite firstn_app, in_app_iff. split; intros [H|H]; try (now left).
  - destruct (n - List.length l1)%nat eqn:E; [destruct H|]. right. lia.
  - right. destruct (n - List.length l1)%nat eqn:E; [lia | now left].
Qed.

(** A needle with an alphanumeric character is found in a lowered text
    only if the text has an alphanumeric character. *)
Lemma contains_needs_alnum (t s : string) :
  existsb isalnum (list_ascii_of_string t) = true ->
  contains t (lower s) = true ->
  exists c0, In c0 (list_ascii_of_string s) /\ isalnum c0 = true.
Proof.
  intros Ht Hc. apply existsb_exists in Ht. destruct Ht as [c [Hin Hal]].
  apply (contains_In t (lower s) c Hc) in Hin.
  apply chars_lower in Hin. destruct Hin as [c0 [H0 ->]].
  exists c0. split; [assumption|]. now rewrite <- isalnum_lower_char.
Qed.

Lemma word_needs_alnum (t w d : string) :
  In w (split (sub_nonword_nonspace (lower d))) ->
  existsb isalnum (list_ascii_of_string t) = true ->
  contains t w = true ->
  exists c0, In c0 (list_ascii_of_string d) /\ isalnum c0 = true.
Proof.
  intros Hw Ht Hc. apply existsb_exists in Ht. destruct Ht as [c [Hin Hal]].
  apply (contains_In t w c Hc) in Hin.
  destruct (split_chars _ w c Hw Hin) as [Hs _].
  apply chars_sub_nonword_nonspace in Hs. destruct Hs as [Hs| ->]; [|discriminate].
  apply chars_lower in Hs. destruct Hs as [c0 [H0 ->]].
  exists c0. split; [assumption|]. now rewrite <- isalnum_lower_char.
Qed.

(** A word made by [split] is not a phrase of two words. *)
Lemma split_word_no_space (s w : string) :
  In w (split s) -> In " "%char (list_ascii_of_string w) -> False.
Proof. intros Hw Hc. now destruct (split_chars s w " "%char Hw Hc). Qed.

(** The steps shared by the two extractors, which differ in their tables only. *)
Ltac medical_keyword H :=
  apply filter_In in H; destruct H as [H ?];
  apply filter_In in H; destruct H as [H ?].

Lemma main_medical_keyword (d w : string) :
  In w (Main.medical_keywords d) ->
  In w (split (sub_nonword_nonspace (lower d)))
  /\ (len w >? 3) && negb (mem w Main.stop_words) = true
  /\ existsb (fun term => contains term w) Main.medical_terms = true.
Proof. unfold Main.medical_keywords. intro H. medical_keyword H. tauto. Qed.

Lemma sample_medical_keyword (d w : string) :
  In w (Sample.medical_keywords d) ->
  In w (split (sub_nonword_nonspace (lower d)))
  /\ (len w >? 3) && negb (mem w Sample.stop_words) = true
  /\ existsb (fun term => contains term w) Sample.medical_terms = true.
Proof. unfold Sample.medical_keywords. intro H. medical_keyword H. tauto. Qed.

Lemma main_compound_term (d k : string) :
  In k (Main.compound_terms d) ->
  In k ["hoarse voice"; "hard stools"; "weakness"; "skin discoloration"].
Proof.
  unfold Main.compound_terms. cbv zeta.
  repeat match goal with |- context [if ?b then _ else _] => destruct b end;
    simpl; tauto.
Qed.

Lemma sample_compound_term (d k : string) :
  In k (Sample.compound_terms d) -> In k ["hoarse voice"; "hard stools"; "weakness"].
Proof.
  unfold Sample.compound_terms. cbv zeta.
  repeat match goal with |- context [if ?b then _ else _] => destruct b end;
    simpl; tauto.
Qed.

Lemma main_compound_head (d : string) :
  contains "hoarseness" (lower d) = true -> contains "voice" (lower d) = true ->
  exists rest, Main.compound_terms d = "hoarse voice" :: rest.
Proof. intros H1 H2. unfold Main.compound_terms. rewrite H1, H2. simpl. eauto. Qed.

Lemma sample_compound_head (d : string) :
  contains "hoarseness" (lower d) = true -> contains "voice" (lower d) = true ->
  exists rest, Sample.compound_terms d = "hoarse voice" :: rest.
Proof. intros H1 H2. unfold Sample.compound_terms. rewrite H1, H2. simpl. eauto. Qed.

Lemma main_no_alnum (d : string) :
  (forall c, In c (list_ascii_of_string d) -> isalnum c = false) ->
  Main.extract_keywords d = [].
Proof.
  intro H.
  assert (N : forall t, existsb isalnum (list_ascii_of_string t) = true ->
                        contains t (lower d) = false).
  { intros t Ht. destruct (contains t (lower d)) eqn:E; [|reflexivity].
    destruct (contains_needs_alnum t d Ht E) as [c0 [H0 H1]].
    rewrite (H c0 H0) in H1. discriminate. }
  unfold Main.extract_keywords, Main.compound_terms.
  rewrite !N by reflexivity. simpl. rewrite app_nil_r.
  destruct (Main.medical_keywords d) as [|w r] eqn:E; [reflexivity|].
  exfalso. destruct (main_medical_keyword d w) as [Hw [_ Ht]]; [rewrite E; now left|].
  apply existsb_exists in Ht. destruct Ht as [t [Hin Hc]].
  assert (Ha : existsb isalnum (list_ascii_of_string t) = true).
  { revert Hin. clear. simpl. intuition (subst; reflexivity). }
  destruct (word_needs_alnum t w d Hw Ha Hc) as [c0 [H0 H1]].
  rewrite (H c0 H0) in H1. discriminate.
Qed.

Lemma sample_no_alnum (d : string) :
  (forall c, In c (list_ascii_of_string d) -> isalnum c = false) ->
  Sample.extract_keywords d = [].
Proof.
  intro H.
  assert (N : forall t, existsb isalnum (list_ascii_of_string t) = true ->
                        contains t (lower d) = false).
  { intros t Ht. destruct (contains t (lower d)) eqn:E; [|reflexivity].
    destruct (contains_needs_alnum t d Ht E) as [c0 [H0 H1]].
    rewrite (H c0 H0) in H1. discriminate. }
  unfold Sample.extract_keywords, Sample.compound_terms.
  rewrite !N by reflexivity. simpl. rewrite app_nil_r.
  destruct (Sample.medical_keywords d) as [|w r] eqn:E; [reflexivity|].
  exfalso. destruct (sample_medical_keyword d w) as [Hw [_ Ht]]; [rewrite E; now left|].
  apply existsb_exists in Ht. destruct Ht as [t [Hin Hc]].
  assert (Ha : existsb isalnum (list_ascii_of_string t) = true).
  { revert Hin. clear. simpl. intuition (subst; reflexivity). }
  destruct (word_needs_alnum t w d Hw Ha Hc) as [c0 [H0 H1]].
  rewrite (H c0 H0) in H1. discriminate.
Qed.

End KeywordFacts.

(* ################################################################# *)
(** * The lookup of the service *)

Module LookupFacts.
Import PyStr PyStrFacts.

(** The third test of the lookup, [query == code], adds nothing to the first. *)
Lemma entry_matches_substring (query : string) (item : string * Sample.Entry) :
  Sample.entry_matches query item
  = contains (lower query) (lower (fst item))
    || contains (lower query) (lower (Sample.entry_term (snd item))).
Proof.
  destruct item as [code entry]. unfold Sample.entry_matches. simpl.
  destruct (String.eqb query code) eqn:E; [|now rewrite orb_false_r].
  apply String.eqb_eq in E. subst code. now rewrite contains_refl.
Qed.

Lemma find_entry_None (query : string) :
  Sample.find_entry query = None <->
  forall code entry,
    In (code, entry) Sample.NAMASTE_DATA ->
    contains (lower query) (lower code) = false
    /\ contains (lower query) (lower (Sample.entry_term entry)) = false.
Proof.
  unfold Sample.find_entry. split.
  - intros H code entry Hin.
    destruct (find (Sample.entry_matches query) Sample.NAMASTE_DATA) eqn:E;
      [discriminate|].
    pose proof (find_none _ _ E (code, entry) Hin) as N.
    rewrite entry_matches_substring in N. now apply orb_false_iff in N.
  - intro H.
    destruct (find (Sample.entry_matches query) Sample.NAMASTE_DATA) as [[code entry]|] eqn:E;
      [|reflexivity].
    apply find_some in E. destruct E as [Hin M].
    rewrite entry_matches_substring in M. destruct (H code entry Hin) as [H1 H2].
    simpl in M. rewrite H1, H2 in M. discriminate.
Qed.

Lemma status_found remote request st entry :
  Sample.find_entry (strip (Sample.query request)) = Some entry ->
  Props.status (fst (Sample.search_namaste_mapping remote request st)) = 200
  \/ Props.status (fst (Sample.search_namaste_mapping remote request st)) = 500.
Proof.
  intro H. unfold Sample.search_namaste_mapping. rewrite H.
  destruct (Sample.try_body remote entry st) as [[r|msg] st']; simpl; tauto.
Qed.

Lemma status_not_found remote request st :
  Sample.find_entry (strip (Sample.query request)) = None ->
  Props.status (fst (Sample.search_namaste_mapping remote request st)) = 404.
Proof. intro H. unfold Sample.search_namaste_mapping. now rewrite H. Qed.

End LookupFacts.

(* ################################################################# *)
(** * Facts about floats *)

Module PyFloatFacts.
Import PyFloat.

Ltac compare_cases :=
  repeat match goal with
    | H : context [Z.compare ?x ?y] |- _ => destruct (Z.compare_spec x y)
    | |- context [Z.compare ?x ?y] => destruct (Z.compare_spec x y)
    | H : context [Pos.compare ?x ?y] |- _ => destruct (Pos.compare_spec x y)
    | |- context [Pos.compare ?x ?y] => destruct (Pos.compare_spec x y)
    end.

Lemma gt_irrefl (x : float) : gt x x = false.
Proof.
  unfold gt, SFltb. destruct x as [[]|[]| |[] m e]; simpl; try reflexivity;
    rewrite Z.compare_refl; change (Pos.compare_cont Eq m m) with (Pos.compare m m);
    now rewrite Pos.compare_refl.
Qed.

Lemma gt_trans (x y z : float) : gt x y = true -> gt y z = true -> gt x z = true.
Proof.
  unfold gt, SFltb.
  destruct x as [[]|[]| |[] mx ex], y as [[]|[]| |[] my ey],
    z as [[]|[]| |[] mz ez]; simpl; try discriminate; try reflexivity;
    change (Pos.compare_cont Eq) with Pos.compare;
    intros H1 H2; compare_cases; simpl in *; try discriminate; try reflexivity;
    try lia.
Qed.

Lemma gt_asym (x y : float) : gt x y = true -> gt y x = false.
Proof.
  intro H. destruct (gt y x) eqn:E; [|reflexivity].
  pose proof (gt_trans x y x H E) as T. rewrite gt_irrefl in T. discriminate.
Qed.

(** A score that is not above the bound stays not above a greater bound. *)
Lemma not_gt_raise (s bound bound' : float) :
  gt s bound = false -> gt bound' bound = true -> gt s bound' = false.
Proof.
  intros H1 H2. destruct (gt s bound') eqn:E; [|reflexivity].
  rewrite (gt_trans s bound' bound E H2) in H1. discriminate.
Qed.

Lemma mul_comm (x y : float) : mul x y = mul y x.
Proof.
  unfold mul, SFmul.
  destruct x as [sx|sx| |sx mx ex], y as [sy|sy| |sy my ey];
    try reflexivity; try (now rewrite xorb_comm).
  now rewrite xorb_comm, Pos.mul_comm, Z.add_comm.
Qed.


End PyFloatFacts.

(* ################################################################# *)
(** * The best match *)

Module BestFacts.
Import Net PyFloat PyFloatFacts.

Lemma In_set {V : Type} (d : PyDict.dict string V) (k : string) (v : V) (x : string * V) :
  In x (PyDict.set String.eqb d k v) -> In x d \/ x = (k, v).
Proof.
  induction d as [|[k0 v0] r IH]; simpl.
  - intros [<-|[]]. now right.
  - destruct (String.eqb k k0) eqn:E.
    + apply String.eqb_eq in E. subst k0. intros [<-|H]; [now right | left; now right].
    + intros [<-|H]; [left; now left|]. destruct (IH H); [left; now right | now right].
Qed.

Lemma set_not_empty {V : Type} (d : PyDict.dict string V) (k : string) (v : V) :
  PyDict.set String.eqb d k v <> [].
Proof. destruct d as [|[k0 v0] r]; simpl; [|destruct (String.eqb k k0)]; discriminate. Qed.

(** ** sample.py: the loop that converts the table *)

Lemma convert_item_kept (seen : PyDict.dict string Sample.Candidate)
    (vars : Sample.Converted) (item : string * Sample.Candidate) :
  Props.converted seen vars -> Props.converted (seen ++ [item]) (Sample.convert_item vars item).
Proof.
  destruct vars as [[cands best] bs]. destruct item as [code [[title score] source]].
  unfold Props.converted, Sample.convert_item. intros [Hb [Hmax Hlen]].
  destruct (gt score bs) eqn:E.
  - split; [|split].
    + simpl. split.
      * destruct best as [b|]; [|now rewrite Hb in E].
        destruct Hb as [Hb _]. now apply (gt_trans score bs f0_0).
      * exists score. split; [apply in_or_app; right; now left | now split].
    + intros k t s src H. apply in_app_or in H. destruct H as [H|[H|[]]].
      * apply (not_gt_raise s bs score); [now apply (Hmax k t s src) | assumption].
      * injection H as _ _ <- _. apply gt_irrefl.
    + rewrite !length_app, Hlen. reflexivity.
  - split; [|split].
    + destruct best as [b|]; [|assumption].
      destruct Hb as [Hb [s [H1 H2]]]. split; [assumption|].
      exists s. split; [apply in_or_app; now left | assumption].
    + intros k t s src H. apply in_app_or in H. destruct H as [H|[H|[]]].
      * now apply (Hmax k t s src).
      * now injection H as _ _ <- _.
    + rewrite !length_app, Hlen. reflexivity.
Qed.

Lemma convert_fold_kept (l seen : PyDict.dict string Sample.Candidate)
    (vars : Sample.Converted) :
  Props.converted seen vars ->
  Props.converted (seen ++ l) (fold_left Sample.convert_item l vars).
Proof.
  revert seen vars. induction l as [|item r IH]; intros seen vars H; simpl.
  - now rewrite app_nil_r.
  - replace (seen ++ item :: r) with ((seen ++ [item]) ++ r)
      by now rewrite <- app_assoc.
    apply IH. now apply convert_item_kept.
Qed.

Lemma convert_table (table : PyDict.dict string Sample.Candidate) :
  Props.converted table
    (fold_left Sample.convert_item table ([], None, f0_0)).
Proof.
  apply (convert_fold_kept table [] ([], None, f0_0)).
  unfold Props.converted. simpl. repeat split. intros ? ? ? ? [].
Qed.

Lemma sort_by_similarity_empty (l : list Sample.ICDCandidate) :
  List.length l = 0%nat -> Sample.sort_by_similarity l = [].
Proof. destruct l; [reflexivity | discriminate]. Qed.

(** ** main.py: the three loops over candidates *)

Lemma main_step_kept (code title source : string) (score : float)
    (all : PyDict.dict string Main.Candidate) (vars : Main.Locals) :
  Props.tracked vars ->
  all = PyDict.set String.eqb (Main.all_candidates vars) code (title, score, source)
  \/ (all = Main.all_candidates vars /\ all <> []) ->
  Props.tracked (Main.update_best code title source score all vars).
Proof.
  unfold Props.tracked, Main.update_best. intros [Hb [Hmax Hemp]] Hall.
  assert (Hin : forall k t s src, In (k, (t, s, src)) all ->
                  In (k, (t, s, src)) (Main.all_candidates vars) \/ s = score).
  { intros k t s src H. destruct Hall as [->|[-> _]]; [|now left].
    apply In_set in H. destruct H as [H|H]; [now left | right; now injection H]. }
  assert (Hne : all <> []).
  { destruct Hall as [->|[_ H]]; [apply set_not_empty | assumption]. }
  destruct (gt score (Main.best_overall_score vars)) eqn:E; simpl.
  - split; [|split].
    + destruct (Main.best_overall_match vars); [|now rewrite Hb in E].
      now apply (gt_trans score (Main.best_overall_score vars) f0_0).
    + intros k t s src H. destruct (Hin k t s src H) as [H1| ->]; [|apply gt_irrefl].
      apply (not_gt_raise s (Main.best_overall_score vars) score);
        [now apply (Hmax k t s src) | assumption].
    + intro H. contradiction.
  - split; [assumption|]. split.
    + intros k t s src H. destruct (Hin k t s src H) as [H1| ->]; [|assumption].
      now apply (Hmax k t s src).
    + intro H. contradiction.
Qed.

Lemma improves_false_not_empty (all : PyDict.dict string Main.Candidate) code score :
  Main.improves all code score = false -> all <> [].
Proof. destruct all; [discriminate | discriminate]. Qed.

Lemma main_term_candidate_tracked term vars c :
  Props.tracked vars -> Props.tracked (Main.term_candidate term vars c).
Proof. intro H. unfold Main.term_candidate. apply main_step_kept; [assumption | now left]. Qed.

Lemma main_keyword_candidate_tracked term keyword vars c :
  Props.tracked vars -> Props.tracked (Main.keyword_candidate term keyword vars c).
Proof.
  intro H. unfold Main.keyword_candidate. apply main_step_kept; [assumption|].
  destruct (Main.improves _ _ _) eqn:E; [now left | right].
  split; [reflexivity | now apply improves_false_not_empty in E].
Qed.

Lemma main_symptom_candidate_tracked phrase vars c :
  Props.tracked vars -> Props.tracked (Main.symptom_candidate phrase vars c).
Proof.
  intro H. unfold Main.symptom_candidate. apply main_step_kept; [assumption|].
  destruct (Main.improves _ _ _) eqn:E; [now left | right].
  split; [reflexivity | now apply improves_false_not_empty in E].
Qed.

Lemma main_run_queries_tracked term def remote token st vars st' :
  Main.run_queries term def remote token st = (Ok vars, st') -> Props.tracked vars.
Proof.
  unfold Main.run_queries. intro H.
  unfold bind at 1 in H.
  destruct (search_icd remote term token st) as [[cands|msg] st1]; [|discriminate].
  unfold bind at 1 in H.
  match type of H with
  | context [match ?c ?s with _ => _ end] => destruct (c s) as [[vars1|msg] st2] eqn:E1
  end; [|discriminate].
  assert (I0 : Props.tracked
                 {| Main.all_candidates := []; Main.best_overall_match := None;
                    Main.best_overall_score := f0_0 |}).
  { unfold Props.tracked. simpl. repeat split. intros ? ? ? ? []. }
  assert (P0 : Props.tracked
                 match cands with
                 | [] =>
                     {| Main.all_candidates := []; Main.best_overall_match := None;
                        Main.best_overall_score := f0_0 |}
                 | _ :: _ =>
                     fold_left (Main.term_candidate term) cands
                       {| Main.all_candidates := []; Main.best_overall_match := None;
                          Main.best_overall_score := f0_0 |}
                 end).
  { destruct cands as [|c0 cs]; [exact I0|].
    apply (TableFacts.fold_left_invariant Props.tracked); [|exact I0].
    intros; now apply main_term_candidate_tracked. }
  assert (P1 : Props.tracked vars1).
  { destruct (PyStr.nonempty (PyStr.strip def)).
    - revert E1. apply (TableFacts.for_each_invariant Props.tracked); [|exact P0].
      intros acc x s r s' Hacc Hb. unfold bind, ret in Hb.
      destruct (search_icd remote x token s) as [[cs|msg] s1]; [|discriminate].
      injection Hb as <- _.
      apply (TableFacts.fold_left_invariant Props.tracked); [|assumption].
      intros; now apply main_keyword_candidate_tracked.
    - injection E1 as <- _. exact P0. }
  revert H. apply (TableFacts.for_each_invariant Props.tracked); [|exact P1].
  intros acc x s r s' Hacc Hb. unfold bind, ret in Hb.
  destruct (search_icd remote x token s) as [[cs|msg] s1]; [|discriminate].
  injection Hb as <- _.
  apply (TableFacts.fold_left_invariant Props.tracked); [|assumption].
  intros; now apply main_symptom_candidate_tracked.
Qed.

(** ** Runs in which every search finds nothing *)

Lemma for_each_finds_nothing {B : Type} (remote : Remote) (token : string)
    (f : B -> string -> list Entity -> B) :
  (forall h t q, search_endpoint remote h t q = Ok []) ->
  (forall acc q, f acc q [] = acc) ->
  forall (l : list string) (acc : B) (st : State),
    fst (for_each l acc
           (fun acc q => candidates <- search_icd remote q token ;;
                         ret (f acc q candidates)) st) = Ok acc.
Proof.
  intros Hs Hf. induction l as [|x r IH]; intros acc st; [reflexivity|].
  simpl. unfold bind at 1. unfold bind at 1. unfold search_icd at 1.
  rewrite Hs. unfold ret at 1. rewrite Hf. apply IH.
Qed.

Lemma main_finds_nothing (remote : Remote) (term def token : string) (st : State) :
  (forall h t q, search_endpoint remote h t q = Ok []) ->
  fst (Main.run_queries term def remote token st)
  = Ok {| Main.all_candidates := []; Main.best_overall_match := None;
          Main.best_overall_score := f0_0 |}.
Proof.
  intro Hs. unfold Main.run_queries.
  unfold bind at 1. unfold search_icd at 1. rewrite Hs.
  unfold bind at 1.
  match goal with
  | |- context [match ?c ?s with _ => _ end] => destruct (c s) as [[vars1|msg] st2] eqn:E1
  end.
  - assert (V : vars1 = {| Main.all_candidates := []; Main.best_overall_match := None;
                           Main.best_overall_score := f0_0 |}).
    { apply (f_equal fst) in E1. simpl in E1.
      destruct (PyStr.nonempty (PyStr.strip def)).
      - rewrite (for_each_finds_nothing remote token
                   (fun vars keyword candidates =>
                      fold_left (Main.keyword_candidate term keyword) candidates vars))
          in E1 by (assumption || reflexivity).
        now injection E1.
      - now injection E1. }
    subst vars1.
    apply (for_each_finds_nothing remote token
             (fun vars phrase candidates =>
                fold_left (Main.symptom_candidate phrase) candidates vars));
      [assumption | reflexivity].
  - exfalso. apply (f_equal fst) in E1. simpl in E1.
    destruct (PyStr.nonempty (PyStr.strip def)).
    + rewrite (for_each_finds_nothing remote token
                 (fun vars keyword candidates =>
                    fold_left (Main.keyword_candidate term keyword) candidates vars))
        in E1 by (assumption || reflexivity).
      discriminate.
    + discriminate.
Qed.

Lemma sample_finds_nothing (remote : Remote) (term token : string)
    (keywords : list string) (st : State) :
  (forall h t q, search_endpoint remote h t q = Ok []) ->
  fst (Sample.run_queries remote term keywords token st) = Ok [].
Proof.
  intro Hs. unfold Sample.run_queries.
  unfold bind at 1. unfold search_icd at 1. rewrite Hs.
  apply (for_each_finds_nothing remote token
           (fun all keyword candidates =>
              fold_left (Sample.keyword_candidate term keyword) candidates all));
    [assumption | reflexivity].
Qed.

End BestFacts.

(* ################################################################# *)
(** * Facts about the conversion and the rounding of floats *)

Module RoundFacts.
Import PyFloat.

Lemma digits2_bounds (p : positive) :
  2 ^ (Zpos (digits2_pos p) - 1) <= Zpos p < 2 ^ Zpos (digits2_pos p).
Proof.
  induction p as [p IH|p IH|]; simpl digits2_pos; [| |simpl; lia].
  - rewrite Pos2Z.inj_succ. replace (Z.succ (Zpos (digits2_pos p)) - 1) with (Zpos (digits2_pos p)) by lia.
    rewrite Z.pow_succ_r by lia.
    assert (E : 2 ^ Zpos (digits2_pos p) = 2 * 2 ^ (Zpos (digits2_pos p) - 1)).
    { rewrite <- Z.pow_succ_r by lia. f_equal. lia. }
    lia.
  - rewrite Pos2Z.inj_succ. replace (Z.succ (Zpos (digits2_pos p)) - 1) with (Zpos (digits2_pos p)) by lia.
    rewrite Z.pow_succ_r by lia.
    assert (E : 2 ^ Zpos (digits2_pos p) = 2 * 2 ^ (Zpos (digits2_pos p) - 1)).
    { rewrite <- Z.pow_succ_r by lia. f_equal. lia. }
    lia.
Qed.

Lemma digits2_unique (p : positive) (k : Z) :
  2 ^ (k - 1) <= Zpos p < 2 ^ k -> Zpos (digits2_pos p) = k.
Proof.
  intros [H1 H2]. pose proof (digits2_bounds p) as [B1 B2].
  set (d := Zpos (digits2_pos p)) in *.
  assert (0 < k).
  { destruct (Z.ltb_spec 0 k); [assumption|]. 
    assert (2 ^ k <= 1).
    { destruct (Z.eq_dec k 0) as [->|]; [simpl; lia|]. rewrite Z.pow_neg_r by lia. lia. }
    lia. }
  destruct (Z.lt_trichotomy d k) as [L|[E|L]]; [|assumption|]; exfalso.
  - assert (2 ^ d <= 2 ^ (k - 1)) by (apply Z.pow_le_mono_r; lia). lia.
  - assert (2 ^ k <= 2 ^ (d - 1)) by (apply Z.pow_le_mono_r; lia). lia.
Qed.


Lemma fexp_normal (e : Z) : -1021 <= e -> fexp prec emax e = e - 53.
Proof. intro H. unfold fexp, emin, prec, emax. lia. Qed.

Lemma shr_fexp_canonical (m : positive) (e : Z) :
  Zpos (digits2_pos m) = 53 -> -1074 <= e ->
  shr_fexp prec emax (Zpos m) e loc_Exact
  = ({| shr_m := Zpos m; shr_r := false; shr_s := false |}, e).
Proof.
  intros D E. unfold shr_fexp. simpl Zdigits2. rewrite D.
  rewrite fexp_normal by lia. replace (53 + e - 53 - e) with 0 by lia. reflexivity.
Qed.

(** Rounding leaves a mantissa of 53 bits as it is. *)
Lemma round_canonical (s : bool) (m : positive) (e : Z) :
  Zpos (digits2_pos m) = 53 -> -1074 <= e <= 971 ->
  binary_round_aux prec emax s (Zpos m) e loc_Exact = S754_finite s m e.
Proof.
  intros D E. unfold binary_round_aux. rewrite shr_fexp_canonical by lia.
  cbn [shr_m loc_of_shr_record round_nearest_even].
  rewrite shr_fexp_canonical by lia. cbn [shr_m].
  unfold prec, emax. destruct (Z.leb_spec e (1024 - 53)); [reflexivity | lia].
Qed.

Lemma iter_pos_nat {A : Type} (f : A -> A) (p : positive) (x : A) :
  iter_pos f p x = Nat.iter (Pos.to_nat p) f x.
Proof.
  revert x. induction p as [p IH|p IH|]; intro x; cbn [iter_pos].
  - rewrite !IH, Pos2Nat.inj_xI, Nat.iter_succ_r.
    replace (2 * Pos.to_nat p)%nat with (Pos.to_nat p + Pos.to_nat p)%nat by lia.
    now rewrite Nat.iter_add.
  - rewrite !IH, Pos2Nat.inj_xO.
    replace (2 * Pos.to_nat p)%nat with (Pos.to_nat p + Pos.to_nat p)%nat by lia.
    now rewrite Nat.iter_add.
  - reflexivity.
Qed.

Lemma shr_1_m (r : shr_record) : 0 <= shr_m r -> shr_m (shr_1 r) = shr_m r / 2.
Proof.
  destruct r as [m r s]. simpl. intro H.
  destruct m as [|[p|p|]|p]; simpl; try reflexivity; try lia.
  - rewrite Pos2Z.inj_xI. apply Z.div_unique with (r := 1); lia.
  - rewrite Pos2Z.inj_xO. apply Z.div_unique with (r := 0); lia.
Qed.

Lemma shr_iter_m (k : nat) (r : shr_record) :
  0 <= shr_m r -> shr_m (Nat.iter k shr_1 r) = shr_m r / 2 ^ Z.of_nat k.
Proof.
  intro H. induction k as [|k IH].
  - simpl. now rewrite Z.div_1_r.
  - rewrite Nat2Z.inj_succ, Z.pow_succ_r by lia. simpl Nat.iter.
    rewrite shr_1_m, IH.
    + rewrite Z.div_div by lia. f_equal. lia.
    + rewrite IH. apply Z.div_pos; lia.
Qed.


Lemma iter_xO_Z (p k : positive) : Zpos (Pos.iter xO p k) = Zpos p * 2 ^ Zpos k.
Proof.
  induction k as [|k IH] using Pos.peano_ind.
  - simpl. lia.
  - rewrite Pos.iter_succ, Pos2Z.inj_xO, IH, Pos2Z.inj_succ, Z.pow_succ_r by lia. lia.
Qed.

Lemma pow2_split (a b : Z) : 0 <= a -> 0 <= b -> 2 ^ (a + b) = 2 ^ a * 2 ^ b.
Proof. intros. now apply Z.pow_add_r. Qed.

(** [float(n)] for an [n] of at most 53 bits: the bits, shifted to the left. *)
Lemma of_int_small (p : positive) :
  Zpos (digits2_pos p) <= 53 ->
  exists m,
    of_int (Zpos p) = S754_finite false m (Zpos (digits2_pos p) - 53)
    /\ Zpos m = Zpos p * 2 ^ (53 - Zpos (digits2_pos p))
    /\ Zpos (digits2_pos m) = 53.
Proof.
  intro D. pose proof (digits2_bounds p) as [B1 B2].
  set (d := Zpos (digits2_pos p)) in *.
  assert (Hd : 1 <= d) by (subst d; lia).
  assert (S : exists m, shl_align p 0 (d - 53) = (m, d - 53)
                        /\ Zpos m = Zpos p * 2 ^ (53 - d)).
  { unfold shl_align. destruct (d - 53 - 0) as [|k|k] eqn:E; [|lia|].
    - exists p. replace (d - 53) with 0 by lia. replace (53 - d) with 0 by lia.
      split; [reflexivity | simpl; lia].
    - exists (Pos.iter xO p k). split; [reflexivity|].
      rewrite iter_xO_Z. f_equal. f_equal. lia. }
  destruct S as [m [S1 S2]]. exists m.
  assert (Dm : Zpos (digits2_pos m) = 53).
  { apply digits2_unique. rewrite S2.
    assert (E1 : 2 ^ (53 - 1) = 2 ^ (d - 1) * 2 ^ (53 - d)).
    { rewrite <- pow2_split by lia. f_equal. lia. }
    assert (E2 : 2 ^ 53 = 2 ^ d * 2 ^ (53 - d)).
    { rewrite <- pow2_split by lia. f_equal. lia. }
    assert (0 < 2 ^ (53 - d)) by (apply Z.pow_pos_nonneg; lia).
    rewrite E1, E2. split; [apply Z.mul_le_mono_nonneg_r | apply Z.mul_lt_mono_pos_r]; lia. }
  split; [|split; assumption].
  unfold of_int, binary_normalize, binary_round.
  rewrite Z.add_0_r. fold d. rewrite fexp_normal by lia. rewrite S1.
  apply round_canonical; [assumption | lia].
Qed.

Lemma shr_1_double (p : positive) :
  shr_1 {| shr_m := Zpos p~0; shr_r := false; shr_s := false |}
  = {| shr_m := Zpos p; shr_r := false; shr_s := false |}.
Proof. reflexivity. Qed.

(** The first shift of the rounding of an integer of more than 53 bits. *)
Lemma first_shift (p : positive) :
  54 <= Zpos (digits2_pos p) <= 1023 ->
  let s := Zpos (digits2_pos p) - 53 in
  let r1 := Nat.iter (Z.to_nat s) shr_1 {| shr_m := Zpos p; shr_r := false; shr_s := false |} in
  shr_fexp prec emax (Zpos p) 0 loc_Exact = (r1, s)
  /\ 2 ^ 52 <= shr_m r1 < 2 ^ 53.
Proof.
  intros D s r1. pose proof (digits2_bounds p) as [B1 B2].
  set (d := Zpos (digits2_pos p)) in *.
  split.
  - unfold shr_fexp. simpl Zdigits2. fold d. rewrite Z.add_0_r, fexp_normal by lia.
    rewrite Z.sub_0_r. fold s. unfold shr.
    destruct s as [|k|k] eqn:E; [lia| |lia].
    rewrite iter_pos_nat. subst r1. simpl Z.to_nat. reflexivity.
  - subst r1. rewrite shr_iter_m by (simpl; lia). simpl shr_m.
    rewrite Z2Nat.id by lia.
    assert (P : 0 < 2 ^ s) by (apply Z.pow_pos_nonneg; lia).
    assert (E1 : 2 ^ (d - 1) = 2 ^ 52 * 2 ^ s).
    { rewrite <- pow2_split by lia. f_equal. lia. }
    assert (E2 : 2 ^ d = 2 ^ 53 * 2 ^ s).
    { rewrite <- pow2_split by lia. f_equal. lia. }
    split.
    + apply Z.div_le_lower_bound; lia.
    + apply Z.div_lt_upper_bound; lia.
Qed.

(** The second shift and the end of the rounding, after a first shift that
    left 53 bits: the mantissa does not depend on the exponent [t]. *)
Lemma round_after_shift (sx : bool) (r1 : shr_record) :
  2 ^ 52 <= shr_m r1 < 2 ^ 53 ->
  exists m c,
    Zpos (digits2_pos m) = 53 /\ 0 <= c <= 1
    /\ forall t, 0 <= t <= 970 ->
         (let '(mrs'', e'') :=
            shr_fexp prec emax
              (round_nearest_even (shr_m r1) (loc_of_shr_record r1)) t loc_Exact in
          match shr_m mrs'' with
          | 0 => S754_zero sx
          | Zpos m0 =>
              if e'' <=? emax - prec then S754_finite sx m0 e'' else S754_infinity sx
          | Zneg _ => S754_nan
          end) = S754_finite sx m (t + c).
Proof.
  intro B. set (m2 := round_nearest_even (shr_m r1) (loc_of_shr_record r1)).
  assert (M : m2 = shr_m r1 \/ m2 = shr_m r1 + 1).
  { subst m2. unfold round_nearest_even.
    destruct (loc_of_shr_record r1) as [|[]]; try tauto.
    destruct (Z.even (shr_m r1)); tauto. }
  assert (R : 2 ^ 52 <= m2 <= 2 ^ 53) by lia.
  destruct (Z.eq_dec m2 (2 ^ 53)) as [E|N].
  - exists 4503599627370496%positive, 1. split; [reflexivity|]. split; [lia|].
    intros t Ht. rewrite E. unfold shr_fexp. simpl Zdigits2.
    rewrite fexp_normal by lia. replace (54 + t - 53 - t) with 1 by lia.
    simpl. destruct (Z.leb_spec (t + 1) 971); [reflexivity | lia].
  - destruct m2 as [|m|m] eqn:Em; [lia| |lia].
    assert (D : Zpos (digits2_pos m) = 53) by (apply digits2_unique; lia).
    exists m, 0. split; [assumption|]. split; [lia|].
    intros t Ht. rewrite shr_fexp_canonical by lia. cbn [shr_m].
    unfold emax, prec. rewrite Z.add_0_r.
    destruct (Z.leb_spec t (1024 - 53)); [reflexivity | lia].
Qed.

(** [float(n)] and [float(2 * n)] have one mantissa, of 53 bits, and
    exponents that differ by one. *)
Lemma of_int_double (p : positive) :
  Zpos (digits2_pos p) <= 1022 ->
  exists m e,
    of_int (Zpos p) = S754_finite false m e
    /\ of_int (Zpos p~0) = S754_finite false m (e + 1)
    /\ Zpos (digits2_pos m) = 53 /\ -52 <= e <= 970.
Proof.
  intro D. pose proof (digits2_bounds p) as [B1 B2].
  assert (D2 : Zpos (digits2_pos p~0) = Zpos (digits2_pos p) + 1)
    by (simpl digits2_pos; lia).
  set (d := Zpos (digits2_pos p)) in *.
  assert (Hd : 1 <= d) by (subst d; lia).
  destruct (Z.le_gt_cases d 52) as [L|L]; [|destruct (Z.eq_dec d 53) as [E|N]].
  - (* both have at most 53 bits *)
    destruct (of_int_small p) as [m [H1 [H2 H3]]]; [fold d; lia|].
    destruct (of_int_small p~0) as [m' [H1' [H2' H3']]]; [lia|].
    fold d in H1, H2. rewrite D2 in H1', H2'.
    assert (m' = m).
    { apply Pos2Z.inj. rewrite H2', H2, Pos2Z.inj_xO.
      replace (53 - d) with (Z.succ (53 - (d + 1))) by lia.
      rewrite Z.pow_succ_r by lia. lia. }
    subst m'. exists m, (d - 53). repeat split; try assumption; try lia.
    rewrite H1'. f_equal. lia.
  - (* 53 bits, and 54 for the double *)
    destruct (of_int_small p) as [m [H1 [H2 H3]]]; [fold d; lia|].
    fold d in H1, H2. rewrite E in H1, H2. simpl in H2.
    assert (m = p) by (apply Pos2Z.inj; lia). subst m.
    exists p, 0. repeat split; try assumption; try lia.
    unfold of_int, binary_normalize, binary_round.
    rewrite Z.add_0_r, D2, E, fexp_normal by lia.
    change (shl_align (xO p) 0 (53 + 1 - 53)) with (xO p, 0).
    unfold binary_round_aux.
    destruct (first_shift p~0) as [F _]; [lia|]. rewrite D2, E in F. simpl in F.
    rewrite F. cbn [shr_m loc_of_shr_record round_nearest_even].
    rewrite shr_fexp_canonical by lia. reflexivity.
  - (* more than 53 bits *)
    assert (G : 54 <= d) by lia.
    destruct (first_shift p) as [F B]; [fold d; lia|].
    destruct (first_shift p~0) as [F' _]; [lia|].
    fold d in F, B. rewrite D2 in F'.
    replace (Z.to_nat (d + 1 - 53)) with (Datatypes.S (Z.to_nat (d - 53))) in F' by lia.
    rewrite Nat.iter_succ_r, shr_1_double in F'.
    set (r1 := Nat.iter (Z.to_nat (d - 53)) shr_1
                 {| shr_m := Zpos p; shr_r := false; shr_s := false |}) in *.
    destruct (round_after_shift false r1 B) as [m [c [Dm [Hc R]]]].
    exists m, (d - 53 + c). repeat split; try assumption; try lia.
    + unfold of_int, binary_normalize, binary_round.
      rewrite Z.add_0_r. fold d. rewrite fexp_normal by lia.
      unfold shl_align. destruct (d - 53 - 0) as [|k|k] eqn:K; [lia| |lia].
      unfold binary_round_aux. rewrite F. apply R. lia.
    + unfold of_int, binary_normalize, binary_round.
      rewrite Z.add_0_r, D2, fexp_normal by lia.
      unfold shl_align. destruct (d + 1 - 53 - 0) as [|k|k] eqn:K; [lia| |lia].
      unfold binary_round_aux. rewrite F'.
      rewrite (R (d + 1 - 53)) by lia. f_equal. lia.
Qed.

Lemma shr_iter_exact (m k : positive) :
  Nat.iter (Pos.to_nat k) shr_1
    {| shr_m := Zpos (Pos.iter xO m k); shr_r := false; shr_s := false |}
  = {| shr_m := Zpos m; shr_r := false; shr_s := false |}.
Proof.
  induction k as [|k IH] using Pos.peano_ind.
  - reflexivity.
  - rewrite Pos.iter_succ, Pos2Nat.inj_succ, Nat.iter_succ_r, shr_1_double. exact IH.
Qed.

(** [2.0 * x] for an [x] of 53 bits. *)
Lemma mul_two (m : positive) (e : Z) :
  Zpos (digits2_pos m) = 53 -> -1073 <= e <= 970 ->
  mul f2_0 (S754_finite false m e) = S754_finite false m (e + 1).
Proof.
  intros D E. unfold mul, f2_0, SFmul.
  change (xorb false false) with false.
  change (Pos.mul 4503599627370496 m) with (Pos.iter xO m 52).
  pose proof (digits2_bounds m) as [B1 B2]. rewrite D in B1, B2.
  assert (V : Zpos (Pos.iter xO m 52) = Zpos m * 2 ^ 52) by apply iter_xO_Z.
  assert (DM : Zpos (digits2_pos (Pos.iter xO m 52)) = 105).
  { apply digits2_unique. rewrite V.
    change (2 ^ (105 - 1)) with (2 ^ (53 - 1) * 2 ^ 52).
    change (2 ^ 105) with (2 ^ 53 * 2 ^ 52).
    split; [apply Z.mul_le_mono_nonneg_r | apply Z.mul_lt_mono_pos_r]; lia. }
  unfold binary_round_aux.
  assert (F : shr_fexp prec emax (Zpos (Pos.iter xO m 52)) (-51 + e) loc_Exact
              = ({| shr_m := Zpos m; shr_r := false; shr_s := false |}, e + 1)).
  { unfold shr_fexp. cbn [Zdigits2]. rewrite DM, fexp_normal by lia.
    replace (105 + (-51 + e) - 53 - (-51 + e)) with 52 by lia.
    unfold shr. rewrite iter_pos_nat. cbn [shr_record_of_loc].
    rewrite shr_iter_exact. f_equal. lia. }
  rewrite F. cbn [shr_m loc_of_shr_record round_nearest_even].
  rewrite shr_fexp_canonical by lia. cbn [shr_m].
  unfold emax, prec.
  destruct (Z.leb_spec (e + 1) (1024 - 53)); [reflexivity | lia].
Qed.

(** [x / x] for a finite [x]. *)
Lemma div_self (s : bool) (m : positive) (e : Z) :
  div (S754_finite s m e) (S754_finite s m e) = f1_0.
Proof.
  unfold div, SFdiv, SFdiv_core_binary.
  replace (Zdigits2 (Zpos m) + e - (Zdigits2 (Zpos m) + e)) with 0 by lia.
  rewrite Z.sub_diag.
  change (Z.min (fexp prec emax 0) 0) with (-53).
  change (0 - -53) with 53.
  cbv iota beta.
  assert (Q : Z.div_eucl (Z.shiftl (Zpos m) 53) (Zpos m) = (2 ^ 53, 0)).
  { rewrite Z.shiftl_mul_pow2 by lia.
    pose proof (Z.div_mul (2 ^ 53) (Zpos m)) as Hq.
    pose proof (Z.mod_mul (2 ^ 53) (Zpos m)) as Hr.
    unfold Z.div, Z.modulo in Hq, Hr.
    rewrite (Z.mul_comm (Zpos m)).
    destruct (Z.div_eucl (2 ^ 53 * Zpos m) (Zpos m)) as [q r].
    rewrite Hq, Hr by lia. reflexivity. }
  rewrite Q.
  assert (L : new_location (Zpos m) 0 = loc_Exact).
  { unfold new_location. destruct (Z.even (Zpos m)); reflexivity. }
  rewrite L. now destruct s.
Qed.

(** [2.0 * n / (n + n)] is [1.0]. *)
Lemma ratio_of_all (n : Z) : 0 < n < 2 ^ 1021 -> div (mul f2_0 (of_int n)) (of_int (n + n)) = f1_0.
Proof.
  intros [H1 H2]. destruct n as [|p|p]; [lia| |lia].
  assert (D : Zpos (digits2_pos p) <= 1022).
  { pose proof (digits2_bounds p) as [B1 _].
    destruct (Z.le_gt_cases (Zpos (digits2_pos p)) 1022) as [L|L]; [assumption|].
    assert (2 ^ 1021 <= 2 ^ (Zpos (digits2_pos p) - 1)) by (apply Z.pow_le_mono_r; lia).
    lia. }
  destruct (of_int_double p D) as [m [e [E1 [E2 [Dm He]]]]].
  replace (Zpos p + Zpos p) with (Zpos p~0) by lia.
  rewrite E1, E2, mul_two by (assumption || lia). apply div_self.
Qed.

End RoundFacts.

(* ################################################################# *)
(** * Facts about SequenceMatcher *)

Module IndexFacts.
Import Difflib Props.

Lemma ascii_eqb_eq : forall x y : ascii, Ascii.eqb x y = true <-> x = y.
Proof. exact Ascii.eqb_eq. Qed.

Lemma positions_bounds (x : ascii) (s : list ascii) (i j : Z) :
  In j (positions x s i) ->
  i <= j < i + len s /\ nth_error s (Z.to_nat (j - i)) = Some x.
Proof.
  revert i. induction s as [|y r IH]; intros i H; simpl in H; [destruct H|].
  unfold len in *. simpl List.length. rewrite Nat2Z.inj_succ.
  assert (T : In j (positions x r (i + 1)) ->
              i <= j < i + Z.succ (Z.of_nat (List.length r))
              /\ nth_error (y :: r) (Z.to_nat (j - i)) = Some x).
  { intro Hj. destruct (IH _ Hj) as [B N]. split; [lia|].
    replace (Z.to_nat (j - i)) with (Datatypes.S (Z.to_nat (j - (i + 1)))) by lia.
    exact N. }
  destruct (Ascii.eqb x y) eqn:E; [|now apply T].
  destruct H as [<-|H]; [|now apply T].
  apply Ascii.eqb_eq in E. subst y. split; [lia|].
  now rewrite Z.sub_diag.
Qed.

Lemma positions_complete (x : ascii) (s : list ascii) (i j : Z) :
  i <= j -> nth_error s (Z.to_nat (j - i)) = Some x -> In j (positions x s i).
Proof.
  revert i. induction s as [|y r IH]; intros i L N.
  - destruct (Z.to_nat (j - i)); discriminate.
  - simpl. destruct (Z.eq_dec j i) as [->|Ne].
    + rewrite Z.sub_diag in N. injection N as ->. rewrite Ascii.eqb_refl. now left.
    + assert (In j (positions x r (i + 1))).
      { apply IH; [lia|].
        replace (Z.to_nat (j - i)) with (Datatypes.S (Z.to_nat (j - (i + 1)))) in N by lia.
        exact N. }
      destruct (Ascii.eqb x y); [now right | assumption].
Qed.

(** After a position come greater positions only. *)
Lemma positions_sorted (x : ascii) (s : list ascii) (i : Z) :
  forall l1 j l2, positions x s i = l1 ++ j :: l2 -> forall k, In k l2 -> j < k.
Proof.
  revert i. induction s as [|y r IH]; intros i l1 j l2 E k Hk; simpl in E.
  - destruct l1; discriminate.
  - destruct (Ascii.eqb x y).
    + destruct l1 as [|h l1]; simpl in E.
      * injection E as <- <-. apply positions_bounds in Hk. lia.
      * injection E as _ E. now apply (IH _ _ _ _ E).
    + now apply (IH _ _ _ _ E).
Qed.


Lemma index_fold (x : ascii) (s : list ascii) :
  forall (i : Z) (d : PyDict.dict ascii (list Z)),
    PyDict.get Ascii.eqb (fold_left index_step (enumerate i s) d) x
    = match positions x s i with
      | [] => PyDict.get Ascii.eqb d x
      | ps => Some (PyDict.get_default Ascii.eqb d x [] ++ ps)
      end.
Proof.
  induction s as [|y r IH]; intros i d; [reflexivity|].
  simpl. rewrite IH. clear IH.
  set (d' := PyDict.set Ascii.eqb d y (PyDict.get_default Ascii.eqb d y [] ++ [i])).
  destruct (Ascii.eqb x y) eqn:E.
  - apply Ascii.eqb_eq in E. subst y.
    assert (G : PyDict.get Ascii.eqb d' x = Some (PyDict.get_default Ascii.eqb d x [] ++ [i]))
      by apply (PyDictFacts.get_set_same Ascii.eqb ascii_eqb_eq).
    unfold PyDict.get_default at 1. rewrite G.
    destruct (positions x r (i + 1)); [reflexivity|].
    now rewrite <- app_assoc.
  - assert (N : x <> y) by (intros ->; rewrite Ascii.eqb_refl in E; discriminate).
    assert (G : PyDict.get Ascii.eqb d' x = PyDict.get Ascii.eqb d x)
      by now apply (PyDictFacts.get_set_other Ascii.eqb ascii_eqb_eq).
    unfold PyDict.get_default. now rewrite G.
Qed.

Lemma index_elements_get (x : ascii) (s : list ascii) :
  PyDict.get Ascii.eqb (index_elements s) x
  = match positions x s 0 with [] => None | ps => Some ps end.
Proof. exact (index_fold x s 0 []). Qed.

Lemma index_elements_NoDup (s : list ascii) : NoDup (PyDict.keys (index_elements s)).
Proof.
  unfold index_elements. generalize (enumerate 0 s). intro l.
  assert (G : forall d : PyDict.dict ascii (list Z),
             NoDup (PyDict.keys d) -> NoDup (PyDict.keys (fold_left index_step l d))).
  { induction l as [|[i elt] r IH]; intros d H; [assumption|].
    simpl. apply IH.
    apply PyDictFacts.NoDup_keys_set; [apply ascii_eqb_eq | assumption]. }
  apply (G []). constructor.
Qed.

Lemma get_fold_del (popular : list ascii) :
  forall (d : PyDict.dict ascii (list Z)) (x : ascii),
    NoDup (PyDict.keys d) ->
    PyDict.get Ascii.eqb (fold_left (PyDict.del Ascii.eqb) popular d) x = None
    \/ PyDict.get Ascii.eqb (fold_left (PyDict.del Ascii.eqb) popular d) x
       = PyDict.get Ascii.eqb d x.
Proof.
  induction popular as [|k r IH]; intros d x H; [now right|].
  simpl.
  destruct (IH (PyDict.del Ascii.eqb d k) x) as [E|E];
    [now apply PyDictFacts.NoDup_keys_del | now left |].
  rewrite E, (PyDictFacts.get_del Ascii.eqb ascii_eqb_eq) by assumption.
  destruct (Ascii.eqb x k); [now left | now right].
Qed.

(** What [b2j] holds for an element is the list of its positions in [b];
    a popular element is not in [b2j]. *)
Lemma b2j_lookup (sa sb : list ascii) (x : ascii) :
  match PyDict.get Ascii.eqb (b2j (new sa sb)) x with
  | None => True
  | Some js => js = positions x sb 0
  end.
Proof.
  unfold new, chain_b.
  destruct (200 <=? len sb); simpl.
  - destruct (get_fold_del
                (map fst
                   (filter (fun '(_, idxs) => len idxs >? len sb / 100 + 1)
                      (index_elements sb)))
                (index_elements sb) x (index_elements_NoDup sb)) as [E|E];
      rewrite E; [exact I|].
    rewrite index_elements_get. now destruct (positions x sb 0).
  - rewrite index_elements_get. now destruct (positions x sb 0).
Qed.

Lemma new_fields (sa sb : list ascii) :
  a (new sa sb) = sa /\ b (new sa sb) = sb /\ bjunk (new sa sb) = [].
Proof. unfold new, chain_b. destruct (200 <=? len sb); simpl; auto. Qed.

End IndexFacts.

Module EqualFacts.
Import Difflib Props IndexFacts.

Lemma z_eqb_eq : forall x y : Z, Z.eqb x y = true <-> x = y.
Proof. exact Z.eqb_eq. Qed.

Lemma get_set_z (d : PyDict.dict Z Z) (k v j : Z) :
  PyDict.get Z.eqb (PyDict.set Z.eqb d k v) j
  = if Z.eqb j k then Some v else PyDict.get Z.eqb d j.
Proof.
  destruct (Z.eqb_spec j k) as [->|N].
  - apply (PyDictFacts.get_set_same Z.eqb z_eqb_eq).
  - now apply (PyDictFacts.get_set_other Z.eqb z_eqb_eq).
Qed.

Section Equal.
Variable s : list ascii.
Let sm := new s s.
Let n := len s.

Lemma run_bounds (m : nat) : 0 <= run sm s m <= Z.of_nat m.
Proof.
  induction m as [|m IH]; simpl; [lia|].
  destruct (nth_error s m) as [x|]; [|lia].
  destruct (PyDict.has Ascii.eqb (b2j sm) x); lia.
Qed.

(** One row of the scan, on an element that is in [b2j]. *)
Lemma scan_row_equal (m : nat) (x : ascii) (j2len : PyDict.dict Z Z) :
  nth_error s m = Some x ->
  PyDict.has Ascii.eqb (b2j sm) x = true ->
  (forall j v, PyDict.get Z.eqb j2len j = Some v ->
               0 <= j /\ v <= run sm s (Z.to_nat (j + 1)) /\ v <= run sm s m) ->
  PyDict.get_default Z.eqb j2len (Z.of_nat m - 1) 0 = run sm s m ->
  forall (rest pre : list Z) (newj2len : PyDict.dict Z Z) (besti bestsize : Z),
    positions x s 0 = pre ++ rest ->
    0 <= besti -> 0 <= bestsize -> besti + bestsize <= Z.of_nat m + 1 ->
    (forall j v, PyDict.get Z.eqb newj2len j = Some v ->
                 0 <= j /\ v <= run sm s (Z.to_nat (j + 1)) /\ v <= run sm s (S m)) ->
    (forall j, (j <= m)%nat -> run sm s j <= bestsize) ->
    (In (Z.of_nat m) rest
     \/ (PyDict.get Z.eqb newj2len (Z.of_nat m) = Some (run sm s (S m))
         /\ run sm s (S m) <= bestsize)) ->
    diagonal sm s (S m)
      (scan_row 0 n (Z.of_nat m) j2len rest newj2len (besti, besti, bestsize)).
Proof.
  intros Hx Hhas Hold Hdiag.
  assert (Rm : run sm s (S m) = run sm s m + 1) by (simpl; now rewrite Hx, Hhas).
  induction rest as [|j rest IH];
    intros pre newj2len besti bestsize Hpos Hbi Hbk Hsum Hnew Hruns Hi.
  - destruct Hi as [[]|[Hi1 Hi2]]. cbn [scan_row]. unfold diagonal.
    replace (Z.of_nat (S m) - 1) with (Z.of_nat m) by lia.
    split; [reflexivity|]. split; [assumption|]. split; [assumption|].
    split; [lia|]. split; [assumption|]. split.
    + unfold PyDict.get_default. now rewrite Hi1.
    + intros j Hj. destruct (Nat.eq_dec j (S m)) as [->|]; [assumption|].
      apply Hruns. lia.
  - assert (Hj : In j (positions x s 0)) by (rewrite Hpos; apply in_or_app; right; now left).
    apply positions_bounds in Hj. destruct Hj as [Bj Nj].
    rewrite Z.sub_0_r in Nj. fold n in Bj.
    assert (Rj : run sm s (Z.to_nat (j + 1)) = run sm s (Z.to_nat j) + 1).
    { replace (Z.to_nat (j + 1)) with (S (Z.to_nat j)) by lia.
      simpl. now rewrite Nj, Hhas. }
    set (k := PyDict.get_default Z.eqb j2len (j - 1) 0 + 1).
    assert (Kj : k <= run sm s (Z.to_nat (j + 1)) /\ k <= run sm s (S m)).
    { subst k. unfold PyDict.get_default.
      destruct (PyDict.get Z.eqb j2len (j - 1)) as [v|] eqn:G.
      - destruct (Hold _ _ G) as [G0 [G1 G2]].
        replace (j - 1 + 1) with j in G1 by lia. lia.
      - pose proof (run_bounds (Z.to_nat j)). pose proof (run_bounds m). lia. }
    assert (Ki : j = Z.of_nat m -> k = run sm s (S m)).
    { intros ->. subst k. rewrite Hdiag. lia. }
    assert (Hsorted : forall i, In i rest -> j < i)
      by (intros i Hin; now apply (positions_sorted x s 0 pre j rest Hpos)).
    assert (Hpos' : positions x s 0 = (pre ++ [j]) ++ rest)
      by (rewrite <- app_assoc; exact Hpos).
    assert (Hnew' : forall j0 v,
               PyDict.get Z.eqb (PyDict.set Z.eqb newj2len j k) j0 = Some v ->
               0 <= j0 /\ v <= run sm s (Z.to_nat (j0 + 1)) /\ v <= run sm s (S m)).
    { intros j0 v. rewrite get_set_z. destruct (Z.eqb_spec j0 j) as [->|].
      - intros [= <-]. lia.
      - apply Hnew. }
    cbn [scan_row].
    destruct (Z.ltb_spec j 0) as [|_]; [lia|].
    destruct (Z.geb_spec j n) as [|_]; [lia|].
    fold k. cbv zeta.
    destruct (Z.gtb_spec k bestsize) as [G|G].
    + (* a longer block: only on the diagonal *)
      assert (E : j = Z.of_nat m).
      { destruct (Z.lt_trichotomy j (Z.of_nat m)) as [L|[E|L]]; [|assumption|]; exfalso.
        - assert (R : run sm s (Z.to_nat (j + 1)) <= bestsize) by (apply Hruns; lia). lia.
        - destruct Hi as [[Hi|Hi]|[_ Hi]]; [lia | apply Hsorted in Hi; lia | lia]. }
      specialize (Ki E). subst j.
      pose proof (run_bounds (S m)) as RB.
      apply (IH (pre ++ [Z.of_nat m])); try assumption; try lia.
      * intros j Hj. specialize (Hruns j Hj). lia.
      * right. rewrite get_set_z, Z.eqb_refl. split; [now rewrite Ki | lia].
    + apply (IH (pre ++ [j])); try assumption.
      destruct (Z.eq_dec j (Z.of_nat m)) as [E|N].
      * right. specialize (Ki E). subst j. rewrite get_set_z, Z.eqb_refl.
        split; [now rewrite Ki | lia].
      * destruct Hi as [[Hi|Hi]|[Hi1 Hi2]]; [contradiction | now left | right].
        rewrite get_set_z. destruct (Z.eqb_spec (Z.of_nat m) j); [lia | now split].
Qed.

Lemma getitem_nat (m : nat) : getitem s (Z.of_nat m) = nth_error s m.
Proof.
  unfold getitem. destruct (Z.ltb_spec (Z.of_nat m) 0); [lia|]. now rewrite Nat2Z.id.
Qed.

(** One step of the loop over the rows. *)
Lemma scan_step_equal (m : nat) (vars : PyDict.dict Z Z * Match) :
  (m < List.length s)%nat ->
  diagonal sm s m vars -> diagonal sm s (S m) (scan_step sm 0 n vars (Z.of_nat m)).
Proof.
  intros Hm. destruct vars as [j2len [[besti bestj] bestsize]].
  intros [-> [Hbi [Hbk [Hsum [Hold [Hdiag Hruns]]]]]].
  unfold scan_step.
  replace (a sm) with s by (symmetry; apply new_fields).
  rewrite getitem_nat.
  destruct (nth_error s m) as [x|] eqn:Hx; [|apply nth_error_None in Hx; lia].
  pose proof (b2j_lookup s s x) as L. fold sm in L.
  unfold PyDict.get_default.
  destruct (PyDict.get Ascii.eqb (b2j sm) x) as [js|] eqn:G.
  - subst js. replace (b (new s s)) with s in * by (symmetry; apply new_fields).
    apply (scan_row_equal m x j2len Hx) with (pre := []); try assumption; try lia.
    + unfold PyDict.has. now rewrite G.
    + reflexivity.
    + intros j v H. discriminate H.
    + left. apply positions_complete; [lia|]. now rewrite Z.sub_0_r, Nat2Z.id.
  - assert (R : run sm s (S m) = 0).
    { simpl. rewrite Hx. unfold PyDict.has. now rewrite G. }
    cbn [scan_row]. unfold diagonal.
    split; [reflexivity|]. split; [assumption|]. split; [assumption|].
    split; [lia|]. split; [intros j v H; discriminate H|]. split.
    + rewrite R. reflexivity.
    + intros j Hj. destruct (Nat.eq_dec j (S m)) as [->|]; [lia|]. apply Hruns. lia.
Qed.

Lemma range_succ (m : nat) :
  range 0 (Z.of_nat (S m)) = range 0 (Z.of_nat m) ++ [Z.of_nat m].
Proof.
  unfold range. rewrite !Z.sub_0_r, !Nat2Z.id, seq_S, map_app. reflexivity.
Qed.

(** The loop over the rows of a sequence against itself. *)
Lemma scan_rows_equal (m : nat) :
  (m <= List.length s)%nat ->
  diagonal sm s m (scan_rows sm 0 0 n (range 0 (Z.of_nat m))).
Proof.
  induction m as [|m IH]; intro Hm.
  - unfold scan_rows, range, diagonal. cbn [Z.of_nat Z.sub Z.to_nat seq map fold_left].
    split; [reflexivity|]. split; [lia|]. split; [lia|]. split; [lia|].
    split; [intros j v H; discriminate H|]. split; [reflexivity|].
    intros j Hj. replace j with 0%nat by lia. simpl. lia.
  - unfold scan_rows in *. rewrite range_succ, fold_left_app. simpl.
    apply scan_step_equal; [lia | apply IH; lia].
Qed.

End Equal.
End EqualFacts.

Module RatioFacts.
Import Difflib Props IndexFacts EqualFacts.

Lemma matching_loop_done (sm : SequenceMatcher) (fuel : nat) (blocks : list Match) :
  matching_loop sm fuel [] blocks = Some blocks.
Proof. now destruct fuel. Qed.

Lemma isbjunk_new (sa sb : list ascii) (x : option ascii) : isbjunk (new sa sb) x = false.
Proof.
  unfold isbjunk. destruct x; [|reflexivity].
  now rewrite (proj2 (proj2 (new_fields sa sb))).
Qed.

Section Equal.
Variable s : list ascii.
Let sm := new s s.
Let n := len s.

Lemma getitem_same (d : nat) :
  (d < List.length s)%nat ->
  elt_eqb (getitem (a sm) (Z.of_nat d)) (getitem (b sm) (Z.of_nat d)) = true.
Proof.
  intro H. subst sm.
  rewrite (proj1 (new_fields s s)), (proj1 (proj2 (new_fields s s))), getitem_nat.
  destruct (nth_error s d) as [c|] eqn:E; [|apply nth_error_None in E; lia].
  apply Ascii.eqb_refl.
Qed.

Lemma extend_left_equal (d : nat) :
  forall k : Z,
    (d <= List.length s)%nat ->
    extend_left sm 0 0 false d (Z.of_nat d, Z.of_nat d, k) = (0, 0, k + Z.of_nat d).
Proof.
  induction d as [|d IH]; intros k H.
  - cbn [extend_left Z.of_nat]. now rewrite Z.add_0_r.
  - cbn [extend_left].
    replace (Z.of_nat (S d) - 1) with (Z.of_nat d) by lia.
    unfold sm at 1. rewrite isbjunk_new. fold sm.
    rewrite getitem_same by lia.
    destruct (Z.gtb_spec (Z.of_nat (S d)) 0) as [_|]; [|lia].
    cbn [andb Bool.eqb]. rewrite IH by lia. f_equal. lia.
Qed.

Lemma extend_right_equal (r : nat) :
  forall k : Z,
    0 <= k -> k + Z.of_nat r = n ->
    extend_right sm n n false r (0, 0, k) = (0, 0, n).
Proof.
  induction r as [|r IH]; intros k Hk H.
  - cbn [extend_right]. f_equal. simpl in H. lia.
  - cbn [extend_right]. rewrite !Z.add_0_l.
    unfold sm at 1. rewrite isbjunk_new. fold sm.
    replace k with (Z.of_nat (Z.to_nat k)) at 3 4 by lia.
    rewrite getitem_same by (unfold n, len in H; lia).
    destruct (Z.ltb_spec k n) as [_|]; [|lia].
    cbn [andb Bool.eqb]. apply IH; lia.
Qed.

(** The longest block of a sequence and itself is the whole sequence. *)
Lemma find_longest_match_equal : find_longest_match sm 0 n 0 n = (0, 0, n).
Proof.
  unfold find_longest_match.
  pose proof (scan_rows_equal s (List.length s) (le_n _)) as D.
  change (diagonal sm s (List.length s) (scan_rows sm 0 0 n (range 0 n))) in D.
  destruct (scan_rows sm 0 0 n (range 0 n)) as [j2len [[besti bestj] bestsize]].
  unfold diagonal in D. destruct D as [<- [Hi [Hk [Hsum _]]]]. cbn [snd].
  change (left_room 0 (besti, besti, bestsize)) with (Z.to_nat (besti - 0)).
  rewrite Z.sub_0_r.
  replace (besti, besti, bestsize)
    with (Z.of_nat (Z.to_nat besti), Z.of_nat (Z.to_nat besti), bestsize)
    by (rewrite Z2Nat.id by lia; reflexivity).
  rewrite (extend_left_equal (Z.to_nat besti) bestsize) by lia.
  rewrite Z2Nat.id by lia.
  change (right_room n (0, 0, bestsize + besti))
    with (Z.to_nat (n - (0 + (bestsize + besti)))).
  rewrite (extend_right_equal (Z.to_nat (n - (0 + (bestsize + besti))))
             (bestsize + besti)) by (unfold n, len in *; lia).
  change (left_room 0 (0, 0, n)) with (Z.to_nat (0 - 0)).
  replace (Z.to_nat (0 - 0)) with 0%nat by lia. cbn [extend_left].
  change (right_room n (0, 0, n)) with (Z.to_nat (n - (0 + n))).
  replace (Z.to_nat (n - (0 + n))) with 0%nat by lia.
  reflexivity.
Qed.

Lemma matching_blocks_equal : 0 < n -> get_matching_blocks sm = [(0, 0, n); (n, n, 0)].
Proof.
  intro H. unfold get_matching_blocks, enough_fuel.
  replace (len (a sm)) with n by (unfold sm; now rewrite (proj1 (new_fields s s))).
  replace (len (b sm)) with n by (unfold sm; now rewrite (proj1 (proj2 (new_fields s s)))).
  cbn [matching_loop]. rewrite find_longest_match_equal.
  destruct (Z.eqb_spec n 0) as [|_]; [lia|].
  rewrite Z.ltb_irrefl. cbn [andb].
  destruct (Z.ltb_spec (0 + n) n) as [|_]; [lia|]. cbn [andb].
  rewrite matching_loop_done. cbn [rev app sort fold_left insert_sorted].
  unfold collapse. cbn [fold_left]. rewrite !Z.add_0_l, Z.eqb_refl. cbn [andb].
  destruct (Z.eqb_spec n 0) as [|_]; [lia|]. reflexivity.
Qed.

(** The ratio of a sequence and itself is 1.0. *)
Lemma ratio_equal : n < 2 ^ 1021 -> ratio sm = PyFloat.f1_0.
Proof.
  intro H. unfold ratio.
  replace (len (a sm)) with n by (unfold sm; now rewrite (proj1 (new_fields s s))).
  replace (len (b sm)) with n by (unfold sm; now rewrite (proj1 (proj2 (new_fields s s)))).
  assert (N : 0 <= n) by (unfold n, len; lia).
  destruct (Z.eq_dec n 0) as [E|E].
  - unfold calculate_ratio. now rewrite E.
  - rewrite matching_blocks_equal by lia. unfold sum_sizes. cbn [fold_left].
    rewrite !Z.add_0_l, Z.add_0_r. unfold calculate_ratio.
    destruct (Z.eqb_spec (n + n) 0) as [|_]; [lia|].
    apply RoundFacts.ratio_of_all. lia.
Qed.

End Equal.

(** ** An empty sequence *)

Lemma matches_empty_left (s : list ascii) :
  sum_sizes (get_matching_blocks (new [] s)) = 0.
Proof.
  unfold get_matching_blocks, enough_fuel.
  rewrite (proj1 (new_fields [] s)), (proj1 (proj2 (new_fields [] s))).
  reflexivity.
Qed.

Lemma scan_rows_no_index (sm : SequenceMatcher) (alo blo bhi : Z) (rows : list Z) :
  b2j sm = [] -> scan_rows sm alo blo bhi rows = ([], (alo, blo, 0)).
Proof.
  intro H. unfold scan_rows.
  induction rows as [|i r IH] using rev_ind; [reflexivity|].
  rewrite fold_left_app, IH. cbn [fold_left]. unfold scan_step. rewrite H.
  now destruct (getitem (a sm) i).
Qed.

Lemma extend_left_stuck (sm : SequenceMatcher) (alo blo : Z) (junk : bool) (r : nat)
    (bestj bestsize : Z) :
  extend_left sm alo blo junk r (alo, bestj, bestsize) = (alo, bestj, bestsize).
Proof.
  destruct r as [|r]; [reflexivity|]. cbn [extend_left].
  now rewrite Z.gtb_ltb, Z.ltb_irrefl.
Qed.

Lemma extend_right_stuck (sm : SequenceMatcher) (ahi : Z) (junk : bool) (r : nat)
    (besti : Z) :
  extend_right sm ahi 0 junk r (besti, 0, 0) = (besti, 0, 0).
Proof.
  destruct r as [|r]; [reflexivity|]. cbn [extend_right].
  change (0 + 0 <? 0) with false. now rewrite andb_false_r.
Qed.

Lemma find_longest_match_no_index (sm : SequenceMatcher) (alo ahi : Z) :
  b2j sm = [] -> find_longest_match sm alo ahi 0 0 = (alo, 0, 0).
Proof.
  intro H. unfold find_longest_match. rewrite scan_rows_no_index by assumption.
  cbn [snd].
  now rewrite !extend_left_stuck, !extend_right_stuck, !extend_left_stuck,
    !extend_right_stuck.
Qed.

Lemma matches_empty_right (s : list ascii) :
  sum_sizes (get_matching_blocks (new s [])) = 0.
Proof.
  unfold get_matching_blocks, enough_fuel.
  change (new s []) with {| a := s; b := []; b2j := []; bjunk := []; bpopular := [] |}.
  cbn [a b matching_loop]. change (len []) with 0.
  rewrite find_longest_match_no_index by reflexivity.
  cbn [Z.eqb]. rewrite matching_loop_done. reflexivity.
Qed.

End RatioFacts.

Module TerminationFacts.
Import Difflib Props EqualFacts.

Section Bounds.
Variable sm : SequenceMatcher.
Variables alo ahi blo bhi : Z.

Lemma scan_row_inside (m : nat) (j2len : PyDict.dict Z Z) :
  (forall j v, PyDict.get Z.eqb j2len j = Some v -> v <= Z.of_nat m) ->
  forall (js : list Z) (newj2len : PyDict.dict Z Z) (besti bestj bestsize : Z),
    alo <= besti -> 0 <= bestsize -> besti + bestsize <= alo + Z.of_nat (S m) ->
    (forall j v, PyDict.get Z.eqb newj2len j = Some v -> v <= Z.of_nat (S m)) ->
    inside alo (S m)
      (scan_row blo bhi (alo + Z.of_nat m) j2len js newj2len (besti, bestj, bestsize)).
Proof.
  intro Hold.
  induction js as [|j js IH]; intros newj2len besti bestj bestsize Hi Hk Hsum Hnew.
  - cbn [scan_row]. unfold inside. auto.
  - cbn [scan_row].
    destruct (j <? blo); [now apply IH|].
    destruct (j >=? bhi); [unfold inside; auto|].
    set (k := PyDict.get_default Z.eqb j2len (j - 1) 0 + 1).
    assert (K : k <= Z.of_nat (S m)).
    { subst k. unfold PyDict.get_default.
      destruct (PyDict.get Z.eqb j2len (j - 1)) as [v|] eqn:G; [|lia].
      specialize (Hold _ _ G). lia. }
    cbv zeta.
    assert (Hnew' : forall j0 v,
               PyDict.get Z.eqb (PyDict.set Z.eqb newj2len j k) j0 = Some v ->
               v <= Z.of_nat (S m)).
    { intros j0 v. rewrite get_set_z. destruct (Z.eqb j0 j).
      - intros [= <-]. exact K.
      - apply Hnew. }
    destruct (Z.gtb_spec k bestsize); apply IH; try assumption; lia.
Qed.

Lemma scan_step_inside (m : nat) (vars : PyDict.dict Z Z * Match) :
  inside alo m vars -> inside alo (S m) (scan_step sm blo bhi vars (alo + Z.of_nat m)).
Proof.
  destruct vars as [j2len [[besti bestj] bestsize]].
  intros [Hi [Hk [Hsum Hold]]]. unfold scan_step.
  apply scan_row_inside; try assumption; try lia.
  intros j v H. discriminate H.
Qed.

Lemma range_from_succ (m : nat) :
  range alo (alo + Z.of_nat (S m)) = range alo (alo + Z.of_nat m) ++ [alo + Z.of_nat m].
Proof.
  unfold range.
  replace (Z.to_nat (alo + Z.of_nat (S m) - alo)) with (S m) by lia.
  replace (Z.to_nat (alo + Z.of_nat m - alo)) with m by lia.
  now rewrite seq_S, map_app.
Qed.

Lemma scan_rows_inside (m : nat) :
  inside alo m (scan_rows sm alo blo bhi (range alo (alo + Z.of_nat m))).
Proof.
  induction m as [|m IH].
  - unfold scan_rows, range. replace (Z.to_nat (alo + Z.of_nat 0 - alo)) with 0%nat by lia.
    cbn [seq map fold_left]. unfold inside. repeat split; try lia.
    intros j v H. discriminate H.
  - unfold scan_rows in *. rewrite range_from_succ, fold_left_app. cbn [fold_left].
    now apply scan_step_inside.
Qed.

(** The loops that extend the block keep it in the range, and they stop
    because their condition fails, not for want of iterations. *)
Lemma extend_left_inside (junk : bool) (r : nat) :
  forall besti bestj bestsize : Z,
    alo <= besti ->
    let '(i, j, k) := extend_left sm alo blo junk r (besti, bestj, bestsize) in
    alo <= i /\ bestsize <= k /\ i + k = besti + bestsize.
Proof.
  induction r as [|r IH]; intros besti bestj bestsize H; cbn [extend_left]; [lia|].
  destruct (Z.gtb_spec besti alo) as [G|G]; cbn [andb]; [|lia].
  destruct (_ && _); [|lia].
  specialize (IH (besti - 1) (bestj - 1) (bestsize + 1)).
  destruct (extend_left sm alo blo junk r (besti - 1, bestj - 1, bestsize + 1))
    as [[i j] k].
  lia.
Qed.

Lemma extend_right_inside (junk : bool) (r : nat) :
  forall besti bestj bestsize : Z,
    besti + bestsize <= ahi ->
    let '(i, j, k) := extend_right sm ahi bhi junk r (besti, bestj, bestsize) in
    i = besti /\ bestsize <= k /\ i + k <= ahi.
Proof.
  induction r as [|r IH]; intros besti bestj bestsize H; cbn [extend_right]; [lia|].
  destruct (Z.ltb_spec (besti + bestsize) ahi) as [G|G]; cbn [andb]; [|lia].
  destruct (_ && _); [|lia].
  specialize (IH besti bestj (bestsize + 1)).
  destruct (extend_right sm ahi bhi junk r (besti, bestj, bestsize + 1)) as [[i j] k].
  lia.
Qed.

Lemma extend_left_complete (junk : bool) (r : nat) :
  forall besti bestj bestsize : Z,
    (Z.to_nat (besti - alo) <= r)%nat ->
    let '(i, j, k) := extend_left sm alo blo junk r (besti, bestj, bestsize) in
    (i >? alo) && (j >? blo)
    && Bool.eqb (isbjunk sm (getitem (b sm) (j - 1))) junk
    && elt_eqb (getitem (a sm) (i - 1)) (getitem (b sm) (j - 1)) = false.
Proof.
  induction r as [|r IH]; intros besti bestj bestsize H; cbn [extend_left].
  - destruct (Z.gtb_spec besti alo); [lia | reflexivity].
  - destruct ((besti >? alo) && (bestj >? blo)
              && Bool.eqb (isbjunk sm (getitem (b sm) (bestj - 1))) junk
              && elt_eqb (getitem (a sm) (besti - 1)) (getitem (b sm) (bestj - 1))) eqn:E;
      [|exact E].
    apply IH. lia.
Qed.

Lemma extend_right_complete (junk : bool) (r : nat) :
  forall besti bestj bestsize : Z,
    (Z.to_nat (ahi - (besti + bestsize)) <= r)%nat ->
    let '(i, j, k) := extend_right sm ahi bhi junk r (besti, bestj, bestsize) in
    (i + k <? ahi) && (j + k <? bhi)
    && Bool.eqb (isbjunk sm (getitem (b sm) (j + k))) junk
    && elt_eqb (getitem (a sm) (i + k)) (getitem (b sm) (j + k)) = false.
Proof.
  induction r as [|r IH]; intros besti bestj bestsize H; cbn [extend_right].
  - destruct (Z.ltb_spec (besti + bestsize) ahi); [lia | reflexivity].
  - destruct ((besti + bestsize <? ahi) && (bestj + bestsize <? bhi)
              && Bool.eqb (isbjunk sm (getitem (b sm) (bestj + bestsize))) junk
              && elt_eqb (getitem (a sm) (besti + bestsize))
                   (getitem (b sm) (bestj + bestsize))) eqn:E;
      [|exact E].
    apply IH. lia.
Qed.

(** The block found lies in the range of [a] that was searched. *)
Lemma find_longest_match_inside :
  alo <= ahi ->
  let '(i, j, k) := find_longest_match sm alo ahi blo bhi in
  alo <= i /\ 0 <= k /\ i + k <= ahi.
Proof.
  intro H. unfold find_longest_match.
  pose proof (scan_rows_inside (Z.to_nat (ahi - alo))) as S0.
  replace (alo + Z.of_nat (Z.to_nat (ahi - alo))) with ahi in S0 by lia.
  destruct (scan_rows sm alo blo bhi (range alo ahi)) as [j2len [[i0 j0] k0]].
  destruct S0 as [A0 [B0 [C0 _]]]. cbn [snd].
  pose proof (extend_left_inside false (left_room alo (i0, j0, k0)) i0 j0 k0 A0) as S1.
  destruct (extend_left sm alo blo false (left_room alo (i0, j0, k0)) (i0, j0, k0))
    as [[i1 j1] k1].
  assert (C1 : i1 + k1 <= ahi) by lia.
  pose proof (extend_right_inside false (right_room ahi (i1, j1, k1)) i1 j1 k1 C1) as S2.
  destruct (extend_right sm ahi bhi false (right_room ahi (i1, j1, k1)) (i1, j1, k1))
    as [[i2 j2] k2].
  assert (A2 : alo <= i2) by lia.
  pose proof (extend_left_inside true (left_room alo (i2, j2, k2)) i2 j2 k2 A2) as S3.
  destruct (extend_left sm alo blo true (left_room alo (i2, j2, k2)) (i2, j2, k2))
    as [[i3 j3] k3].
  assert (C3 : i3 + k3 <= ahi) by lia.
  pose proof (extend_right_inside true (right_room ahi (i3, j3, k3)) i3 j3 k3 C3) as S4.
  destruct (extend_right sm ahi bhi true (right_room ahi (i3, j3, k3)) (i3, j3, k3))
    as [[i4 j4] k4].
  lia.
Qed.

End Bounds.

(** The loop of [get_matching_blocks] ends within [weight queue] iterations. *)
Lemma matching_loop_ends (sm : SequenceMatcher) (fuel : nat) :
  forall (queue : list (Z * Z * Z * Z)) (blocks : list Match),
    (forall alo ahi blo bhi, In (alo, ahi, blo, bhi) queue -> alo <= ahi) ->
    (weight queue <= fuel)%nat ->
    exists result, matching_loop sm fuel queue blocks = Some result.
Proof.
  induction fuel as [|fuel IH]; intros queue blocks V W.
  - destruct queue as [|[[[alo ahi] blo] bhi] q]; [now exists blocks|].
    simpl in W. lia.
  - destruct queue as [|[[[alo ahi] blo] bhi] q]; [now exists blocks|].
    cbn [matching_loop].
    assert (Hr : alo <= ahi) by (apply (V alo ahi blo bhi); now left).
    pose proof (find_longest_match_inside sm alo ahi blo bhi Hr) as B.
    destruct (find_longest_match sm alo ahi blo bhi) as [[i j] k].
    destruct B as [B1 [B2 B3]].
    assert (Vq : forall alo ahi blo bhi, In (alo, ahi, blo, bhi) q -> alo <= ahi)
      by (intros; eapply V; right; eassumption).
    cbn [weight] in W.
    destruct (Z.eqb_spec k 0) as [E|E].
    + apply IH; [assumption | lia].
    + apply IH.
      * intros alo' ahi' blo' bhi' Hin.
        destruct ((i + k <? ahi) && (j + k <? bhi)) eqn:C2.
        -- destruct Hin as [Hin|Hin].
           ++ injection Hin as <- <- _ _. lia.
           ++ destruct ((alo <? i) && (blo <? j)) eqn:C1.
              ** destruct Hin as [Hin|Hin]; [injection Hin as <- <- _ _; lia|].
                 now apply (Vq alo' ahi' blo' bhi').
              ** now apply (Vq alo' ahi' blo' bhi').
        -- destruct ((alo <? i) && (blo <? j)) eqn:C1.
           ++ destruct Hin as [Hin|Hin]; [injection Hin as <- <- _ _; lia|].
              now apply (Vq alo' ahi' blo' bhi').
           ++ now apply (Vq alo' ahi' blo' bhi').
      * destruct ((alo <? i) && (blo <? j)); destruct ((i + k <? ahi) && (j + k <? bhi));
          cbn [weight]; lia.
Qed.

(** [get_matching_blocks] never runs out of the iterations it is given. *)
Lemma matching_loop_terminates (sm : SequenceMatcher) :
  exists blocks,
    matching_loop sm (enough_fuel sm) [(0, len (a sm), 0, len (b sm))] [] = Some blocks.
Proof.
  apply matching_loop_ends.
  - intros alo ahi blo bhi [H|[]]. injection H as <- <- _ _. unfold len. lia.
  - unfold enough_fuel, len. cbn [weight]. lia.
Qed.

End TerminationFacts.

(* ################################################################# *)
(** * The similarity of strings *)

Module SimilarityFacts.
Import PyStr.

Lemma length_chars (s : string) : List.length (list_ascii_of_string s) = String.length s.
Proof. induction s as [|c r IH]; simpl; [reflexivity | now rewrite IH]. Qed.

Lemma length_lower (s : string) : String.length (lower s) = String.length s.
Proof. induction s as [|c r IH]; simpl; [reflexivity | now rewrite IH]. Qed.

Lemma maxsize_small : maxsize < 2 ^ 1021.
Proof.
  unfold maxsize. assert (2 ^ 63 <= 2 ^ 1021) by (apply Z.pow_le_mono_r; lia). lia.
Qed.

(** Two strings that are equal once lowered are similar to the degree 1.0. *)
Lemma similarity_same_lower (a b : string) :
  lower a = lower b -> len a <= maxsize -> Main.similarity a b = PyFloat.f1_0.
Proof.
  intros E L. unfold Main.similarity. rewrite <- E.
  apply RatioFacts.ratio_equal.
  unfold Difflib.len. rewrite length_chars, length_lower.
  pose proof maxsize_small. unfold len in L. lia.
Qed.

(** The similarity of the empty string and another, on either side. *)
Lemma similarity_empty (s : string) :
  Main.similarity "" s = Main.similarity s "".
Proof.
  unfold Main.similarity, Difflib.ratio.
  change (list_ascii_of_string (lower "")) with (@nil ascii).
  rewrite RatioFacts.matches_empty_left, RatioFacts.matches_empty_right.
  rewrite !(proj1 (IndexFacts.new_fields _ _)), !(proj1 (proj2 (IndexFacts.new_fields _ _))).
  now rewrite Z.add_comm.
Qed.

End SimilarityFacts.

(* ################################################################# *)
(** * Runs in which a request fails *)

Module FailureFacts.
Import Net NetFacts Props.

Lemma stops_at_later (remote : Remote) (token : string) (before : list request)
    (first plan : list string) (made : list request) (msg : string) :
  stops_at remote token (before ++ map (SearchRequest token) first) plan made msg ->
  stops_at remote token before (first ++ plan) (map (SearchRequest token) first ++ made) msg.
Proof.
  intros [done [q [rest [E [M S]]]]]. exists (first ++ done), q, rest.
  split; [now rewrite E, <- app_assoc|]. split.
  - now rewrite M, <- map_app, app_assoc.
  - now rewrite map_app, app_assoc.
Qed.

Lemma stops_at_longer (remote : Remote) (token : string) (before : list request)
    (plan more : list string) (made : list request) (msg : string) :
  stops_at remote token before plan made msg ->
  stops_at remote token before (plan ++ more) made msg.
Proof.
  intros [done [q [rest [E [M S]]]]]. exists done, q, (rest ++ more).
  split; [now rewrite E, <- app_assoc|]. now split.
Qed.

(** A loop that makes one search for each string of a list ends at the first
    search that fails. *)
Lemma for_each_search_fails {B : Type} (remote : Remote) (token : string)
    (f : B -> string -> list Entity -> B) :
  forall (l : list string) (acc : B) (st : State) (msg : string) (st' : State),
    for_each l acc
      (fun acc q => candidates <- search_icd remote q token ;; ret (f acc q candidates)) st
    = (Raise msg, st') ->
    token_cache st' = token_cache st
    /\ exists made,
         requests st' = requests st ++ made
         /\ stops_at remote token (requests st) l made msg.
Proof.
  induction l as [|x r IH]; intros acc st msg st' H; [discriminate|].
  simpl in H. unfold bind at 1 in H. unfold bind at 1 in H.
  unfold search_icd at 1 in H.
  destruct (search_endpoint remote (requests st) token x) as [cands|m] eqn:E.
  - simpl in H. apply IH in H. simpl in H. destruct H as [H1 [made [H2 H3]]].
    split; [assumption|]. exists (map (SearchRequest token) [x] ++ made). split.
    + rewrite H2, <- app_assoc. reflexivity.
    + apply (stops_at_later remote token (requests st) [x] r made msg). exact H3.
  - injection H as <- <-. simpl. split; [reflexivity|].
    exists [SearchRequest token x]. split; [reflexivity|].
    exists [], x, r. simpl. rewrite app_nil_r. now repeat split.
Qed.

Lemma main_run_queries_fails (term def : string) (remote : Remote) (token : string)
    (st : State) (msg : string) (st' : State) :
  Main.run_queries term def remote token st = (Raise msg, st') ->
  token_cache st' = token_cache st
  /\ exists made,
       requests st' = requests st ++ made
       /\ stops_at remote token (requests st) (batch_plan term def) made msg.
Proof.
  unfold Main.run_queries, batch_plan. intro H.
  unfold bind at 1 in H. unfold search_icd at 1 in H.
  destruct (search_endpoint remote (requests st) token term) as [cands|m] eqn:E0.
  - unfold bind at 1 in H.
    match type of H with
    | context [match ?c ?s with _ => _ end] => destruct (c s) as [[vars1|m] st1] eqn:E1
    end.
    + assert (R1 : requests st1
                   = (requests st ++ [SearchRequest token term])
                     ++ map (SearchRequest token)
                          (if PyStr.nonempty (PyStr.strip def)
                           then Main.extract_keywords def else [])
                   /\ token_cache st1 = token_cache st).
      { destruct (PyStr.nonempty (PyStr.strip def)).
        - apply (for_each_search remote token
                   (fun vars keyword candidates =>
                      fold_left (Main.keyword_candidate term keyword) candidates vars)) in E1.
          exact E1.
        - injection E1 as _ <-. simpl. now rewrite app_nil_r. }
      destruct R1 as [R1 C1].
      apply (for_each_search_fails remote token
               (fun vars phrase candidates =>
                  fold_left (Main.symptom_candidate phrase) candidates vars)) in H.
      destruct H as [C2 [made [H2 H3]]]. split; [congruence|].
      exists (map (SearchRequest token)
                ([term] ++ (if PyStr.nonempty (PyStr.strip def)
                            then Main.extract_keywords def else [])) ++ made).
      split.
      * rewrite H2, R1, map_app, <- !app_assoc. reflexivity.
      * rewrite app_assoc. apply stops_at_later.
        rewrite map_app, app_assoc.
        change (map (SearchRequest token) [term]) with [SearchRequest token term].
        rewrite <- R1. exact H3.
    + injection H as <- <-.
      destruct (PyStr.nonempty (PyStr.strip def)); [|discriminate].
      apply (for_each_search_fails remote token
               (fun vars keyword candidates =>
                  fold_left (Main.keyword_candidate term keyword) candidates vars)) in E1.
      simpl in E1. destruct E1 as [C1 [made [H2 H3]]]. split; [assumption|].
      exists (map (SearchRequest token) [term] ++ made). split.
      * rewrite H2, <- app_assoc. reflexivity.
      * apply (stops_at_later remote token (requests st) [term]).
        apply stops_at_longer. exact H3.
  - injection H as <- <-. simpl. split; [reflexivity|].
    exists [SearchRequest token term]. split; [reflexivity|].
    eexists [], term, _. simpl. rewrite app_nil_r. now repeat split.
Qed.

Lemma sample_run_queries_fails (remote : Remote) (term : string) (keywords : list string)
    (token : string) (st : State) (msg : string) (st' : State) :
  Sample.run_queries remote term keywords token st = (Raise msg, st') ->
  token_cache st' = token_cache st
  /\ exists made,
       requests st' = requests st ++ made
       /\ stops_at remote token (requests st) (term :: keywords) made msg.
Proof.
  unfold Sample.run_queries. intro H.
  unfold bind at 1 in H. unfold search_icd at 1 in H.
  destruct (search_endpoint remote (requests st) token term) as [cands|m] eqn:E0.
  - apply (for_each_search_fails remote token
             (fun all keyword candidates =>
                fold_left (Sample.keyword_candidate term keyword) candidates all)) in H.
    simpl in H. destruct H as [C1 [made [H2 H3]]]. split; [assumption|].
    exists (map (SearchRequest token) [term] ++ made). split.
    + rewrite H2, <- app_assoc. reflexivity.
    + apply (stops_at_later remote token (requests st) [term]). exact H3.
  - injection H as <- <-. simpl. split; [reflexivity|].
    exists [SearchRequest token term]. split; [reflexivity|].
    exists [], term, keywords. simpl. rewrite app_nil_r. now repeat split.
Qed.

End FailureFacts.

(* ################################################################# *)
(** * The token and its cache *)

Module TokenFacts.
Import Net NetFacts Props.

Lemma token_requests_app (l1 l2 : list request) :
  token_requests (l1 ++ l2) = (token_requests l1 + token_requests l2)%nat.
Proof.
  induction l1 as [|[|t q] r IH]; simpl; [reflexivity | now rewrite IH | assumption].
Qed.

Lemma token_requests_searches (token : string) (l : list string) :
  token_requests (map (SearchRequest token) l) = 0%nat.
Proof. induction l as [|q r IH]; simpl; [reflexivity | assumption]. Qed.

Lemma stops_at_searches (remote : Remote) (token : string) (before : list request)
    (plan : list string) (made : list request) (msg : string) :
  stops_at remote token before plan made msg ->
  exists qs, made = map (SearchRequest token) qs
             /\ (List.length qs <= List.length plan)%nat.
Proof.
  intros [done [q [rest [E [M _]]]]]. exists (done ++ [q]). split; [assumption|].
  rewrite E, !length_app. simpl. lia.
Qed.

(** [get_token] of the service serves a token of the cache that is not
    empty, and asks the token endpoint otherwise. *)
Lemma sample_get_token_warm (remote : Remote) (st : State) (t : string) :
  token_cache st = Some t -> PyStr.nonempty t = true ->
  Sample.get_token remote st = (Ok t, st).
Proof.
  intros C N. unfold Sample.get_token, bind, get_cache, ret. now rewrite C, N.
Qed.

Lemma sample_get_token_cold (remote : Remote) (st : State) :
  (token_cache st = None \/ exists t, token_cache st = Some t /\ PyStr.nonempty t = false) ->
  Sample.get_token remote st
  = match token_endpoint remote (requests st) with
    | Ok t => (Ok t, {| requests := requests st ++ [TokenRequest]; token_cache := Some t |})
    | Raise msg =>
        (Raise msg,
         {| requests := requests st ++ [TokenRequest]; token_cache := token_cache st |})
    end.
Proof.
  intros C. unfold Sample.get_token, bind, get_cache, post_token, set_cache, ret.
  destruct C as [C|[t [C N]]]; rewrite C; try rewrite N;
    destruct (token_endpoint remote (requests st)); simpl; rewrite ?C; reflexivity.
Qed.

Lemma sample_get_token_cases (st : State) :
  (exists t, token_cache st = Some t /\ PyStr.nonempty t = true)
  \/ (token_cache st = None \/ exists t, token_cache st = Some t /\ PyStr.nonempty t = false).
Proof.
  destruct (token_cache st) as [t|]; [|now right; left].
  destruct (PyStr.nonempty t) eqn:N; [left | right; right]; now exists t.
Qed.

End TokenFacts.

(* ################################################################# *)
(** * Scores and sources of the batch table *)

Module ScoreFacts.
Import Net Props.

(** As [for_each_invariant], for a body that keeps the invariant for the
    elements of the list only. *)
Lemma for_each_invariant_in {A B : Type} (P : B -> Prop) (body : B -> A -> M B) :
  forall l : list A,
    (forall acc x st r st', In x l -> P acc -> body acc x st = (Ok r, st') -> P r) ->
    forall acc st out st',
      P acc -> for_each l acc body st = (Ok out, st') -> P out.
Proof.
  induction l as [|x r IH]; intros Hbody acc st out st' HP H.
  - now injection H as <- _.
  - simpl in H. unfold bind at 1 in H.
    destruct (body acc x st) as [[acc'|msg] st1] eqn:E; [|discriminate].
    apply (IH (fun a y s r0 s' Hy => Hbody a y s r0 s' (or_intror Hy)) acc' st1 out st');
      [|assumption].
    now apply (Hbody acc x st acc' st1); [left|..].
Qed.

Lemma keys_set_old {V : Type} (d : PyDict.dict string V) (k : string) (v : V) (c : string) :
  In c (PyDict.keys d) -> In c (PyDict.keys (PyDict.set String.eqb d k v)).
Proof.
  intro H. rewrite PyDictFacts.keys_set.
  destruct (PyDict.has String.eqb d k); [assumption | apply in_or_app; now left].
Qed.

Lemma keys_set_new {V : Type} (d : PyDict.dict string V) (k : string) (v : V) :
  In k (PyDict.keys (PyDict.set String.eqb d k v)).
Proof.
  apply (in_map fst _ (k, v)).
  apply (PyDictFacts.get_Some_In String.eqb TableFacts.string_eqb_eq).
  apply PyDictFacts.get_set_same, TableFacts.string_eqb_eq.
Qed.

Lemma improves_false_key (all : PyDict.dict string Main.Candidate) code score :
  Main.improves all code score = false -> In code (PyDict.keys all).
Proof.
  unfold Main.improves.
  destruct (PyDict.get String.eqb all code) as [v|] eqn:G; [|discriminate].
  intros _. apply (in_map fst _ (code, v)).
  now apply (PyDictFacts.get_Some_In String.eqb TableFacts.string_eqb_eq).
Qed.

Lemma main_step_consistent (term : string) (keywords : list string)
    (code title source : string) (score : PyFloat.float)
    (all : PyDict.dict string Main.Candidate) (vars : Main.Locals) :
  consistent term keywords vars ->
  scored Main.similarity term keywords Main.symptom_phrases title score source ->
  all = PyDict.set String.eqb (Main.all_candidates vars) code (title, score, source)
  \/ (all = Main.all_candidates vars /\ In code (PyDict.keys all)) ->
  consistent term keywords (Main.update_best code title source score all vars).
Proof.
  unfold consistent, Main.update_best. intros [Ht Hb] Hs Hall.
  assert (Hin : forall k t s src, In (k, (t, s, src)) all ->
                  scored Main.similarity term keywords Main.symptom_phrases t s src).
  { intros k t s src H. destruct Hall as [->|[-> _]]; [|now apply (Ht k)].
    apply BestFacts.In_set in H. destruct H as [H|H]; [now apply (Ht k)|].
    now injection H as _ -> -> ->. }
  assert (Hk : In code (PyDict.keys all)).
  { destruct Hall as [->|[_ H]]; [apply keys_set_new | assumption]. }
  assert (Hold : forall c, In c (PyDict.keys (Main.all_candidates vars)) ->
                   In c (PyDict.keys all)).
  { intros c H. destruct Hall as [->|[-> _]]; [now apply keys_set_old | assumption]. }
  destruct (PyFloat.gt score (Main.best_overall_score vars)); simpl.
  - split; [exact Hin|]. intros c t s H. injection H as <- <- <-. now split.
  - split; [exact Hin|]. intros c t s H. destruct (Hb c t s H) as [H1 H2].
    split; [now apply Hold | assumption].
Qed.

Lemma main_term_candidate_consistent term keywords vars c :
  consistent term keywords vars ->
  consistent term keywords (Main.term_candidate term vars c).
Proof.
  intro H. unfold Main.term_candidate.
  apply main_step_consistent; [assumption | now left | now left].
Qed.

Lemma main_keyword_candidate_consistent term keywords keyword vars c :
  In keyword keywords ->
  consistent term keywords vars ->
  consistent term keywords (Main.keyword_candidate term keyword vars c).
Proof.
  intros K H. unfold Main.keyword_candidate. apply main_step_consistent; [assumption| |].
  - right; left. now exists keyword.
  - destruct (Main.improves _ _ _) eqn:E; [now left | right].
    split; [reflexivity | now apply improves_false_key in E].
Qed.

Lemma main_symptom_candidate_consistent term keywords phrase vars c :
  In phrase Main.symptom_phrases ->
  consistent term keywords vars ->
  consistent term keywords (Main.symptom_candidate phrase vars c).
Proof.
  intros K H. unfold Main.symptom_candidate. apply main_step_consistent; [assumption| |].
  - right; right. now exists phrase.
  - destruct (Main.improves _ _ _) eqn:E; [now left | right].
    split; [reflexivity | now apply improves_false_key in E].
Qed.

Lemma main_run_queries_consistent term def remote token st vars st' :
  Main.run_queries term def remote token st = (Ok vars, st') ->
  consistent term (Main.extract_keywords def) vars.
Proof.
  unfold Main.run_queries. intro H.
  unfold bind at 1 in H.
  destruct (search_icd remote term token st) as [[cands|msg] st1]; [|discriminate].
  unfold bind at 1 in H.
  match type of H with
  | context [match ?c ?s with _ => _ end] => destruct (c s) as [[vars1|msg] st2] eqn:E1
  end; [|discriminate].
  set (P := consistent term (Main.extract_keywords def)).
  assert (I0 : P {| Main.all_candidates := []; Main.best_overall_match := None;
                    Main.best_overall_score := PyFloat.f0_0 |}).
  { split; simpl; [intros ? ? ? ? [] | discriminate]. }
  assert (P0 : P match cands with
                 | [] =>
                     {| Main.all_candidates := []; Main.best_overall_match := None;
                        Main.best_overall_score := PyFloat.f0_0 |}
                 | _ :: _ =>
                     fold_left (Main.term_candidate term) cands
                       {| Main.all_candidates := []; Main.best_overall_match := None;
                          Main.best_overall_score := PyFloat.f0_0 |}
                 end).
  { destruct cands as [|c0 cs]; [exact I0|].
    apply (TableFacts.fold_left_invariant P); [|exact I0].
    intros; now apply main_term_candidate_consistent. }
  assert (P1 : P vars1).
  { destruct (PyStr.nonempty (PyStr.strip def)).
    - revert E1. apply (for_each_invariant_in P); [|exact P0].
      intros acc x s r s' Hx Hacc Hb. unfold bind, ret in Hb.
      destruct (search_icd remote x token s) as [[cs|msg] s1]; [|discriminate].
      injection Hb as <- _.
      apply (TableFacts.fold_left_invariant P); [|assumption].
      intros; now apply main_keyword_candidate_consistent.
    - injection E1 as <- _. exact P0. }
  revert H. apply (for_each_invariant_in P); [|exact P1].
  intros acc x s r s' Hx Hacc Hb. unfold bind, ret in Hb.
  destruct (search_icd remote x token s) as [[cs|msg] s1]; [|discriminate].
  injection Hb as <- _.
  apply (TableFacts.fold_left_invariant P); [|assumption].
  intros; now apply main_symptom_candidate_consistent.
Qed.

End ScoreFacts.

(* ################################################################# *)
(** * The table and the response of the service *)

Module ResponseFacts.
Import Net Props Props.

(** ** The table of the service *)

Lemma sample_term_candidate_well_formed term keywords all c :
  Forall (well_formed term keywords) all ->
  Forall (well_formed term keywords) (Sample.term_candidate term all c).
Proof.
  intro H. unfold Sample.term_candidate.
  destruct (PyStr.nonempty (get_or_empty (title c))) eqn:T; [|assumption].
  destruct (PyStr.nonempty (get_or_empty (theCode c))) eqn:C; [|assumption].
  simpl. apply Forall_forall. intros x Hx.
  apply BestFacts.In_set in Hx. destruct Hx as [Hx| ->].
  - revert x Hx. now apply Forall_forall.
  - unfold well_formed. repeat split; try assumption. now left.
Qed.

Lemma sample_keyword_candidate_well_formed term keywords keyword all c :
  In keyword keywords ->
  Forall (well_formed term keywords) all ->
  Forall (well_formed term keywords) (Sample.keyword_candidate term keyword all c).
Proof.
  intros K H. unfold Sample.keyword_candidate.
  destruct (PyStr.nonempty (get_or_empty (title c))) eqn:T; [|assumption].
  destruct (PyStr.nonempty (get_or_empty (theCode c))) eqn:C; [|assumption].
  simpl.
  assert (S : Forall (well_formed term keywords)
                (PyDict.set String.eqb all (get_or_empty (theCode c))
                   (get_or_empty (title c),
                    PyFloat.max (Sample.similarity term (get_or_empty (title c)))
                      (PyFloat.mul (Sample.similarity keyword (get_or_empty (title c)))
                         PyFloat.f0_8),
                    ("keyword: " ++ keyword)%string))).
  { apply Forall_forall. intros x Hx.
    apply BestFacts.In_set in Hx. destruct Hx as [Hx| ->].
    - revert x Hx. now apply Forall_forall.
    - unfold well_formed. repeat split; try assumption. right; left. now exists keyword. }
  destruct (PyDict.get String.eqb all _) as [[[t old] s]|];
    [destruct (PyFloat.gt _ old)|]; assumption.
Qed.

Lemma sample_table_well_formed remote term keywords token st all st' :
  Sample.run_queries remote term keywords token st = (Ok all, st') ->
  Forall (well_formed term keywords) all.
Proof.
  unfold Sample.run_queries. intro H.
  unfold bind at 1 in H.
  destruct (search_icd remote term token st) as [[cands|msg] st1]; [|discriminate].
  revert H. apply (ScoreFacts.for_each_invariant_in (Forall (well_formed term keywords))).
  - intros acc x s r s' Hx Hacc Hb. unfold bind, ret in Hb.
    destruct (search_icd remote x token s) as [[cs|msg] s1]; [|discriminate].
    injection Hb as <- _.
    apply (TableFacts.fold_left_invariant (Forall (well_formed term keywords)));
      [|assumption].
    intros; now apply sample_keyword_candidate_well_formed.
  - apply (TableFacts.fold_left_invariant (Forall (well_formed term keywords)));
      [|constructor].
    intros; now apply sample_term_candidate_well_formed.
Qed.

(** ** The conversion loop and the sort *)

Lemma convert_fold_candidates (l : PyDict.dict string Sample.Candidate)
    (vars : Sample.Converted) :
  fst (fst (fold_left Sample.convert_item l vars))
  = fst (fst vars) ++ map candidate_of l.
Proof.
  revert vars. induction l as [|[code [[title score] source]] r IH]; intro vars; simpl.
  - now rewrite app_nil_r.
  - rewrite IH. destruct vars as [[cands best] bs]. simpl.
    destruct (PyFloat.gt score bs); simpl; now rewrite <- app_assoc.
Qed.

Lemma convert_fold_best (l : PyDict.dict string Sample.Candidate)
    (vars : Sample.Converted) :
  (forall b, snd (fst vars) = Some b -> In b (fst (fst vars))) ->
  forall b, snd (fst (fold_left Sample.convert_item l vars)) = Some b ->
            In b (fst (fst (fold_left Sample.convert_item l vars))).
Proof.
  revert vars. induction l as [|[code [[title score] source]] r IH]; intros vars H;
    simpl; [assumption|].
  apply IH. destruct vars as [[cands best] bs]. simpl in H |- *.
  destruct (PyFloat.gt score bs); simpl; intros b Hb; apply in_or_app.
  - injection Hb as <-. right. now left.
  - left. now apply H.
Qed.

Lemma insert_desc_perm (x : Sample.ICDCandidate) (l : list Sample.ICDCandidate) :
  Permutation (Sample.insert_desc x l) (x :: l).
Proof.
  induction l as [|y r IH]; simpl; [reflexivity|].
  destruct (PyFloat.gt (Sample.similarity_ x) (Sample.similarity_ y)); [reflexivity|].
  rewrite IH. apply perm_swap.
Qed.

Lemma sort_fold_perm (l acc : list Sample.ICDCandidate) :
  Permutation (fold_left (fun acc x => Sample.insert_desc x acc) l acc) (acc ++ l).
Proof.
  revert acc. induction l as [|x r IH]; intro acc; simpl.
  - now rewrite app_nil_r.
  - rewrite IH, insert_desc_perm. apply Permutation_middle.
Qed.

Lemma sort_by_similarity_perm (l : list Sample.ICDCandidate) :
  Permutation (Sample.sort_by_similarity l) l.
Proof. apply (sort_fold_perm l []). Qed.

Lemma insert_desc_hd (x a : Sample.ICDCandidate) (l : list Sample.ICDCandidate) :
  follows a x -> HdRel follows a l -> HdRel follows a (Sample.insert_desc x l).
Proof.
  intros Hx Hl. destruct l as [|y r]; simpl; [now constructor|].
  destruct (PyFloat.gt (Sample.similarity_ x) (Sample.similarity_ y));
    constructor; [assumption|]. now inversion Hl.
Qed.

Lemma insert_desc_sorted (x : Sample.ICDCandidate) (l : list Sample.ICDCandidate) :
  Sorted follows l -> Sorted follows (Sample.insert_desc x l).
Proof.
  induction 1 as [|y r Hs IH Hh]; simpl; [repeat constructor|].
  destruct (PyFloat.gt (Sample.similarity_ x) (Sample.similarity_ y)) eqn:E.
  - constructor; [now constructor|]. constructor.
    unfold follows. now apply PyFloatFacts.gt_asym.
  - constructor; [assumption|]. now apply insert_desc_hd.
Qed.

Lemma sort_by_similarity_sorted (l : list Sample.ICDCandidate) :
  Sorted follows (Sample.sort_by_similarity l).
Proof.
  unfold Sample.sort_by_similarity.
  apply (TableFacts.fold_left_invariant (Sorted follows)); [|constructor].
  intros acc x H. now apply insert_desc_sorted.
Qed.

Lemma respond_candidates (entry : Sample.Entry) (keywords : list string)
    (table : PyDict.dict string Sample.Candidate) :
  Sample.icd_candidates (Sample.respond entry keywords table)
  = Sample.sort_by_similarity (map candidate_of table).
Proof.
  unfold Sample.respond.
  pose proof (convert_fold_candidates table ([], None, PyFloat.f0_0)) as H.
  destruct (fold_left Sample.convert_item table ([], None, PyFloat.f0_0))
    as [[cands best] bs].
  simpl in H |- *. now rewrite H.
Qed.

Lemma respond_best (entry : Sample.Entry) (keywords : list string)
    (table : PyDict.dict string Sample.Candidate) (b : Sample.ICDCandidate) :
  Sample.best_match (Sample.respond entry keywords table) = Some b ->
  In b (map candidate_of table).
Proof.
  unfold Sample.respond.
  pose proof (convert_fold_candidates table ([], None, PyFloat.f0_0)) as H.
  pose proof (convert_fold_best table ([], None, PyFloat.f0_0)) as B.
  destruct (fold_left Sample.convert_item table ([], None, PyFloat.f0_0))
    as [[cands best] bs].
  simpl in H, B |- *. intros ->. rewrite <- H. apply B; [discriminate | reflexivity].
Qed.

Lemma map_code_candidate_of (table : PyDict.dict string Sample.Candidate) :
  map Sample.code (map candidate_of table) = PyDict.keys table.
Proof.
  unfold PyDict.keys. rewrite map_map. apply map_ext.
  now intros [code [[title score] source]].
Qed.

End ResponseFacts.

(* ################################################################# *)
(** * The lookup and the case of the query *)

Module CaseFacts.
Import PyStr PyStrFacts.

Lemma find_same {A : Type} (f g : A -> bool) (l : list A) :
  (forall x, f x = g x) -> find f l = find g l.
Proof.
  intro H. induction l as [|x r IH]; simpl; [reflexivity|]. now rewrite H, IH.
Qed.

Lemma find_entry_lower (q1 q2 : string) :
  lower q1 = lower q2 -> Sample.find_entry q1 = Sample.find_entry q2.
Proof.
  intro E. unfold Sample.find_entry. f_equal. apply find_same. intros item.
  now rewrite !LookupFacts.entry_matches_substring, E.
Qed.

End CaseFacts.

(* ################################################################# *)
(** * The words of a definition *)

Module WordFacts.
Import PyStr PyStrFacts.

Lemma has_lower_lower_char (c : ascii) : has_lower (lower_char c) = false.
Proof. destruct c as [[] [] [] [] [] [] [] []]; reflexivity. Qed.

Lemma lower_fixed (s : string) :
  (forall c, In c (list_ascii_of_string s) -> has_lower c = false) -> lower s = s.
Proof.
  induction s as [|c r IH]; intro H; simpl; [reflexivity|].
  rewrite IH by (intros c' Hc; apply H; now right).
  unfold lower_char. now rewrite (H c (or_introl eq_refl)).
Qed.

Lemma chars_sub_class (s : string) (c : ascii) :
  In c (list_ascii_of_string (sub_nonword_nonspace s)) -> isword c || isspace c = true.
Proof.
  induction s as [|c0 r IH]; simpl; [tauto|]. intros [H|H]; [|now apply IH].
  subst c. destruct (isword c0 || isspace c0) eqn:E; [assumption | reflexivity].
Qed.

(** A word of the cleaned, lowered definition has word characters only and
    no capital. *)
Lemma word_chars (d w : string) :
  In w (split (sub_nonword_nonspace (lower d))) ->
  lower w = w /\ forall c, In c (list_ascii_of_string w) -> isword c = true.
Proof.
  intro H. split.
  - apply lower_fixed. intros c Hc.
    destruct (split_chars _ _ _ H Hc) as [H1 _].
    apply chars_sub_nonword_nonspace in H1. destruct H1 as [H1| ->]; [|reflexivity].
    apply chars_lower in H1. destruct H1 as [c0 [_ ->]]. apply has_lower_lower_char.
  - intros c Hc. destruct (split_chars _ _ _ H Hc) as [H1 H2].
    apply chars_sub_class in H1. rewrite H2, orb_false_r in H1. exact H1.
Qed.

Lemma length_sub_nonword_nonspace (s : string) :
  String.length (sub_nonword_nonspace s) = String.length s.
Proof. induction s as [|c r IH]; simpl; [reflexivity | now rewrite IH]. Qed.

Lemma split_go_length (s : string) :
  (String.length (fst (split_go s)) <= String.length s)%nat
  /\ forall w, In w (snd (split_go s)) -> (String.length w <= String.length s)%nat.
Proof.
  induction s as [|c r [IH1 IH2]]; simpl; [split; [lia | tauto]|].
  destruct (split_go r) as [w ws]. simpl in IH1, IH2.
  destruct (isspace c); simpl.
  - split; [lia|]. intros w' H. destruct (nonempty w).
    + destruct H as [<-|H]; [lia|]. specialize (IH2 w' H). lia.
    + specialize (IH2 w' H). lia.
  - split; [lia|]. intros w' H. specialize (IH2 w' H). lia.
Qed.

Lemma split_length (s w : string) :
  In w (split s) -> (String.length w <= String.length s)%nat.
Proof.
  unfold split. pose proof (split_go_length s) as [H1 H2].
  destruct (split_go s) as [w0 ws]. simpl in H1, H2.
  destruct (nonempty w0); [|now apply H2].
  intros [<-|H]; [assumption | now apply H2].
Qed.

Lemma word_length (d w : string) :
  In w (split (sub_nonword_nonspace (lower d))) -> len w <= len d.
Proof.
  intro H. apply split_length in H.
  rewrite length_sub_nonword_nonspace, SimilarityFacts.length_lower in H.
  unfold len. lia.
Qed.

End WordFacts.

(* ################################################################# *)
(** * The similarity with an empty string *)

Module ZeroFacts.
Import PyStr PyFloat.

(** [2.0 * 0 / n] is 0.0. *)
Lemma ratio_of_none (n : Z) :
  0 < n < 2 ^ 1021 -> div (mul f2_0 (of_int 0)) (of_int n) = f0_0.
Proof.
  intros [H1 H2]. destruct n as [|p|p]; [lia| |lia].
  assert (D : Zpos (digits2_pos p) <= 1022).
  { pose proof (RoundFacts.digits2_bounds p) as [B1 _].
    destruct (Z.le_gt_cases (Zpos (digits2_pos p)) 1022) as [L|L]; [assumption|].
    assert (2 ^ 1021 <= 2 ^ (Zpos (digits2_pos p) - 1)) by (apply Z.pow_le_mono_r; lia).
    lia. }
  destruct (RoundFacts.of_int_double p D) as [m [e [E1 _]]].
  rewrite E1. reflexivity.
Qed.

Lemma len_positive (s : string) : s <> "" -> 0 < len s.
Proof. destruct s; [congruence | intros _; unfold len; simpl; lia]. Qed.

Lemma similarity_empty_right (s : string) :
  s <> "" -> len s <= maxsize -> Main.similarity s "" = f0_0.
Proof.
  intros N L. unfold Main.similarity, Difflib.ratio.
  change (list_ascii_of_string (lower "")) with (@nil ascii).
  rewrite RatioFacts.matches_empty_right.
  rewrite (proj1 (IndexFacts.new_fields _ _)), (proj1 (proj2 (IndexFacts.new_fields _ _))).
  unfold Difflib.calculate_ratio, Difflib.len.
  rewrite SimilarityFacts.length_chars, SimilarityFacts.length_lower.
  pose proof (len_positive s N) as P. unfold len in P, L.
  pose proof SimilarityFacts.maxsize_small.
  change (Z.of_nat (List.length (@nil ascii))) with 0. rewrite Z.add_0_r.
  destruct (Z.eqb_spec (Z.of_nat (String.length s)) 0) as [E|_]; [lia|].
  apply ratio_of_none. lia.
Qed.

Lemma similarity_empty_left (s : string) :
  s <> "" -> len s <= maxsize -> Main.similarity "" s = f0_0.
Proof.
  intros N L. rewrite SimilarityFacts.similarity_empty.
  now apply similarity_empty_right.
Qed.

(** No title scores above 0.0 when it is empty. *)
Lemma scored_empty_title (term : string) (keywords phrases : list string)
    (score : float) (source : string) :
  term <> "" -> len term <= maxsize ->
  (forall k, In k keywords -> k <> "" /\ len k <= maxsize) ->
  (forall p, In p phrases -> p <> "" /\ len p <= maxsize) ->
  Props.scored Main.similarity term keywords phrases "" score source ->
  score = f0_0.
Proof.
  intros N L K P [[_ ->]|[[k [Hk [_ ->]]]|[p [Hp [_ ->]]]]].
  - now apply similarity_empty_right.
  - destruct (K k Hk) as [K1 K2].
    rewrite (similarity_empty_right term N L), (similarity_empty_right k K1 K2).
    reflexivity.
  - destruct (P p Hp) as [P1 P2]. rewrite (similarity_empty_right p P1 P2). reflexivity.
Qed.

Lemma main_keyword_length (d k : string) :
  len d <= maxsize -> In k (Main.extract_keywords d) -> k <> "" /\ len k <= maxsize.
Proof.
  intros L H. apply PyStrFacts.In_firstn, in_app_iff in H. destruct H as [H|H].
  - apply KeywordFacts.main_medical_keyword in H. destruct H as [H1 [H2 _]].
    apply andb_true_iff in H2. destruct H2 as [H2 _].
    pose proof (WordFacts.word_length d k H1). split; [|lia].
    intros ->. discriminate.
  - apply KeywordFacts.main_compound_term in H.
    destruct H as [<-|[<-|[<-|[<-|[]]]]]; (split; [discriminate | vm_compute; discriminate]).
Qed.

Lemma symptom_phrase_length (p : string) :
  In p Main.symptom_phrases -> p <> "" /\ len p <= maxsize.
Proof.
  intro H.
  destruct H as [<-|[<-|[<-|[<-|[<-|[<-|[]]]]]]];
    (split; [discriminate | vm_compute; discriminate]).
Qed.

End ZeroFacts.

(* ################################################################# *)
(** * The blocks of the matcher *)

Module BlockFacts.
Import Difflib Props.

Lemma indexed_new (sa sb : list ascii) : indexed (new sa sb).
Proof.
  intros x j H. unfold PyDict.get_default in H.
  pose proof (IndexFacts.b2j_lookup sa sb x) as L.
  destruct (PyDict.get Ascii.eqb (b2j (new sa sb)) x) as [js|]; [|destruct H].
  subst js. apply IndexFacts.positions_bounds in H. destruct H as [H1 H2].
  rewrite (proj1 (proj2 (IndexFacts.new_fields sa sb))). unfold getitem.
  destruct (Z.ltb_spec j 0) as [N|_]; [lia|].
  now rewrite Z.sub_0_r in H2.
Qed.

Lemma elt_eqb_same (x : ascii) (u v : option ascii) :
  u = Some x -> v = Some x -> elt_eqb u v = true.
Proof. intros -> ->. simpl. apply Ascii.eqb_refl. Qed.

Section Sound.
Variable sm : SequenceMatcher.
Variables alo ahi blo bhi : Z.
Hypothesis Hindex : indexed sm.

Lemma lengths_empty (i : Z) : lengths sm alo blo bhi i [].
Proof. intros j v H. discriminate. Qed.

Lemma scan_row_sound (i : Z) (x : ascii) (j2len : PyDict.dict Z Z) :
  alo <= i < ahi ->
  getitem (a sm) i = Some x ->
  lengths sm alo blo bhi (i - 1) j2len ->
  forall (js : list Z) (newj2len : PyDict.dict Z Z) (best : Match),
    (forall j, In j js -> getitem (b sm) j = Some x) ->
    lengths sm alo blo bhi i newj2len ->
    sound sm alo ahi blo bhi best ->
    lengths sm alo blo bhi i (fst (scan_row blo bhi i j2len js newj2len best))
    /\ sound sm alo ahi blo bhi (snd (scan_row blo bhi i j2len js newj2len best)).
Proof.
  intros Hi Hx HJ. induction js as [|j js IH]; intros newj2len best Hjs HN HB.
  - now split.
  - cbn [scan_row].
    assert (Hjs' : forall j', In j' js -> getitem (b sm) j' = Some x)
      by (intros j' H; apply Hjs; now right).
    destruct (Z.ltb_spec j blo) as [L1|L1]; [now apply IH|].
    destruct (Z.geb_spec j bhi) as [L2|L2]; [now split|].
    set (k := PyDict.get_default Z.eqb j2len (j - 1) 0 + 1).
    assert (K : 1 <= k /\ k <= i - alo + 1 /\ k <= j - blo + 1
                /\ forall t, 0 <= t < k ->
                     elt_eqb (getitem (a sm) (i - t)) (getitem (b sm) (j - t)) = true).
    { subst k. unfold PyDict.get_default.
      destruct (PyDict.get Z.eqb j2len (j - 1)) as [v|] eqn:G.
      - destruct (HJ (j - 1) v G) as [V1 [V2 [V3 [V4 V5]]]].
        repeat split; try lia.
        intros t Ht. destruct (Z.eq_dec t 0) as [->|Nt].
        + rewrite !Z.sub_0_r. apply (elt_eqb_same x); [assumption|].
          apply Hjs. now left.
        + replace (i - t) with (i - 1 - (t - 1)) by lia.
          replace (j - t) with (j - 1 - (t - 1)) by lia.
          apply V5. lia.
      - repeat split; try lia.
        intros t Ht. replace t with 0 by lia. rewrite !Z.sub_0_r.
        apply (elt_eqb_same x); [assumption|]. apply Hjs. now left. }
    destruct K as [K1 [K2 [K3 K4]]].
    destruct best as [[besti bestj] bestsize].
    apply IH; [assumption| |].
    + intros j' v G. rewrite EqualFacts.get_set_z in G.
      destruct (Z.eqb_spec j' j) as [->|N]; [|now apply HN].
      injection G as <-. repeat split; try assumption; lia.
    + destruct (Z.gtb_spec k bestsize) as [G|G]; [|assumption].
      unfold sound. repeat split; try lia.
      intros d Hd.
      replace (i - k + 1 + d) with (i - (k - 1 - d)) by lia.
      replace (j - k + 1 + d) with (j - (k - 1 - d)) by lia.
      apply K4. lia.
Qed.

Lemma scan_step_sound (i : Z) (vars : PyDict.dict Z Z * Match) :
  alo <= i < ahi ->
  lengths sm alo blo bhi (i - 1) (fst vars) ->
  sound sm alo ahi blo bhi (snd vars) ->
  lengths sm alo blo bhi i (fst (scan_step sm blo bhi vars i))
  /\ sound sm alo ahi blo bhi (snd (scan_step sm blo bhi vars i)).
Proof.
  intros Hi HJ HB. destruct vars as [j2len best]. unfold scan_step.
  destruct (getitem (a sm) i) as [x|] eqn:Hx.
  - apply (scan_row_sound i x); try assumption.
    + intros j H. now apply Hindex.
    + apply lengths_empty.
  - cbn [scan_row fst snd]. split; [apply lengths_empty | assumption].
Qed.

Lemma scan_rows_sound (m : nat) :
  blo <= bhi -> alo + Z.of_nat m <= ahi ->
  lengths sm alo blo bhi (alo + Z.of_nat m - 1)
    (fst (scan_rows sm alo blo bhi (range alo (alo + Z.of_nat m))))
  /\ sound sm alo ahi blo bhi
       (snd (scan_rows sm alo blo bhi (range alo (alo + Z.of_nat m)))).
Proof.
  intros Hb. induction m as [|m IH]; intro Hm.
  - replace (alo + Z.of_nat 0) with alo by lia.
    unfold range. rewrite Z.sub_diag. cbn. split; [apply lengths_empty|].
    repeat split; try lia.
  - rewrite TerminationFacts.range_from_succ. unfold scan_rows in *.
    rewrite fold_left_app. cbn [fold_left].
    destruct IH as [IH1 IH2]; [lia|].
    replace (alo + Z.of_nat (S m) - 1) with (alo + Z.of_nat m) by lia.
    apply scan_step_sound; [lia | | assumption].
    exact IH1.
Qed.

Lemma extend_left_sound (junk : bool) (n : nat) (best : Match) :
  sound sm alo ahi blo bhi best ->
  sound sm alo ahi blo bhi (extend_left sm alo blo junk n best).
Proof.
  revert best. induction n as [|n IH]; intros [[i j] k] H; cbn [extend_left];
    [assumption|].
  destruct ((i >? alo) && (j >? blo)
            && Bool.eqb (isbjunk sm (getitem (b sm) (j - 1))) junk
            && elt_eqb (getitem (a sm) (i - 1)) (getitem (b sm) (j - 1))) eqn:E;
    [|assumption].
  apply IH. apply andb_true_iff in E. destruct E as [E E4].
  apply andb_true_iff in E. destruct E as [E _].
  apply andb_true_iff in E. destruct E as [E1 E2].
  apply Z.gtb_lt in E1, E2.
  destruct H as [H1 [H2 [H3 [H4 [H5 H6]]]]].
  unfold sound. repeat split; try lia.
  intros d Hd. destruct (Z.eq_dec d 0) as [->|N].
  - now rewrite !Z.add_0_r.
  - replace (i - 1 + d) with (i + (d - 1)) by lia.
    replace (j - 1 + d) with (j + (d - 1)) by lia. apply H6. lia.
Qed.

Lemma extend_right_sound (junk : bool) (n : nat) (best : Match) :
  sound sm alo ahi blo bhi best ->
  sound sm alo ahi blo bhi (extend_right sm ahi bhi junk n best).
Proof.
  revert best. induction n as [|n IH]; intros [[i j] k] H; cbn [extend_right];
    [assumption|].
  destruct ((i + k <? ahi) && (j + k <? bhi)
            && Bool.eqb (isbjunk sm (getitem (b sm) (j + k))) junk
            && elt_eqb (getitem (a sm) (i + k)) (getitem (b sm) (j + k))) eqn:E;
    [|assumption].
  apply IH. apply andb_true_iff in E. destruct E as [E E4].
  apply andb_true_iff in E. destruct E as [E _].
  apply andb_true_iff in E. destruct E as [E1 E2].
  apply Z.ltb_lt in E1, E2.
  destruct H as [H1 [H2 [H3 [H4 [H5 H6]]]]].
  unfold sound. repeat split; try lia.
  intros d Hd. destruct (Z.eq_dec d k) as [->|N]; [assumption|].
  apply H6. lia.
Qed.

Lemma find_longest_match_sound :
  alo <= ahi -> blo <= bhi ->
  sound sm alo ahi blo bhi (find_longest_match sm alo ahi blo bhi).
Proof.
  intros Ha Hb. unfold find_longest_match.
  apply extend_right_sound, extend_left_sound, extend_right_sound, extend_left_sound.
  pose proof (scan_rows_sound (Z.to_nat (ahi - alo)) Hb) as S.
  replace (alo + Z.of_nat (Z.to_nat (ahi - alo))) with ahi in S by lia.
  apply S. lia.
Qed.

End Sound.

(** ** The loop of [get_matching_blocks] *)

Lemma sound_wider (sm : SequenceMatcher) (la lb alo ahi blo bhi : Z) (m : Match) :
  in_order la lb (alo, ahi, blo, bhi) ->
  sound sm alo ahi blo bhi m -> sound sm 0 la 0 lb m.
Proof.
  destruct m as [[i j] k]. unfold in_order, sound.
  intros [A1 [A2 [A3 [B1 [B2 B3]]]]] [H1 [H2 [H3 [H4 [H5 H6]]]]].
  repeat split; try lia. exact H6.
Qed.

Lemma matching_loop_sound (sm : SequenceMatcher) (la lb : Z) :
  indexed sm ->
  forall (fuel : nat) (queue : list (Z * Z * Z * Z)) (blocks result : list Match),
    Forall (in_order la lb) queue ->
    Forall (sound sm 0 la 0 lb) blocks ->
    matching_loop sm fuel queue blocks = Some result ->
    Forall (sound sm 0 la 0 lb) result
    /\ total result <= total blocks + room_a queue
    /\ total result <= total blocks + room_b queue.
Proof.
  intros Hindex. induction fuel as [|fuel IH]; intros queue blocks result Q B H.
  - destruct queue as [|[[[alo ahi] blo] bhi] q]; [|discriminate].
    injection H as <-. cbn [room_a room_b]. repeat split; [assumption | lia | lia].
  - destruct queue as [|[[[alo ahi] blo] bhi] q].
    { injection H as <-. cbn [room_a room_b]. repeat split; [assumption | lia | lia]. }
    cbn [matching_loop] in H.
    pose proof (Forall_inv Q) as R. pose proof (Forall_inv_tail Q) as Q'.
    assert (R' := R). destruct R' as [A1 [A2 [A3 [B1 [B2 B3]]]]].
    pose proof (find_longest_match_sound sm alo ahi blo bhi Hindex A2 B2) as S.
    pose proof (sound_wider sm la lb alo ahi blo bhi _ R S) as W.
    destruct (find_longest_match sm alo ahi blo bhi) as [[i j] k].
    destruct S as [H1 [H2 [H3 [H4 [H5 H6]]]]].
    cbn [room_a room_b].
    destruct (Z.eqb_spec k 0) as [E|E].
    + destruct (IH q blocks result Q' B H) as [I1 [I2 I3]].
      repeat split; [assumption | lia | lia].
    + apply IH in H.
      * destruct H as [I1 [I2 I3]]. split; [assumption|].
        cbn [total] in I2, I3.
        destruct ((alo <? i) && (blo <? j)); destruct ((i + k <? ahi) && (j + k <? bhi));
          cbn [room_a room_b] in I2, I3; split; lia.
      * assert (L : Forall (in_order la lb)
                      (if (alo <? i) && (blo <? j) then (alo, i, blo, j) :: q else q)).
        { destruct ((alo <? i) && (blo <? j)); [|assumption].
          constructor; [|assumption]. unfold in_order. lia. }
        destruct ((i + k <? ahi) && (j + k <? bhi)); [|assumption].
        constructor; [|assumption]. unfold in_order. lia.
      * now constructor.
Qed.

(** ** The sort and the loop that collapses adjacent blocks *)

Lemma sum_sizes_fold (l : list Match) (acc : Z) :
  fold_left (fun acc '(_, _, k) => acc + k) l acc = acc + total l.
Proof.
  revert acc. induction l as [|[[i j] k] r IH]; intro acc; simpl; [lia|].
  rewrite IH. lia.
Qed.

Lemma sum_sizes_total (l : list Match) : sum_sizes l = total l.
Proof. unfold sum_sizes. now rewrite sum_sizes_fold. Qed.

Lemma total_app (l1 l2 : list Match) : total (l1 ++ l2) = total l1 + total l2.
Proof. induction l1 as [|[[i j] k] r IH]; simpl; [reflexivity | rewrite IH; lia]. Qed.

Lemma total_perm (l1 l2 : list Match) : Permutation l1 l2 -> total l1 = total l2.
Proof.
  induction 1 as [|[[i j] k] l1 l2 _ IH|[[i1 j1] k1] [[i2 j2] k2] l|l1 l2 l3 _ IH1 _ IH2];
    simpl; lia.
Qed.

Lemma insert_sorted_perm (x : Match) (l : list Match) :
  Permutation (insert_sorted x l) (x :: l).
Proof.
  induction l as [|y r IH]; simpl; [reflexivity|].
  destruct (match_ltb x y); [reflexivity|]. rewrite IH. apply perm_swap.
Qed.

Lemma sort_fold_blocks_perm (l acc : list Match) :
  Permutation (fold_left (fun acc x => insert_sorted x acc) l acc) (acc ++ l).
Proof.
  revert acc. induction l as [|x r IH]; intro acc; simpl.
  - now rewrite app_nil_r.
  - rewrite IH, insert_sorted_perm. apply Permutation_middle.
Qed.

Lemma sort_perm (l : list Match) : Permutation (sort l) l.
Proof. apply (sort_fold_blocks_perm l []). Qed.

Lemma sound_join (sm : SequenceMatcher) (la lb i1 j1 k1 i2 j2 k2 : Z) :
  sound sm 0 la 0 lb (i1, j1, k1) -> sound sm 0 la 0 lb (i2, j2, k2) ->
  i1 + k1 = i2 -> j1 + k1 = j2 ->
  sound sm 0 la 0 lb (i1, j1, k1 + k2).
Proof.
  intros [H1 [H2 [H3 [H4 [H5 H6]]]]] [G1 [G2 [G3 [G4 [G5 G6]]]]] Ei Ej.
  unfold sound. repeat split; try lia.
  intros d Hd. destruct (Z.lt_ge_cases d k1) as [L|L]; [apply H6; lia|].
  replace (i1 + d) with (i2 + (d - k1)) by lia.
  replace (j1 + d) with (j2 + (d - k1)) by lia. apply G6. lia.
Qed.

Lemma collapse_sound (sm : SequenceMatcher) (la lb : Z) (l : list Match) :
  0 <= la -> 0 <= lb ->
  Forall (sound sm 0 la 0 lb) l ->
  Forall (sound sm 0 la 0 lb) (collapse la lb l)
  /\ total (collapse la lb l) = total l.
Proof.
  intros Ha Hb H. unfold collapse.
  set (step := fun '(i1, j1, k1, non_adjacent) '(i2, j2, k2) =>
                 if (i1 + k1 =? i2) && (j1 + k1 =? j2)
                 then (i1, j1, k1 + k2, non_adjacent)
                 else (i2, j2, k2,
                       if k1 =? 0 then non_adjacent
                       else non_adjacent ++ [(i1, j1, k1)])).
  assert (G : forall l (st : Z * Z * Z * list Match),
             Forall (sound sm 0 la 0 lb) l ->
             (let '(i1, j1, k1, na) := st in
              sound sm 0 la 0 lb (i1, j1, k1) /\ Forall (sound sm 0 la 0 lb) na) ->
             let '(i1, j1, k1, na) := fold_left step l st in
             sound sm 0 la 0 lb (i1, j1, k1) /\ Forall (sound sm 0 la 0 lb) na
             /\ total na + k1
                = (let '(_, _, k0, na0) := st in total na0 + k0) + total l).
  { clear l H. induction l as [|[[i2 j2] k2] r IH]; intros [[[i1 j1] k1] na] Hl [S N].
    - cbn [fold_left total]. split; [assumption | split; [assumption | lia]].
    - cbn [fold_left]. pose proof (Forall_inv Hl) as S2.
      pose proof (Forall_inv_tail Hl) as Hr.
      unfold step at 2.
      destruct ((i1 + k1 =? i2) && (j1 + k1 =? j2)) eqn:E.
      + apply andb_true_iff in E. destruct E as [E1 E2].
        apply Z.eqb_eq in E1, E2.
        specialize (IH (i1, j1, k1 + k2, na) Hr
                      (conj (sound_join sm la lb _ _ _ _ _ _ S S2 E1 E2) N)).
        match goal with
        | |- context [fold_left step r ?X] =>
            match type of IH with
            | context [fold_left step r ?Y] => change Y with X in IH
            end
        end.
        destruct (fold_left step r _) as [[[i3 j3] k3] na3].
        cbv beta iota zeta in IH. destruct IH as [I1 [I2 I3]]. split; [assumption | split; [assumption|]].
        cbn [total]. lia.
      + assert (N' : Forall (sound sm 0 la 0 lb)
                       (if k1 =? 0 then na else na ++ [(i1, j1, k1)])).
        { destruct (k1 =? 0); [assumption|]. apply Forall_app. split; [assumption|].
          now constructor. }
        specialize (IH (i2, j2, k2, if k1 =? 0 then na else na ++ [(i1, j1, k1)]) Hr
                      (conj S2 N')).
        match goal with
        | |- context [fold_left step r ?X] =>
            match type of IH with
            | context [fold_left step r ?Y] => change Y with X in IH
            end
        end.
        destruct (fold_left step r _) as [[[i3 j3] k3] na3].
        cbv beta iota zeta in IH. destruct IH as [I1 [I2 I3]]. split; [assumption | split; [assumption|]].
        cbn [total]. rewrite I3.
        destruct (Z.eqb_spec k1 0) as [->|_]; [lia|].
        rewrite total_app. cbn [total]. lia. }
  assert (S0 : sound sm 0 la 0 lb (0, 0, 0)).
  { unfold sound. repeat split; try lia. }
  specialize (G l (0, 0, 0, []) H (conj S0 (Forall_nil _))).
  fold step.
  match goal with
  | |- context [fold_left step l ?X] =>
      match type of G with
      | context [fold_left step l ?Y] => change Y with X in G
      end
  end.
  destruct (fold_left step l _) as [[[i1 j1] k1] na].
  cbv beta iota zeta in G. destruct G as [G1 [G2 G3]]. cbn [total] in G3.
  assert (SL : sound sm 0 la 0 lb (la, lb, 0)).
  { unfold sound. repeat split; try lia. }
  split.
  - apply Forall_app. split; [|now constructor].
    destruct (k1 =? 0); [assumption|]. apply Forall_app. split; [assumption|].
    now constructor.
  - rewrite total_app. cbn [total].
    destruct (Z.eqb_spec k1 0) as [E|_]; [lia|].
    rewrite total_app. cbn [total]. lia.
Qed.

(** The blocks that [get_matching_blocks] returns for two sequences are
    sound, and their sizes add up to no more than the length of either. *)
Lemma get_matching_blocks_sound (sa sb : list ascii) :
  Forall (sound (new sa sb) 0 (len sa) 0 (len sb)) (get_matching_blocks (new sa sb))
  /\ 0 <= total (get_matching_blocks (new sa sb)) <= Z.min (len sa) (len sb).
Proof.
  unfold get_matching_blocks.
  destruct (IndexFacts.new_fields sa sb) as [Fa [Fb _]]. rewrite Fa, Fb.
  assert (La : 0 <= len sa) by (unfold len; lia).
  assert (Lb : 0 <= len sb) by (unfold len; lia).
  assert (R : exists raw,
             match matching_loop (new sa sb) (enough_fuel (new sa sb))
                     [(0, len sa, 0, len sb)] [] with
             | Some blocks => rev blocks
             | None => []
             end = raw
             /\ Forall (sound (new sa sb) 0 (len sa) 0 (len sb)) raw
             /\ total raw <= len sa /\ total raw <= len sb).
  { destruct (matching_loop (new sa sb) (enough_fuel (new sa sb))
                [(0, len sa, 0, len sb)] []) as [blocks|] eqn:E.
    - exists (rev blocks). split; [reflexivity|].
      apply (matching_loop_sound (new sa sb) (len sa) (len sb) (indexed_new sa sb)) in E.
      + destruct E as [E1 [E2 E3]]. cbn [total room_a room_b] in E2, E3.
        split; [now apply Forall_rev|].
        rewrite (total_perm _ _ (Permutation_sym (Permutation_rev blocks))). lia.
      + constructor; [|constructor]. unfold in_order. lia.
      + constructor.
    - exists []. repeat split; try constructor; cbn [total]; lia. }
  destruct R as [raw [-> [R1 [R2 R3]]]].
  assert (S : Forall (sound (new sa sb) 0 (len sa) 0 (len sb)) (sort raw)).
  { apply (Permutation_Forall (Permutation_sym (sort_perm raw))). exact R1. }
  destruct (collapse_sound (new sa sb) (len sa) (len sb) (sort raw) La Lb S) as [C1 C2].
  split; [exact C1|]. rewrite C2, (total_perm _ _ (sort_perm raw)).
  split; [|lia].
  clear - R1. induction R1 as [|[[i j] k] r H _ IH]; cbn [total]; [lia|].
  destruct H as [H _]. lia.
Qed.

End BlockFacts.

(* ################################################################# *)
(** * Characters in common *)

Module CommonFacts.
Import Difflib Props.

Lemma elt_eqb_true (u v : option ascii) :
  elt_eqb u v = true -> exists c, u = Some c /\ v = Some c.
Proof.
  destruct u as [c|], v as [d|]; simpl; try discriminate.
  intro H. apply IndexFacts.ascii_eqb_eq in H. subst d. now exists c.
Qed.

Lemma getitem_In (s : list ascii) (i : Z) (c : ascii) : getitem s i = Some c -> In c s.
Proof.
  unfold getitem. destruct (i <? 0); [discriminate|]. apply nth_error_In.
Qed.

Lemma len_chars_lower (x : string) :
  len (list_ascii_of_string (PyStr.lower x)) = PyStr.len x.
Proof.
  unfold len, PyStr.len.
  now rewrite SimilarityFacts.length_chars, SimilarityFacts.length_lower.
Qed.

(** The similarity of two strings, by the blocks of their lowered forms. *)
Lemma similarity_by_blocks (x y : string) :
  Main.similarity x y
  = calculate_ratio
      (total (get_matching_blocks
                (new (list_ascii_of_string (PyStr.lower x))
                     (list_ascii_of_string (PyStr.lower y)))))
      (PyStr.len x + PyStr.len y).
Proof.
  unfold Main.similarity, ratio.
  rewrite BlockFacts.sum_sizes_total.
  rewrite (proj1 (IndexFacts.new_fields _ _)), (proj1 (proj2 (IndexFacts.new_fields _ _))).
  now rewrite !len_chars_lower.
Qed.

Lemma total_none (sm : SequenceMatcher) (la lb : Z) (l : list Match) :
  Forall (sound sm 0 la 0 lb) l ->
  (forall i j k, In (i, j, k) l -> k <= 0) ->
  total l = 0.
Proof.
  induction 1 as [|[[i j] k] r H _ IH]; intro N; cbn [total]; [reflexivity|].
  rewrite IH by (intros i' j' k' Hin; apply (N i' j' k'); now right).
  destruct H as [H _]. specialize (N i j k (or_introl eq_refl)). lia.
Qed.

End CommonFacts.

(* ################################################################# *)
(** * Scores that are numbers *)

Module NumberFacts.
Import PyFloat Props.

Lemma shr_1_nonneg (r : shr_record) : 0 <= shr_m r -> 0 <= shr_m (shr_1 r).
Proof.
  intro H. rewrite RoundFacts.shr_1_m by assumption. now apply Z.div_pos.
Qed.

Lemma shr_iter_nonneg (k : nat) (r : shr_record) :
  0 <= shr_m r -> 0 <= shr_m (Nat.iter k shr_1 r).
Proof.
  induction k as [|k IH]; intro H; simpl; [assumption|].
  apply shr_1_nonneg. now apply IH.
Qed.

Lemma shr_fexp_nonneg (m e : Z) (l : location) :
  0 <= m -> 0 <= shr_m (fst (shr_fexp prec emax m e l)).
Proof.
  intro H. unfold shr_fexp, shr.
  assert (R : 0 <= shr_m (shr_record_of_loc m l)) by (destruct l as [|[]]; exact H).
  destruct (fexp prec emax (Zdigits2 m + e) - e) as [|p|p]; cbn [fst]; try assumption.
  rewrite RoundFacts.iter_pos_nat. now apply shr_iter_nonneg.
Qed.

Lemma round_nearest_even_nonneg (m : Z) (l : location) :
  0 <= m -> 0 <= round_nearest_even m l.
Proof.
  intro H. unfold round_nearest_even. destruct l as [|[]]; try assumption; try lia.
  destruct (Z.even m); lia.
Qed.

(** Rounding a mantissa that is not negative never gives NaN. *)
Lemma round_number (s : bool) (m e : Z) (l : location) :
  0 <= m -> is_number (binary_round_aux prec emax s m e l) = true.
Proof.
  intro H. unfold binary_round_aux.
  pose proof (shr_fexp_nonneg m e l H) as H1.
  destruct (shr_fexp prec emax m e l) as [mrs' e']. cbn [fst] in H1.
  pose proof (shr_fexp_nonneg
                (round_nearest_even (shr_m mrs') (loc_of_shr_record mrs')) e' loc_Exact
                (round_nearest_even_nonneg _ _ H1)) as H2.
  destruct (shr_fexp prec emax _ e' loc_Exact) as [mrs'' e'']. cbn [fst] in H2.
  destruct (shr_m mrs'') as [|p|p]; [reflexivity | | lia].
  now destruct (e'' <=? emax - prec).
Qed.

Lemma of_int_number (n : Z) : is_number (of_int n) = true.
Proof.
  unfold of_int, binary_normalize. destruct n as [|p|p]; [reflexivity| |];
    unfold binary_round;
    destruct (shl_align _ _ _) as [mz ez]; now apply round_number.
Qed.

Lemma mul_number (x : float) (s : bool) (m : positive) (e : Z) :
  is_number x = true -> is_number (mul x (S754_finite s m e)) = true.
Proof.
  destruct x as [sx|sx| |sx mx ex]; try discriminate; try reflexivity.
  intros _. unfold mul, SFmul. now apply round_number.
Qed.

Lemma div_number (x : float) (m : positive) (e : Z) :
  is_number x = true -> is_number (div x (S754_finite false m e)) = true.
Proof.
  destruct x as [sx|sx| |sx mx ex]; try discriminate; try reflexivity.
  intros _. unfold div, SFdiv, SFdiv_core_binary.
  set (s := ex - e - Z.min (fexp prec emax (Zdigits2 (Zpos mx) + ex - (Zdigits2 (Zpos m) + e)))
                       (ex - e)).
  set (m' := match s with Zpos _ => Z.shiftl (Zpos mx) s | Z0 => Zpos mx | Zneg _ => 0 end).
  assert (M : 0 <= m').
  { subst m'. destruct s as [|p|p]; try lia. apply Z.shiftl_nonneg. lia. }
  pose proof (Z_div_mod m' (Zpos m) ltac:(lia)) as D.
  destruct (Z.div_eucl m' (Zpos m)) as [q r]. destruct D as [D1 D2].
  apply round_number. nia.
Qed.

Lemma max_number (x y : float) :
  is_number x = true -> is_number y = true -> is_number (max x y) = true.
Proof. intros Hx Hy. unfold max. now destruct (gt y x). Qed.

Lemma calculate_ratio_number (matches length : Z) :
  0 <= length < 2 ^ 1021 ->
  is_number (Difflib.calculate_ratio matches length) = true.
Proof.
  intros [H1 H2]. unfold Difflib.calculate_ratio.
  destruct (Z.eqb_spec length 0) as [E|E]; [reflexivity|].
  destruct length as [|p|p]; [lia| |lia].
  assert (D : Zpos (digits2_pos p) <= 1022).
  { pose proof (RoundFacts.digits2_bounds p) as [B1 _].
    destruct (Z.le_gt_cases (Zpos (digits2_pos p)) 1022) as [L|L]; [assumption|].
    assert (2 ^ 1021 <= 2 ^ (Zpos (digits2_pos p) - 1)) by (apply Z.pow_le_mono_r; lia).
    lia. }
  destruct (RoundFacts.of_int_double p D) as [m [e [E1 _]]]. rewrite E1.
  apply div_number. rewrite PyFloatFacts.mul_comm. apply mul_number, of_int_number.
Qed.

(** The similarity of two strings of lengths that CPython allows is a number. *)
Lemma similarity_number (x y : string) :
  PyStr.len x <= PyStr.maxsize -> PyStr.len y <= PyStr.maxsize ->
  is_number (Main.similarity x y) = true.
Proof.
  intros Lx Ly. rewrite CommonFacts.similarity_by_blocks.
  apply calculate_ratio_number.
  assert (2 ^ 64 <= 2 ^ 1021) by (apply Z.pow_le_mono_r; lia).
  unfold PyStr.len, PyStr.maxsize in *. lia.
Qed.

(** What is above a bound is above every number that is not above it. *)
Lemma gt_above (x bound y : float) :
  gt x bound = true -> gt y bound = false -> is_number y = true -> gt x y = true.
Proof.
  unfold gt, SFltb.
  destruct x as [[]|[]| |[] mx ex], bound as [[]|[]| |[] mb eb],
    y as [[]|[]| |[] my ey]; simpl; try discriminate; try reflexivity;
    change (Pos.compare_cont Eq) with Pos.compare;
    intros H1 H2 _; PyFloatFacts.compare_cases; simpl in *;
    try discriminate; try reflexivity; try lia.
Qed.

End NumberFacts.

(* ################################################################# *)
(** * The best match as an entry of the table *)

Module SettledFacts.
Import Net PyFloat Props NumberFacts.

Lemma get_key {V : Type} (d : PyDict.dict string V) (k : string) (v : V) :
  PyDict.get String.eqb d k = Some v -> In k (PyDict.keys d).
Proof.
  intro H. apply (in_map fst _ (k, v)).
  now apply (PyDictFacts.get_Some_In String.eqb TableFacts.string_eqb_eq).
Qed.

Lemma get_set_new {V : Type} (d : PyDict.dict string V) (k : string) (v : V) :
  PyDict.get String.eqb (PyDict.set String.eqb d k v) k = Some v.
Proof. apply PyDictFacts.get_set_same, TableFacts.string_eqb_eq. Qed.

Lemma get_set_old {V : Type} (d : PyDict.dict string V) (k k' : string) (v : V) :
  k' <> k -> PyDict.get String.eqb (PyDict.set String.eqb d k v) k' = PyDict.get String.eqb d k'.
Proof. apply PyDictFacts.get_set_other, TableFacts.string_eqb_eq. Qed.

Lemma settled_numbers_set (all : PyDict.dict string Main.Candidate) code title score source :
  (forall c t s src, In (c, (t, s, src)) all -> is_number s = true) ->
  is_number score = true ->
  forall c t s src,
    In (c, (t, s, src)) (PyDict.set String.eqb all code (title, score, source)) ->
    is_number s = true.
Proof.
  intros H N c t s src Hin. apply BestFacts.In_set in Hin.
  destruct Hin as [Hin|Hin]; [now apply (H c t s src)|]. now injection Hin as _ _ -> _.
Qed.

(** A candidate whose code is not yet in the table, as the candidates of the
    term query are when no code comes twice. *)
Lemma main_new_code_settled (code title source : string) (score : float)
    (vars : Main.Locals) :
  settled vars -> is_number score = true ->
  ~ In code (PyDict.keys (Main.all_candidates vars)) ->
  settled
    (Main.update_best code title source score
       (PyDict.set String.eqb (Main.all_candidates vars) code (title, score, source)) vars).
Proof.
  intros [Hn [Hb Hm]] N Hk. unfold settled, Main.update_best.
  destruct (gt score (Main.best_overall_score vars)); cbn.
  - split; [now apply settled_numbers_set|]. split; [assumption | apply get_set_new].
  - split; [now apply settled_numbers_set|]. split; [assumption|].
    destruct (Main.best_overall_match vars) as [[[c t] s]|]; [|exact I].
    rewrite get_set_old; [assumption|].
    intros ->. apply Hk. now apply get_key in Hm.
Qed.

(** A candidate of a keyword query or of a symptom query, which enters the
    table when its code is new or its score greater than the one stored. *)
Lemma main_guarded_settled (code title source : string) (score : float)
    (vars : Main.Locals) :
  Props.tracked vars -> settled vars -> is_number score = true ->
  settled
    (Main.update_best code title source score
       (if Main.improves (Main.all_candidates vars) code score
        then PyDict.set String.eqb (Main.all_candidates vars) code (title, score, source)
        else Main.all_candidates vars) vars).
Proof.
  intros [_ [Hmax _]] [Hn [Hb Hm]] N. unfold settled, Main.update_best.
  destruct (Main.improves (Main.all_candidates vars) code score) eqn:Im.
  - destruct (gt score (Main.best_overall_score vars)) eqn:G; cbn.
    + split; [now apply settled_numbers_set|]. split; [assumption | apply get_set_new].
    + split; [now apply settled_numbers_set|]. split; [assumption|].
      destruct (Main.best_overall_match vars) as [[[c t] s]|]; [|exact I].
      destruct (String.eqb_spec c code) as [->|Ne]; [|now rewrite get_set_old].
      unfold Main.improves in Im. rewrite Hm, G in Im. discriminate.
  - unfold Main.improves in Im.
    destruct (PyDict.get String.eqb (Main.all_candidates vars) code)
      as [[[t0 s0] src0]|] eqn:E; [|discriminate].
    apply (PyDictFacts.get_Some_In String.eqb TableFacts.string_eqb_eq) in E.
    destruct (gt score (Main.best_overall_score vars)) eqn:G; cbn.
    + rewrite (gt_above score (Main.best_overall_score vars) s0 G
                 (Hmax _ _ _ _ E) (Hn _ _ _ _ E)) in Im.
      discriminate.
    + split; [assumption|]. split; assumption.
Qed.

Lemma main_keyword_candidate_settled term keyword vars c :
  PyStr.len term <= PyStr.maxsize -> PyStr.len keyword <= PyStr.maxsize ->
  PyStr.len (get_or_empty (title c)) <= PyStr.maxsize ->
  Props.tracked vars -> settled vars ->
  settled (Main.keyword_candidate term keyword vars c).
Proof.
  intros Lt Lk Lc T S. unfold Main.keyword_candidate.
  apply main_guarded_settled; [assumption | assumption|].
  apply max_number; [now apply similarity_number|].
  apply mul_number. now apply similarity_number.
Qed.

Lemma main_symptom_candidate_settled phrase vars c :
  PyStr.len phrase <= PyStr.maxsize ->
  PyStr.len (get_or_empty (title c)) <= PyStr.maxsize ->
  Props.tracked vars -> settled vars ->
  settled (Main.symptom_candidate phrase vars c).
Proof.
  intros Lp Lc T S. unfold Main.symptom_candidate.
  apply main_guarded_settled; [assumption | assumption|].
  apply mul_number. now apply similarity_number.
Qed.

(** A loop over candidates keeps [tracked] and [settled] together. *)
Lemma fold_settled (step : Main.Locals -> Entity -> Main.Locals) (cands : list Entity) :
  (forall vars c, In c cands -> Props.tracked vars -> Props.tracked (step vars c)) ->
  (forall vars c, In c cands -> Props.tracked vars -> settled vars -> settled (step vars c)) ->
  forall vars,
    Props.tracked vars -> settled vars ->
    Props.tracked (fold_left step cands vars) /\ settled (fold_left step cands vars).
Proof.
  induction cands as [|c r IH]; intros HT HS vars T S; simpl; [now split|].
  apply IH.
  - intros v c' Hc. apply HT. now right.
  - intros v c' Hc. apply HS. now right.
  - apply HT; [now left | assumption].
  - apply HS; [now left | assumption | assumption].
Qed.

Lemma keys_term_candidate term vars c :
  PyDict.keys (Main.all_candidates (Main.term_candidate term vars c))
  = if PyDict.has String.eqb (Main.all_candidates vars) (get_or_empty (theCode c))
    then PyDict.keys (Main.all_candidates vars)
    else PyDict.keys (Main.all_candidates vars) ++ [get_or_empty (theCode c)].
Proof.
  unfold Main.term_candidate. rewrite TableFacts.main_update_best_table.
  apply PyDictFacts.keys_set.
Qed.

(** The loop over the candidates of the term query, when no code comes twice. *)
Lemma term_fold_settled (term : string) (cands : list Entity) :
  PyStr.len term <= PyStr.maxsize ->
  (forall c, In c cands -> PyStr.len (get_or_empty (title c)) <= PyStr.maxsize) ->
  NoDup (map (fun c => get_or_empty (theCode c)) cands) ->
  forall vars,
    (forall c, In c cands ->
       ~ In (get_or_empty (theCode c)) (PyDict.keys (Main.all_candidates vars))) ->
    settled vars -> settled (fold_left (Main.term_candidate term) cands vars).
Proof.
  intros Lt. induction cands as [|c r IH]; intros Lc ND vars Hk S; simpl; [assumption|].
  inversion ND as [|x l Hx Hl]; subst.
  apply IH.
  - intros c' Hc. apply Lc. now right.
  - assumption.
  - intros c' Hc. rewrite keys_term_candidate.
    assert (Old : ~ In (get_or_empty (theCode c'))
                    (PyDict.keys (Main.all_candidates vars)))
      by (apply Hk; now right).
    destruct (PyDict.has String.eqb (Main.all_candidates vars) (get_or_empty (theCode c)));
      [assumption|].
    intro H. apply in_app_or in H. destruct H as [H|[H|[]]]; [now apply Old|].
    apply Hx. rewrite H. now apply (in_map (fun c => get_or_empty (theCode c))).
  - unfold Main.term_candidate. apply main_new_code_settled; [assumption| |].
    + apply similarity_number; [assumption|]. apply Lc. now left.
    + apply Hk. now left.
Qed.

Lemma main_run_queries_settled term def remote token st vars st' :
  PyStr.len term <= PyStr.maxsize -> PyStr.len def <= PyStr.maxsize ->
  (forall h t q cands c,
      search_endpoint remote h t q = Ok cands -> In c cands ->
      PyStr.len (get_or_empty (title c)) <= PyStr.maxsize) ->
  (forall cands,
      search_endpoint remote (requests st) token term = Ok cands ->
      NoDup (map (fun c => get_or_empty (theCode c)) cands)) ->
  Main.run_queries term def remote token st = (Ok vars, st') ->
  settled vars.
Proof.
  intros Lt Ld Lc ND. unfold Main.run_queries. intro H.
  unfold bind at 1 in H. unfold search_icd at 1 in H.
  destruct (search_endpoint remote (requests st) token term) as [cands|msg] eqn:E0;
    [|discriminate].
  unfold bind at 1 in H.
  match type of H with
  | context [match ?c ?s with _ => _ end] => destruct (c s) as [[vars1|msg] st2] eqn:E1
  end; [|discriminate].
  set (P := fun v => Props.tracked v /\ settled v).
  assert (I0 : P {| Main.all_candidates := []; Main.best_overall_match := None;
                    Main.best_overall_score := f0_0 |}).
  { split.
    - unfold Props.tracked. simpl. repeat split. intros ? ? ? ? [].
    - unfold settled. simpl. repeat split. intros ? ? ? ? []. }
  assert (P0 : P match cands with
                 | [] =>
                     {| Main.all_candidates := []; Main.best_overall_match := None;
                        Main.best_overall_score := f0_0 |}
                 | _ :: _ =>
                     fold_left (Main.term_candidate term) cands
                       {| Main.all_candidates := []; Main.best_overall_match := None;
                          Main.best_overall_score := f0_0 |}
                 end).
  { destruct cands as [|c0 cs] eqn:Ec; [exact I0|]. rewrite <- Ec in *. split.
    - apply (TableFacts.fold_left_invariant Props.tracked); [|exact (proj1 I0)].
      intros; now apply BestFacts.main_term_candidate_tracked.
    - apply term_fold_settled; try assumption.
      + intros c Hc. now apply (Lc _ _ _ _ c E0).
      + now apply ND.
      + intros c Hc [].
      + exact (proj2 I0). }
  assert (Body2 : forall keyword, PyStr.len keyword <= PyStr.maxsize ->
            forall acc s r s',
              P acc ->
              (candidates <- search_icd remote keyword token ;;
               ret (fold_left (Main.keyword_candidate term keyword) candidates acc)) s
              = (Ok r, s') -> P r).
  { intros keyword Lk acc s r s' [T S] Hb. unfold bind, ret, search_icd in Hb.
    destruct (search_endpoint remote (requests s) token keyword) as [cs|msg] eqn:Es;
      [|discriminate].
    injection Hb as <- _. apply fold_settled; try assumption.
    - intros; now apply BestFacts.main_keyword_candidate_tracked.
    - intros v c Hc Tv Sv. apply main_keyword_candidate_settled; try assumption.
      now apply (Lc _ _ _ _ c Es). }
  assert (Body3 : forall phrase, PyStr.len phrase <= PyStr.maxsize ->
            forall acc s r s',
              P acc ->
              (candidates <- search_icd remote phrase token ;;
               ret (fold_left (Main.symptom_candidate phrase) candidates acc)) s
              = (Ok r, s') -> P r).
  { intros phrase Lp acc s r s' [T S] Hb. unfold bind, ret, search_icd in Hb.
    destruct (search_endpoint remote (requests s) token phrase) as [cs|msg] eqn:Es;
      [|discriminate].
    injection Hb as <- _. apply fold_settled; try assumption.
    - intros; now apply BestFacts.main_symptom_candidate_tracked.
    - intros v c Hc Tv Sv. apply main_symptom_candidate_settled; try assumption.
      now apply (Lc _ _ _ _ c Es). }
  assert (P1 : P vars1).
  { destruct (PyStr.nonempty (PyStr.strip def)).
    - revert E1. apply (ScoreFacts.for_each_invariant_in P); [|exact P0].
      intros acc x s r s' Hx Hacc Hb.
      apply (Body2 x (proj2 (ZeroFacts.main_keyword_length def x Ld Hx)) acc s r s' Hacc Hb).
    - injection E1 as <- _. exact P0. }
  assert (P2 : P vars).
  { revert H. apply (ScoreFacts.for_each_invariant_in P); [|exact P1].
    intros acc x s r s' Hx Hacc Hb.
    apply (Body3 x (proj2 (ZeroFacts.symptom_phrase_length x Hx)) acc s r s' Hacc Hb). }
  exact (proj2 P2).
Qed.

End SettledFacts.

(* ################################################################# *)
(** * Entries kept or raised *)

Module RaiseFacts.
Import Net PyFloat Props.

Lemma kept_or_raised_refl (e : string * float * string) : kept_or_raised e e.
Proof. now left. Qed.

Lemma kept_or_raised_trans (e1 e2 e3 : string * float * string) :
  kept_or_raised e1 e2 -> kept_or_raised e2 e3 -> kept_or_raised e1 e3.
Proof.
  intros [->|H1] [->|H2]; [now left | now right | now right|].
  right. now apply (PyFloatFacts.gt_trans _ (score_of e2)).
Qed.

(** An assignment made when the code is new or the score greater. *)
Lemma guarded_set_raises (all : PyDict.dict string Main.Candidate)
    (code_c title_c source_c : string) (score_c : float) (code : string)
    (old : Main.Candidate) :
  PyDict.get String.eqb all code = Some old ->
  exists new,
    PyDict.get String.eqb
      (if Main.improves all code_c score_c
       then PyDict.set String.eqb all code_c (title_c, score_c, source_c)
       else all) code = Some new
    /\ kept_or_raised old new.
Proof.
  intro G. destruct (Main.improves all code_c score_c) eqn:I.
  - destruct (String.eqb_spec code code_c) as [->|N].
    + exists (title_c, score_c, source_c). split; [apply SettledFacts.get_set_new|].
      right. unfold Main.improves in I. rewrite G in I.
      destruct old as [[t s] src]. exact I.
    + exists old. split; [now rewrite SettledFacts.get_set_old | apply kept_or_raised_refl].
  - exists old. split; [assumption | apply kept_or_raised_refl].
Qed.

Lemma main_keyword_candidate_raises term keyword vars c code old :
  PyDict.get String.eqb (Main.all_candidates vars) code = Some old ->
  exists new,
    PyDict.get String.eqb
      (Main.all_candidates (Main.keyword_candidate term keyword vars c)) code = Some new
    /\ kept_or_raised old new.
Proof.
  intro G. unfold Main.keyword_candidate. rewrite TableFacts.main_update_best_table.
  now apply guarded_set_raises.
Qed.

Lemma main_symptom_candidate_raises phrase vars c code old :
  PyDict.get String.eqb (Main.all_candidates vars) code = Some old ->
  exists new,
    PyDict.get String.eqb
      (Main.all_candidates (Main.symptom_candidate phrase vars c)) code = Some new
    /\ kept_or_raised old new.
Proof.
  intro G. unfold Main.symptom_candidate. rewrite TableFacts.main_update_best_table.
  now apply guarded_set_raises.
Qed.

Lemma sample_keyword_candidate_raises term keyword
    (all : PyDict.dict string Sample.Candidate) c code old :
  PyDict.get String.eqb all code = Some old ->
  exists new,
    PyDict.get String.eqb (Sample.keyword_candidate term keyword all c) code = Some new
    /\ kept_or_raised old new.
Proof.
  intro G. unfold Sample.keyword_candidate.
  destruct (PyStr.nonempty (get_or_empty (title c))
            && PyStr.nonempty (get_or_empty (theCode c)));
    [|exists old; split; [assumption | apply kept_or_raised_refl]].
  cbv zeta.
  set (score := max (Sample.similarity term (get_or_empty (title c)))
                  (mul (Sample.similarity keyword (get_or_empty (title c))) f0_8)).
  pose proof (guarded_set_raises all (get_or_empty (theCode c)) (get_or_empty (title c))
                ("keyword: " ++ keyword)%string score code old G) as R.
  unfold Main.improves in R.
  match goal with
  | |- context [match ?g with Some _ => _ | None => _ end] =>
      match type of R with
      | context [match ?g' with Some _ => _ | None => _ end] => change g' with g in R
      end;
      destruct g as [[[t s] src]|]
  end; exact R.
Qed.

(** A loop whose steps keep or raise an entry keeps or raises it. *)
Lemma fold_raises {B : Type} (table : B -> PyDict.dict string Main.Candidate)
    (step : B -> Entity -> B) (code : string) :
  (forall acc c old,
      PyDict.get String.eqb (table acc) code = Some old ->
      exists new,
        PyDict.get String.eqb (table (step acc c)) code = Some new
        /\ kept_or_raised old new) ->
  forall cands acc old,
    PyDict.get String.eqb (table acc) code = Some old ->
    exists new,
      PyDict.get String.eqb (table (fold_left step cands acc)) code = Some new
      /\ kept_or_raised old new.
Proof.
  intro Hstep. induction cands as [|c r IH]; intros acc old G; simpl.
  - exists old. split; [assumption | apply kept_or_raised_refl].
  - destruct (Hstep acc c old G) as [mid [G1 K1]].
    destruct (IH (step acc c) mid G1) as [new [G2 K2]].
    exists new. split; [assumption | now apply (kept_or_raised_trans old mid new)].
Qed.

End RaiseFacts.

(* ################################################################# *)
(** * What each search contributes to the table *)

Module ContributionFacts.
Import Net Props.

Lemma all_found_nil (remote : Remote) (token : string) (before : list request)
    (P : Entity -> Prop) :
  all_found remote token before [] P.
Proof. intros done q rest H. now destruct done. Qed.

Lemma all_found_cons (remote : Remote) (token : string) (before : list request)
    (q : string) (plan : list string) (P : Entity -> Prop) (cands : list Entity) :
  search_endpoint remote before token q = Ok cands ->
  (forall c, In c cands -> P c) ->
  all_found remote token (before ++ [SearchRequest token q]) plan P ->
  all_found remote token before (q :: plan) P.
Proof.
  intros H0 HP Ht done q' rest E. destruct done as [|x done].
  - injection E as <- _. exists cands. simpl. rewrite app_nil_r. now split.
  - injection E as <- E. destruct (Ht done q' rest E) as [cs [H1 H2]].
    exists cs. split; [|assumption]. simpl. now rewrite <- app_assoc in H1.
Qed.

Lemma all_found_tail (remote : Remote) (token : string) (before : list request)
    (q : string) (plan : list string) (P : Entity -> Prop) :
  all_found remote token before (q :: plan) P ->
  (exists cands,
      search_endpoint remote before token q = Ok cands /\ forall c, In c cands -> P c)
  /\ all_found remote token (before ++ [SearchRequest token q]) plan P.
Proof.
  intro H. split.
  - destruct (H [] q plan eq_refl) as [cs [H1 H2]]. exists cs.
    simpl in H1. rewrite app_nil_r in H1. now split.
  - intros done q' rest E. destruct (H (q :: done) q' rest) as [cs [H1 H2]].
    + now rewrite E.
    + exists cs. split; [|assumption]. simpl in H1. now rewrite <- app_assoc.
Qed.

Lemma all_found_app (remote : Remote) (token : string) (P : Entity -> Prop)
    (l1 l2 : list string) :
  forall before,
    all_found remote token before l1 P ->
    all_found remote token (before ++ map (SearchRequest token) l1) l2 P ->
    all_found remote token before (l1 ++ l2) P.
Proof.
  induction l1 as [|x r IH]; intros before H1 H2.
  - simpl in H2. now rewrite app_nil_r in H2.
  - apply all_found_tail in H1. destruct H1 as [[cs [A B]] T].
    simpl. apply (all_found_cons remote token before x (r ++ l2) P cs A B).
    apply IH; [assumption|]. simpl in H2. now rewrite <- app_assoc.
Qed.

Lemma all_found_weaken (remote : Remote) (token : string) (before : list request)
    (plan : list string) (P Q : Entity -> Prop) :
  (forall c, P c -> Q c) ->
  all_found remote token before plan P -> all_found remote token before plan Q.
Proof.
  intros W H done q rest E. destruct (H done q rest E) as [cs [H1 H2]].
  exists cs. split; [assumption|]. intros c Hc. now apply W, H2.
Qed.

(** A loop over candidates whose steps never remove a code, and put in the
    code of a candidate they accept, leaves the codes that were there and
    those of the candidates accepted. *)
Lemma fold_contributes {B V : Type} (table : B -> PyDict.dict string V)
    (step : B -> Entity -> B) (accepted : Entity -> Prop) :
  (forall acc c k, In k (PyDict.keys (table acc)) -> In k (PyDict.keys (table (step acc c)))) ->
  (forall acc c, accepted c ->
     In (get_or_empty (theCode c)) (PyDict.keys (table (step acc c)))) ->
  forall cands acc,
    (forall k, In k (PyDict.keys (table acc)) ->
               In k (PyDict.keys (table (fold_left step cands acc))))
    /\ forall c, In c cands -> accepted c ->
         In (get_or_empty (theCode c)) (PyDict.keys (table (fold_left step cands acc))).
Proof.
  intros Hkeep Hin. induction cands as [|c0 r IH]; intro acc; simpl.
  - split; [tauto | intros c []].
  - destruct (IH (step acc c0)) as [K C]. split.
    + intros k Hk. now apply K, Hkeep.
    + intros c [<-|Hc] A; [now apply K, Hin | now apply C].
Qed.

(** A loop that makes one search for each string of a list and runs such a
    loop over the candidates of each. *)
Lemma for_each_contributes {B V : Type} (table : B -> PyDict.dict string V)
    (step : string -> B -> Entity -> B) (accepted : Entity -> Prop)
    (remote : Remote) (token : string) :
  (forall q acc c k,
      In k (PyDict.keys (table acc)) -> In k (PyDict.keys (table (step q acc c)))) ->
  (forall q acc c, accepted c ->
     In (get_or_empty (theCode c)) (PyDict.keys (table (step q acc c)))) ->
  forall (l : list string) (acc : B) (st : State) (out : B) (st' : State),
    for_each l acc
      (fun acc q =>
         candidates <- search_icd remote q token ;; ret (fold_left (step q) candidates acc))
      st
    = (Ok out, st') ->
    (forall k, In k (PyDict.keys (table acc)) -> In k (PyDict.keys (table out)))
    /\ all_found remote token (requests st) l
         (fun c => accepted c -> In (get_or_empty (theCode c)) (PyDict.keys (table out))).
Proof.
  intros Hkeep Hin. induction l as [|x r IH]; intros acc st out st' H.
  - injection H as <- _. split; [tauto | apply all_found_nil].
  - simpl in H. unfold bind at 1 in H. unfold bind at 1 in H.
    unfold search_icd at 1 in H.
    destruct (search_endpoint remote (requests st) token x) as [cands|msg] eqn:E;
      [|discriminate].
    simpl in H. apply IH in H. simpl in H. destruct H as [K F].
    destruct (fold_contributes table (step x) accepted (Hkeep x) (Hin x) cands acc)
      as [K0 C0].
    split.
    + intros k Hk. now apply K, K0.
    + apply (all_found_cons remote token (requests st) x r _ cands E); [|exact F].
      intros c Hc A. now apply K, C0.
Qed.

(** ** main.py *)

Lemma main_update_keys (code title source : string) (score : PyFloat.float)
    (vars : Main.Locals) (guard : bool) (k : string) :
  In k (PyDict.keys (Main.all_candidates vars)) ->
  In k (PyDict.keys
          (Main.all_candidates
             (Main.update_best code title source score
                (if guard
                 then PyDict.set String.eqb (Main.all_candidates vars) code
                        (title, score, source)
                 else Main.all_candidates vars) vars))).
Proof.
  intro H. rewrite TableFacts.main_update_best_table.
  destruct guard; [now apply ScoreFacts.keys_set_old | assumption].
Qed.

Lemma main_term_candidate_keys term vars c :
  (forall k, In k (PyDict.keys (Main.all_candidates vars)) ->
             In k (PyDict.keys (Main.all_candidates (Main.term_candidate term vars c))))
  /\ In (get_or_empty (theCode c))
       (PyDict.keys (Main.all_candidates (Main.term_candidate term vars c))).
Proof.
  unfold Main.term_candidate. rewrite TableFacts.main_update_best_table. split.
  - intros k H. now apply ScoreFacts.keys_set_old.
  - apply ScoreFacts.keys_set_new.
Qed.

Lemma main_keyword_candidate_keys term keyword vars c :
  (forall k, In k (PyDict.keys (Main.all_candidates vars)) ->
             In k (PyDict.keys
                     (Main.all_candidates (Main.keyword_candidate term keyword vars c))))
  /\ In (get_or_empty (theCode c))
       (PyDict.keys (Main.all_candidates (Main.keyword_candidate term keyword vars c))).
Proof.
  unfold Main.keyword_candidate. rewrite TableFacts.main_update_best_table.
  destruct (Main.improves _ _ _) eqn:E.
  - split; [intros k H; now apply ScoreFacts.keys_set_old | apply ScoreFacts.keys_set_new].
  - split; [tauto | now apply ScoreFacts.improves_false_key in E].
Qed.

Lemma main_symptom_candidate_keys phrase vars c :
  (forall k, In k (PyDict.keys (Main.all_candidates vars)) ->
             In k (PyDict.keys (Main.all_candidates (Main.symptom_candidate phrase vars c))))
  /\ In (get_or_empty (theCode c))
       (PyDict.keys (Main.all_candidates (Main.symptom_candidate phrase vars c))).
Proof.
  unfold Main.symptom_candidate. rewrite TableFacts.main_update_best_table.
  destruct (Main.improves _ _ _) eqn:E.
  - split; [intros k H; now apply ScoreFacts.keys_set_old | apply ScoreFacts.keys_set_new].
  - split; [tauto | now apply ScoreFacts.improves_false_key in E].
Qed.

(** Every entity that a search of the batch run finds has its code in the
    table at the end. *)
Lemma main_run_queries_contributes term def remote token st vars st' :
  Main.run_queries term def remote token st = (Ok vars, st') ->
  all_found remote token (requests st) (Props.batch_plan term def)
    (fun c => In (get_or_empty (theCode c)) (PyDict.keys (Main.all_candidates vars))).
Proof.
  unfold Main.run_queries, Props.batch_plan. intro H.
  unfold bind at 1 in H. unfold search_icd at 1 in H.
  destruct (search_endpoint remote (requests st) token term) as [cands|msg] eqn:E0;
    [|discriminate].
  unfold bind at 1 in H.
  match type of H with
  | context [match ?c ?s with _ => _ end] => destruct (c s) as [[vars1|msg] st1] eqn:E1
  end; [|discriminate].
  set (vars0 := match cands with
                | [] => _
                | _ :: _ => _
                end) in E1.
  assert (T0 : forall c, In c cands ->
                 In (get_or_empty (theCode c)) (PyDict.keys (Main.all_candidates vars0))).
  { subst vars0. destruct cands as [|c0 cs] eqn:Ec; [intros c []|]. rewrite <- Ec.
    intros c Hc.
    apply (fold_contributes Main.all_candidates (Main.term_candidate term)
             (fun _ => True)); try assumption; try exact I.
    - intros acc c1 k. apply main_term_candidate_keys.
    - intros acc c1 _. apply main_term_candidate_keys. }
  assert (P1 : (forall k, In k (PyDict.keys (Main.all_candidates vars0)) ->
                          In k (PyDict.keys (Main.all_candidates vars1)))
               /\ all_found remote token (requests st ++ [SearchRequest token term])
                    (if PyStr.nonempty (PyStr.strip def)
                     then Main.extract_keywords def else [])
                    (fun c => In (get_or_empty (theCode c))
                                (PyDict.keys (Main.all_candidates vars1)))
               /\ requests st1
                  = (requests st ++ [SearchRequest token term])
                    ++ map (SearchRequest token)
                         (if PyStr.nonempty (PyStr.strip def)
                          then Main.extract_keywords def else [])).
  { destruct (PyStr.nonempty (PyStr.strip def)).
    - pose proof (NetFacts.for_each_search remote token
                    (fun vars keyword candidates =>
                       fold_left (Main.keyword_candidate term keyword) candidates vars)
                    _ _ _ _ _ E1) as [R _].
      apply (for_each_contributes Main.all_candidates
               (fun keyword => Main.keyword_candidate term keyword) (fun _ => True)) in E1.
      + destruct E1 as [K F]. split; [exact K|]. split; [|exact R].
        apply (all_found_weaken _ _ _ _ _ _ (fun c H => H I) F).
      + intros q acc c k. apply main_keyword_candidate_keys.
      + intros q acc c _. apply main_keyword_candidate_keys.
    - injection E1 as <- <-. split; [tauto|]. split; [apply all_found_nil|].
      simpl. now rewrite app_nil_r. }
  destruct P1 as [K1 [F1 R1]].
  apply (for_each_contributes Main.all_candidates
           (fun phrase => Main.symptom_candidate phrase) (fun _ => True)) in H.
  2:{ intros q acc c k. apply main_symptom_candidate_keys. }
  2:{ intros q acc c _. apply main_symptom_candidate_keys. }
  destruct H as [K2 F2].
  apply (all_found_cons remote token (requests st) term _ _ cands E0).
  - intros c Hc. now apply K2, K1, T0.
  - apply all_found_app.
    + apply (all_found_weaken _ _ _ _ _ _ (fun c H => K2 _ H) F1).
    + rewrite <- R1. apply (all_found_weaken _ _ _ _ _ _ (fun c H => H I) F2).
Qed.

(** ** sample.py *)

Lemma sample_term_candidate_keys term (all : PyDict.dict string Sample.Candidate) c :
  (forall k, In k (PyDict.keys all) ->
             In k (PyDict.keys (Sample.term_candidate term all c)))
  /\ (PyStr.nonempty (get_or_empty (title c)) = true
      /\ PyStr.nonempty (get_or_empty (theCode c)) = true ->
      In (get_or_empty (theCode c)) (PyDict.keys (Sample.term_candidate term all c))).
Proof.
  unfold Sample.term_candidate.
  destruct (PyStr.nonempty (get_or_empty (title c))
            && PyStr.nonempty (get_or_empty (theCode c))) eqn:E.
  - split; [intros k H; now apply ScoreFacts.keys_set_old|].
    intros _. apply ScoreFacts.keys_set_new.
  - split; [tauto|]. intros [H1 H2]. rewrite H1, H2 in E. discriminate.
Qed.

Lemma sample_keyword_candidate_keys term keyword
    (all : PyDict.dict string Sample.Candidate) c :
  (forall k, In k (PyDict.keys all) ->
             In k (PyDict.keys (Sample.keyword_candidate term keyword all c)))
  /\ (PyStr.nonempty (get_or_empty (title c)) = true
      /\ PyStr.nonempty (get_or_empty (theCode c)) = true ->
      In (get_or_empty (theCode c))
        (PyDict.keys (Sample.keyword_candidate term keyword all c))).
Proof.
  unfold Sample.keyword_candidate.
  destruct (PyStr.nonempty (get_or_empty (title c))
            && PyStr.nonempty (get_or_empty (theCode c))) eqn:E.
  - cbv zeta.
    destruct (PyDict.get String.eqb all (get_or_empty (theCode c)))
      as [[[t old] s]|] eqn:G.
    + destruct (PyFloat.gt _ old).
      * split; [intros k H; now apply ScoreFacts.keys_set_old|].
        intros _. apply ScoreFacts.keys_set_new.
      * split; [tauto|]. intros _. now apply SettledFacts.get_key in G.
    + split; [intros k H; now apply ScoreFacts.keys_set_old|].
      intros _. apply ScoreFacts.keys_set_new.
  - split; [tauto|]. intros [H1 H2]. rewrite H1, H2 in E. discriminate.
Qed.

(** Every entity with a title and a code that a search of the service finds
    has its code in the table at the end. *)
Lemma sample_run_queries_contributes remote term keywords token st
    (all : PyDict.dict string Sample.Candidate) st' :
  Sample.run_queries remote term keywords token st = (Ok all, st') ->
  all_found remote token (requests st) (term :: keywords)
    (fun c => PyStr.nonempty (get_or_empty (title c)) = true
              /\ PyStr.nonempty (get_or_empty (theCode c)) = true ->
              In (get_or_empty (theCode c)) (PyDict.keys all)).
Proof.
  unfold Sample.run_queries. intro H.
  unfold bind at 1 in H. unfold search_icd at 1 in H.
  destruct (search_endpoint remote (requests st) token term) as [cands|msg] eqn:E0;
    [|discriminate].
  apply (for_each_contributes (fun all : PyDict.dict string Sample.Candidate => all)
           (fun keyword => Sample.keyword_candidate term keyword)
           (fun c => PyStr.nonempty (get_or_empty (title c)) = true
                     /\ PyStr.nonempty (get_or_empty (theCode c)) = true)) in H.
  2:{ intros q acc c k. apply sample_keyword_candidate_keys. }
  2:{ intros q acc c. apply sample_keyword_candidate_keys. }
  destruct H as [K F].
  apply (all_found_cons remote token (requests st) term _ _ cands E0); [|exact F].
  intros c Hc A. apply K.
  apply (fold_contributes (fun all : PyDict.dict string Sample.Candidate => all)
           (Sample.term_candidate term)
           (fun c => PyStr.nonempty (get_or_empty (title c)) = true
                     /\ PyStr.nonempty (get_or_empty (theCode c)) = true));
    try assumption.
  - intros acc c1 k. apply sample_term_candidate_keys.
  - intros acc c1. apply sample_term_candidate_keys.
Qed.

(** ** The candidates of a response *)

Lemma respond_codes (entry : Sample.Entry) (keywords : list string)
    (all : PyDict.dict string Sample.Candidate) :
  Permutation (map Sample.code (Sample.icd_candidates (Sample.respond entry keywords all)))
    (PyDict.keys all).
Proof.
  rewrite <- ResponseFacts.map_code_candidate_of. apply Permutation_map.
  rewrite ResponseFacts.respond_candidates. apply ResponseFacts.sort_by_similarity_perm.
Qed.

End ContributionFacts.

(* ################################################################# *)
(** * Where a keyword occurs in the definition *)

Module OccurFacts.
Import PyStr PyStrFacts.

Lemma prefix_cons (c : ascii) (w r : string) :
  String.prefix (String c w) (String c r) = String.prefix w r.
Proof. simpl. destruct (ascii_dec c c) as [_|N]; [reflexivity | now elim N]. Qed.

Lemma contains_tail (w r : string) (c : ascii) :
  contains w r = true -> contains w (String c r) = true.
Proof. intro H. cbn [contains]. rewrite H. apply orb_true_r. Qed.

Lemma contains_prefix (w s : string) : String.prefix w s = true -> contains w s = true.
Proof. intro H. destruct s; cbn [contains]; now rewrite H. Qed.

(** The word that a string starts with is a prefix of it, and the words
    after it occur in it. *)
Lemma split_go_contains (s : string) :
  String.prefix (fst (split_go s)) s = true
  /\ forall w, In w (snd (split_go s)) -> contains w s = true.
Proof.
  induction s as [|c r [IH1 IH2]]; [split; [reflexivity | intros w []]|].
  cbn [split_go]. destruct (split_go r) as [w0 ws]. cbn [fst snd] in IH1, IH2.
  destruct (isspace c); cbn [fst snd].
  - split; [reflexivity|]. intros w H. apply contains_tail.
    destruct (nonempty w0); [|now apply IH2].
    destruct H as [<-|H]; [now apply contains_prefix | now apply IH2].
  - split; [now rewrite prefix_cons|]. intros w H. now apply contains_tail, IH2.
Qed.

Lemma split_contains (s w : string) : In w (split s) -> contains w s = true.
Proof.
  unfold split. pose proof (split_go_contains s) as [H1 H2].
  destruct (split_go s) as [w0 ws]. cbn [fst snd] in H1, H2.
  destruct (nonempty w0); [|now apply H2].
  intros [<-|H]; [now apply contains_prefix | now apply H2].
Qed.

(** Where the cleaned string has a run of characters that are not white
    space, the string has it too. *)
Lemma prefix_sub (w : string) :
  (forall c, In c (list_ascii_of_string w) -> isspace c = false) ->
  forall s, String.prefix w (sub_nonword_nonspace s) = true -> String.prefix w s = true.
Proof.
  induction w as [|a w IH]; intros N s H; [now destruct s|].
  destruct s as [|b s]; [discriminate|].
  cbn [sub_nonword_nonspace] in H. simpl in H |- *.
  destruct (ascii_dec a (if isword b || isspace b then b else " "%char)) as [E|E];
    [|discriminate].
  assert (A : a = b).
  { destruct (isword b || isspace b); [assumption|].
    pose proof (N a (or_introl eq_refl)) as Na. rewrite E in Na. discriminate. }
  subst b. destruct (ascii_dec a a) as [_|Ne]; [|now elim Ne].
  apply IH; [|assumption]. intros c Hc. apply N. now right.
Qed.

Lemma contains_sub (w : string) :
  (forall c, In c (list_ascii_of_string w) -> isspace c = false) ->
  forall s, contains w (sub_nonword_nonspace s) = true -> contains w s = true.
Proof.
  intros N. induction s as [|b s IH]; intro H.
  - apply contains_prefix, prefix_sub; [assumption|].
    cbn [sub_nonword_nonspace contains] in H. now rewrite orb_false_r in H.
  - cbn [sub_nonword_nonspace contains] in H. apply orb_true_iff in H.
    destruct H as [H|H].
    + apply contains_prefix, prefix_sub; [assumption|]. exact H.
    + now apply contains_tail, IH.
Qed.

(** A word of the cleaned, lowered definition occurs in the lowered
    definition. *)
Lemma word_occurs (d w : string) :
  In w (split (sub_nonword_nonspace (lower d))) -> contains w (lower d) = true.
Proof.
  intro H. apply contains_sub.
  - intros c Hc. now destruct (split_chars _ _ _ H Hc).
  - now apply split_contains.
Qed.

End OccurFacts.

(* ################################################################# *)
(** * The model at work *)

(** The examples of the documentation of [difflib], the literals of the
    programs, and the example of a single candidate. *)
Module Checks.

Example ratio_abcd_bcde :
  Difflib.ratio (Difflib.new (list_ascii_of_string "abcd") (list_ascii_of_string "bcde"))
  = S754_finite false 6755399441055744 (-53).
Proof. vm_compute. reflexivity. Qed.

Example find_longest_match_abcd :
  Difflib.find_longest_match
    (Difflib.new (list_ascii_of_string " abcd") (list_ascii_of_string "abcd abcd")) 0 5 0 9
  = (0, 4, 5).
Proof. vm_compute. reflexivity. Qed.

Example get_matching_blocks_abxcd :
  Difflib.get_matching_blocks
    (Difflib.new (list_ascii_of_string "abxcd") (list_ascii_of_string "abcd"))
  = [(0, 0, 2); (3, 2, 2); (5, 4, 0)].
Proof. vm_compute. reflexivity. Qed.

(** An element that is popular in [b] is not indexed: "a" finds nothing in
    "x" followed by 199 "a", which finds "a" in the other order. *)
Example ratio_popular :
  let long := "x"%char :: repeat "a"%char 199 in
  Difflib.ratio (Difflib.new ["a"%char] long) = PyFloat.f0_0
  /\ Difflib.ratio (Difflib.new long ["a"%char])
     = PyFloat.div (PyFloat.of_int 2) (PyFloat.of_int 201).
Proof. vm_compute. split; reflexivity. Qed.

(** [0.8] and [0.9] are the floats nearest to 8/10 and 9/10. *)
Example literals :
  PyFloat.div (PyFloat.of_int 8) (PyFloat.of_int 10) = PyFloat.f0_8
  /\ PyFloat.div (PyFloat.of_int 9) (PyFloat.of_int 10) = PyFloat.f0_9
  /\ PyFloat.of_int 1 = PyFloat.f1_0 /\ PyFloat.of_int 2 = PyFloat.f2_0.
Proof. vm_compute. repeat split. Qed.

(** [round(2/3, 3)] is [0.667]. *)
Example round3_two_thirds :
  PyFloat.round3 (PyFloat.div (PyFloat.of_int 2) (PyFloat.of_int 3))
  = PyFloat.div (PyFloat.of_int 667) (PyFloat.of_int 1000).
Proof. vm_compute. reflexivity. Qed.

(** The term "vAtavRuddhiH" against the title "Vata disorder": 12 matched
    characters of 25, that is 0.48. *)
Example similarity_vata_disorder :
  Main.similarity "vAtavRuddhiH" "Vata disorder"
  = PyFloat.div (PyFloat.of_int 12) (PyFloat.of_int 25).
Proof. vm_compute. reflexivity. Qed.

Example extract_keywords_first_entry :
  option_map (fun item => Sample.extract_keywords (Sample.entry_definition (snd item)))
    (hd_error Sample.NAMASTE_DATA)
  = Some ["impaired"; "movements"; "fullness"; "abdomen"; "aversion"; "cold";
          "accumulation"; "accumulation"].
Proof. vm_compute. reflexivity. Qed.

End Checks.

(* ################################################################# *)
(** * The claims *)

(** C1.  The claim fails where the query for the term returns one code twice:
    with "Vata disorder" and then "Pitta disorder" under the code SK00, the
    second candidate scores lower than the first and yet it is the one the
    table holds at the end, in the batch aggregator (whose best match keeps the
    first) and in the service. *)
Theorem C1_term_query_replaces_better_candidate :
  let high := Main.similarity "vAtavRuddhiH" "Vata disorder" in
  let low := Main.similarity "vAtavRuddhiH" "Pitta disorder" in
  PyFloat.gt high low = true
  /\ (exists row,
         fst (Main.build_mapping_specific Scenario.twice Scenario.fresh)
         = Net.Ok (row, [("SK00", ("Pitta disorder", low, "NAMASTE_term"))])
         /\ Main.ICD11_TERM row = Some "Vata disorder")
  /\ fst (Sample.run_queries Scenario.twice "vAtavRuddhiH"
            (Sample.extract_keywords Main.nam_def) "token" Scenario.fresh)
     = Net.Ok [("SK00", ("Pitta disorder", low, "NAMASTE_term"))].
Proof.
  cbv zeta. split; [|split].
  - vm_compute. reflexivity.
  - vm_compute. eexists. split; reflexivity.
  - vm_compute. reflexivity.
Qed.

(** C2, as amended.  The batch aggregator makes its searches in the fixed
    order of its three phases: the term verbatim, then each extracted keyword
    (when the definition is not blank), then each phrase of the fixed list of
    symptom phrases; and each of them contributes to the one table, which has
    each code once: every search succeeds, every entity that it finds has its
    code in the table at the end, and every entry of the table has the source
    and the score that one of the three phases gives its title.  The service
    makes the searches of the first two phases only, the term of the entry it
    found, then each extracted keyword; they contribute to its table, whose
    entries are the candidates of the response, in the same way: every entity
    found that has a title and a code has its code among the candidates, no
    code comes twice, and every candidate has the source and the score that the
    term phase or the keyword phase gives its title. *)
Theorem C2_query_phases :
  (forall code term def remote st row table st',
      Main.build_mapping code term def remote st = (Net.Ok (row, table), st') ->
      Net.queries (Net.requests st') =
        Net.queries (Net.requests st)
        ++ [term]
        ++ (if PyStr.nonempty (PyStr.strip def) then Main.extract_keywords def else [])
        ++ Main.symptom_phrases
      /\ Props.distinct_codes table
      /\ (exists token,
             Net.token_endpoint remote (Net.requests st) = Net.Ok token
             /\ Props.all_found remote token (Net.requests st ++ [Net.TokenRequest])
                  ([term]
                   ++ (if PyStr.nonempty (PyStr.strip def)
                       then Main.extract_keywords def else [])
                   ++ Main.symptom_phrases)
                  (fun c =>
                     In (Net.get_or_empty (Net.theCode c)) (PyDict.keys table)))
      /\ (forall icd title score source,
             In (icd, (title, score, source)) table ->
             Props.scored Main.similarity term (Main.extract_keywords def)
               Main.symptom_phrases title score source))
  /\ (forall remote request st body st',
         Sample.search_namaste_mapping remote request st = (Sample.Return body, st') ->
         exists entry,
           Sample.find_entry (PyStr.strip (Sample.query request)) = Some entry
           /\ Net.queries (Net.requests st') =
                Net.queries (Net.requests st)
                ++ [Sample.entry_term entry]
                ++ Sample.extract_keywords (Sample.entry_definition entry)
           /\ NoDup (map Sample.code (Sample.icd_candidates body))
           /\ (exists token st1,
                  Sample.get_token remote st = (Net.Ok token, st1)
                  /\ Props.all_found remote token (Net.requests st1)
                       (Sample.entry_term entry
                        :: Sample.extract_keywords (Sample.entry_definition entry))
                       (fun c =>
                          PyStr.nonempty (Net.get_or_empty (Net.title c)) = true ->
                          PyStr.nonempty (Net.get_or_empty (Net.theCode c)) = true ->
                          In (Net.get_or_empty (Net.theCode c))
                            (map Sample.code (Sample.icd_candidates body))))
           /\ (forall c,
                  In c (Sample.icd_candidates body) ->
                  exists score,
                    Sample.similarity_ c = PyFloat.round3 score
                    /\ Props.scored Sample.similarity (Sample.entry_term entry)
                         (Sample.extract_keywords (Sample.entry_definition entry)) []
                         (Sample.title c) score (Sample.source c))).
Proof.
  split.
  - intros code term def remote st row table st' H.
    unfold Main.build_mapping, Main.get_token in H. unfold Net.bind at 1 in H.
    unfold Net.post_token at 1 in H.
    destruct (Net.token_endpoint remote (Net.requests st)) as [token|msg]; [|discriminate].
    unfold Net.bind at 1 in H.
    match type of H with
    | context [Main.run_queries ?t ?d ?r ?k ?s] =>
        destruct (Main.run_queries t d r k s) as [[vars|msg] st1] eqn:E
    end; [|discriminate].
    injection H as _ <- <-.
    split; [|split; [|split]].
    + apply QueryFacts.main_run_queries_requests in E. rewrite E. simpl Net.requests.
      rewrite !NetFacts.queries_app, NetFacts.queries_searches. simpl.
      now rewrite app_nil_r.
    + now apply TableFacts.main_table_distinct_codes in E.
    + exists token. split; [reflexivity|].
      apply ContributionFacts.main_run_queries_contributes in E. exact E.
    + apply ScoreFacts.main_run_queries_consistent in E. exact (proj1 E).
  - intros remote request st body st' H.
    unfold Sample.search_namaste_mapping in H.
    destruct (Sample.find_entry (PyStr.strip (Sample.query request))) as [entry|];
      [|discriminate].
    exists entry. split; [reflexivity|].
    unfold Sample.try_body, Net.bind in H.
    destruct (Sample.get_token remote st) as [[token|msg] st1] eqn:E1; [|discriminate].
    match type of H with
    | context [Sample.run_queries ?r ?t ?k ?tok ?s] =>
        destruct (Sample.run_queries r t k tok s) as [[all|msg] st2] eqn:E2
    end; [|discriminate].
    injection H as <- <-.
    pose proof (ContributionFacts.respond_codes entry
                  (Sample.extract_keywords (Sample.entry_definition entry)) all) as P.
    split; [|split; [|split]].
    + apply QueryFacts.sample_run_queries_requests in E2.
      apply QueryFacts.sample_get_token_queries in E1.
      rewrite E2, NetFacts.queries_app, NetFacts.queries_searches, E1. reflexivity.
    + apply (Permutation_NoDup (Permutation_sym P)).
      now apply TableFacts.sample_table_distinct_codes in E2.
    + exists token, st1. split; [reflexivity|].
      apply ContributionFacts.sample_run_queries_contributes in E2.
      refine (ContributionFacts.all_found_weaken _ _ _ _ _ _ _ E2).
      intros c Hc A B. apply (Permutation_in _ (Permutation_sym P)). apply Hc.
      now split.
    + intros c Hc. rewrite ResponseFacts.respond_candidates in Hc.
      apply (Permutation_in c (ResponseFacts.sort_by_similarity_perm _)) in Hc.
      apply in_map_iff in Hc.
      destruct Hc as [[icd [[title score] source]] [<- Hin]].
      apply ResponseFacts.sample_table_well_formed in E2.
      apply (proj1 (Forall_forall _ _) E2) in Hin. destruct Hin as [_ [_ H3]].
      simpl. now exists score.
Qed.

(** The batch run against a service whose query for the term finds two
    entities: it makes the fifteen searches of the three phases, and the table
    has the codes of the two. *)
Lemma C2_query_phases_witness :
  exists row table,
    fst (Main.build_mapping_specific Scenario.found Scenario.fresh) = Net.Ok (row, table)
    /\ Net.queries
         (Net.requests (snd (Main.build_mapping_specific Scenario.found Scenario.fresh)))
       = ["vAtavRuddhiH"; "roughness"; "hoarseness"; "voice"; "emaciation"; "blackish";
          "discoloration"; "twitching"; "warmth"; "voice hoarseness"; "muscle twitching";
          "sleep disorders"; "constipation"; "skin discoloration"; "muscle weakness"]
    /\ In "SK00" (PyDict.keys table) /\ In "SK01" (PyDict.keys table).
Proof.
  destruct (Main.build_mapping_specific Scenario.found Scenario.fresh) as [r st'] eqn:E.
  assert (R : exists row table, r = Net.Ok (row, table)).
  { apply (f_equal fst) in E. cbn [fst] in E. rewrite <- E. vm_compute.
    eexists. eexists. reflexivity. }
  destruct R as [row [table ->]]. exists row, table. split; [reflexivity|].
  destruct (proj1 C2_query_phases _ _ _ _ _ _ _ _ E) as [Q [_ [[token [_ F]] _]]].
  split; [cbn [snd]; rewrite Q; vm_compute; reflexivity|].
  destruct (F [] Main.nam_term
              ((if PyStr.nonempty (PyStr.strip Main.nam_def)
                then Main.extract_keywords Main.nam_def else [])
               ++ Main.symptom_phrases) eq_refl) as [cands [H1 H2]].
  vm_compute in H1. injection H1 as <-.
  split.
  - apply (H2 (Scenario.entity "Vata disorder" "SK00")). now left.
  - apply (H2 (Scenario.entity "Pitta disorder" "SK01")). right. now left.
Defined.

(** C2 as stated fails: the service, asked for "SR12" while every search
    succeeds, answers after the term query and the eight keyword queries, and
    none of its queries is a symptom phrase. *)
Lemma C2_service_makes_no_symptom_query :
  (exists body,
      fst (Sample.search_namaste_mapping Scenario.silent {| Sample.query := "SR12" |}
             Scenario.fresh) = Sample.Return body)
  /\ Net.queries
       (Net.requests
          (snd (Sample.search_namaste_mapping Scenario.silent {| Sample.query := "SR12" |}
                  Scenario.fresh)))
     = ["vAtavRuddhiH"; "roughness"; "hoarseness"; "voice"; "emaciation"; "blackish";
        "discoloration"; "twitching"; "warmth"]
  /\ forall phrase,
       In phrase Main.symptom_phrases ->
       ~ In phrase
           (Net.queries
              (Net.requests
                 (snd (Sample.search_namaste_mapping Scenario.silent
                         {| Sample.query := "SR12" |} Scenario.fresh)))).
Proof.
  split; [|split].
  - vm_compute. eexists. reflexivity.
  - vm_compute. reflexivity.
  - intros phrase Hp Hq.
    assert (B : existsb (fun q => existsb (String.eqb q) Main.symptom_phrases)
                  (Net.queries
                     (Net.requests
                        (snd (Sample.search_namaste_mapping Scenario.silent
                                {| Sample.query := "SR12" |} Scenario.fresh)))) = true).
    { apply existsb_exists. exists phrase. split; [assumption|].
      apply existsb_exists. exists phrase. split; [assumption | apply String.eqb_refl]. }
    vm_compute in B. discriminate.
Qed.

(** C3, as amended.  For a definition whose lowercased form contains both
    "hoarseness" and "voice", the extractor returns "hoarse voice" exactly when
    fewer than eight domain-filtered tokens come before it; with eight or more,
    the truncation to eight entries removes it. *)
Theorem C3_hoarse_voice_when_room :
  forall definition : string,
    PyStr.contains "hoarseness" (PyStr.lower definition) = true ->
    PyStr.contains "voice" (PyStr.lower definition) = true ->
    (In "hoarse voice" (Main.extract_keywords definition)
     <-> (List.length (Main.medical_keywords definition) < 8)%nat)
    /\ (In "hoarse voice" (Sample.extract_keywords definition)
        <-> (List.length (Sample.medical_keywords definition) < 8)%nat).
Proof.
  intros d H1 H2. split.
  - destruct (KeywordFacts.main_compound_head d H1 H2) as [rest E].
    unfold Main.extract_keywords. rewrite E, KeywordFacts.In_firstn_app_head.
    split; [|tauto]. intros [H|H]; [|assumption]. exfalso.
    apply PyStrFacts.In_firstn, KeywordFacts.main_medical_keyword in H.
    destruct H as [H _].
    apply (KeywordFacts.split_word_no_space _ _ H). simpl. tauto.
  - destruct (KeywordFacts.sample_compound_head d H1 H2) as [rest E].
    unfold Sample.extract_keywords. rewrite E, KeywordFacts.In_firstn_app_head.
    split; [|tauto]. intros [H|H]; [|assumption]. exfalso.
    apply PyStrFacts.In_firstn, KeywordFacts.sample_medical_keyword in H.
    destruct H as [H _].
    apply (KeywordFacts.split_word_no_space _ _ H). simpl. tauto.
Qed.

(** A short definition: two tokens, then the compound. *)
Lemma C3_hoarse_voice_witness :
  In "hoarse voice" (Main.extract_keywords "Hoarseness of voice.")
  /\ In "hoarse voice" (Sample.extract_keywords "Hoarseness of voice.").
Proof.
  destruct (C3_hoarse_voice_when_room "Hoarseness of voice.") as [[_ M] [_ S]];
    [reflexivity | reflexivity |].
  split; [apply M | apply S]; vm_compute; lia.
Defined.

(** C3 as stated fails on the definition that is deployed in both programs:
    it contains "hoarseness" and "voice", has eleven domain tokens or more,
    and the eight keywords returned are its first eight tokens. *)
Lemma C3_deployed_definition_loses_hoarse_voice :
  PyStr.contains "hoarseness" (PyStr.lower Main.nam_def) = true
  /\ PyStr.contains "voice" (PyStr.lower Main.nam_def) = true
  /\ Main.extract_keywords Main.nam_def
     = ["roughness"; "hoarseness"; "voice"; "emaciation"; "blackish"; "discoloration";
        "twitching"; "warmth"]
  /\ Sample.extract_keywords Main.nam_def = Main.extract_keywords Main.nam_def
  /\ ~ In "hoarse voice" (Main.extract_keywords Main.nam_def).
Proof.
  repeat split; try (vm_compute; reflexivity).
  intro H. vm_compute in H. intuition discriminate.
Qed.

(** C4.  The similarity of two strings that are identical after lowercasing
    is exactly 1.0, and so is the similarity of a string and itself, in both
    programs; the strings are of any length that CPython allows, the empty
    string included. *)
Theorem C4_similarity_of_equal_strings :
  forall a b : string,
    PyStr.lower a = PyStr.lower b ->
    PyStr.len a <= PyStr.maxsize ->
    Main.similarity a b = PyFloat.f1_0
    /\ Sample.similarity a b = PyFloat.f1_0
    /\ Main.similarity a a = PyFloat.f1_0
    /\ Sample.similarity a a = PyFloat.f1_0.
Proof.
  intros a b E L. repeat split.
  - now apply SimilarityFacts.similarity_same_lower.
  - now apply SimilarityFacts.similarity_same_lower.
  - now apply SimilarityFacts.similarity_same_lower.
  - now apply SimilarityFacts.similarity_same_lower.
Qed.

(** Two spellings of one title. *)
Lemma C4_similarity_witness :
  Main.similarity "Vata disorder" "VATA Disorder" = PyFloat.f1_0
  /\ Main.similarity "Vata disorder" "Vata disorder" = PyFloat.f1_0.
Proof.
  destruct (C4_similarity_of_equal_strings "Vata disorder" "VATA Disorder")
    as [H1 [_ [H2 _]]]; [reflexivity | vm_compute; discriminate |].
  now split.
Defined.

(** C5, as amended.  Swapping the arguments leaves the similarity unchanged
    when the two strings are identical after lowercasing (both orders give
    1.0) and when one of them is empty. *)
Theorem C5_similarity_swap :
  forall a b : string,
    PyStr.len a <= PyStr.maxsize ->
    PyStr.lower a = PyStr.lower b \/ a = "" \/ b = "" ->
    Main.similarity a b = Main.similarity b a
    /\ Sample.similarity a b = Sample.similarity b a.
Proof.
  intros a b L H.
  assert (G : Main.similarity a b = Main.similarity b a).
  { destruct H as [E|[->| ->]].
    - rewrite (SimilarityFacts.similarity_same_lower a b E L).
      symmetry. apply SimilarityFacts.similarity_same_lower; [now symmetry|].
      unfold PyStr.len in *.
      now rewrite <- (SimilarityFacts.length_lower b), <- E,
        SimilarityFacts.length_lower.
    - apply SimilarityFacts.similarity_empty.
    - symmetry. apply SimilarityFacts.similarity_empty. }
  split; exact G.
Qed.

(** A term and the empty title. *)
Lemma C5_similarity_swap_witness :
  Main.similarity "vAtavRuddhiH" "" = Main.similarity "" "vAtavRuddhiH".
Proof.
  apply (C5_similarity_swap "vAtavRuddhiH" "").
  - vm_compute. discriminate.
  - right. now right.
Defined.

(** C5 as stated fails: "tide" against "diet" scores 0.25 and "diet" against
    "tide" scores 0.5, the block found first being "t" in one order and "d",
    which leaves "e" to be matched after it, in the other. *)
Lemma C5_similarity_not_symmetric :
  Main.similarity "tide" "diet" = S754_finite false 4503599627370496 (-54)
  /\ Main.similarity "diet" "tide" = S754_finite false 4503599627370496 (-53)
  /\ Main.similarity "tide" "diet" <> Main.similarity "diet" "tide".
Proof.
  split; [vm_compute; reflexivity|]. split; [vm_compute; reflexivity|].
  vm_compute. discriminate.
Qed.

(** C6, as amended.  In the service the best match, when set, is an entry of
    the table whose score is above 0.0 and which no entry of the table
    outscores, and it is unset exactly when no entry of the table scores above
    0.0, as when the table is empty, where the candidates are empty too.  In
    the batch aggregator no score of the table is above the best score, the
    best match is unset when the table is empty, and whenever it is unset the
    row reports the score 0.0.  When every search finds nothing, both programs
    end without an error, with an empty table and no best match. *)
Theorem C6_best_match :
  (forall (entry : Sample.Entry) (keywords : list string)
          (table : PyDict.dict string Sample.Candidate),
      let body := Sample.respond entry keywords table in
      (Sample.best_match body = None
       <-> forall code title score source,
             In (code, (title, score, source)) table ->
             PyFloat.gt score PyFloat.f0_0 = false)
      /\ (forall best,
             Sample.best_match body = Some best ->
             exists score,
               In (Sample.code best, (Sample.title best, score, Sample.source best)) table
               /\ Sample.similarity_ best = PyFloat.round3 score
               /\ PyFloat.gt score PyFloat.f0_0 = true
               /\ forall code title score' source,
                    In (code, (title, score', source)) table ->
                    PyFloat.gt score' score = false)
      /\ (table = [] -> Sample.best_match body = None /\ Sample.icd_candidates body = []))
  /\ (forall code term def remote st row table st',
         Main.build_mapping code term def remote st = (Net.Ok (row, table), st') ->
         exists best_score,
           Main.SIMILARITY row = PyFloat.round3 best_score
           /\ (forall code title score source,
                  In (code, (title, score, source)) table ->
                  PyFloat.gt score best_score = false)
           /\ (table = [] -> Main.ICD11_CODE row = None)
           /\ (Main.ICD11_CODE row = None ->
               best_score = PyFloat.f0_0 /\ Main.SIMILARITY row = PyFloat.f0_0
               /\ Main.ICD11_TERM row = None /\ Main.MATCH_SOURCE row = None))
  /\ (forall remote,
         (forall h, exists token, Net.token_endpoint remote h = Net.Ok token) ->
         (forall h t q, Net.search_endpoint remote h t q = Net.Ok []) ->
         (forall code term def st,
             exists row,
               fst (Main.build_mapping code term def remote st) = Net.Ok (row, [])
               /\ Main.ICD11_CODE row = None /\ Main.SIMILARITY row = PyFloat.f0_0)
         /\ (forall request st entry,
                Sample.find_entry (PyStr.strip (Sample.query request)) = Some entry ->
                exists body,
                  fst (Sample.search_namaste_mapping remote request st) = Sample.Return body
                  /\ Sample.best_match body = None /\ Sample.icd_candidates body = [])).
Proof.
  split; [|split].
  - intros entry keywords table body. subst body. unfold Sample.respond.
    pose proof (BestFacts.convert_table table) as C.
    destruct (fold_left Sample.convert_item table ([], None, PyFloat.f0_0))
      as [[cands best] bs].
    unfold Props.converted in C. destruct C as [Hb [Hmax Hlen]]. simpl.
    split; [|split].
    + split.
      * intros ->. rewrite Hb in Hmax. exact Hmax.
      * intro H. destruct best as [b|]; [|reflexivity].
        destruct Hb as [Hpos [s [Hin [_ ->]]]].
        rewrite (H _ _ _ _ Hin) in Hpos. discriminate.
    + intros b ->. destruct Hb as [Hpos [s [Hin [Hr ->]]]].
      exists s. repeat split; assumption.
    + intros ->. simpl in Hlen. destruct best as [b|].
      * destruct Hb as [_ [s [[] _]]].
      * split; [reflexivity | now apply BestFacts.sort_by_similarity_empty].
  - intros code term def remote st row table st' H.
    unfold Main.build_mapping, Net.bind in H.
    destruct (Main.get_token remote st) as [[token|msg] st1]; [|discriminate].
    destruct (Main.run_queries term def remote token st1) as [[vars|msg] st2] eqn:E;
      [|discriminate].
    injection H as <- <- _.
    apply BestFacts.main_run_queries_tracked in E. destruct E as [Hb [Hmax Hemp]].
    exists (Main.best_overall_score vars). simpl.
    split; [reflexivity|]. split; [exact Hmax|]. split.
    + intro H. now rewrite (Hemp H).
    + intro H. destruct (Main.best_overall_match vars) as [[[c t] s]|]; [discriminate|].
      rewrite Hb. repeat split.
  - intros remote Ht Hs. split.
    + intros code term def st. unfold Main.build_mapping, Net.bind, Main.get_token.
      unfold Net.post_token at 1. destruct (Ht (Net.requests st)) as [token ->].
      pose proof (BestFacts.main_finds_nothing remote term def token
                    {| Net.requests := Net.requests st ++ [Net.TokenRequest];
                       Net.token_cache := Net.token_cache st |} Hs) as R.
      destruct (Main.run_queries term def remote token _) as [r st2].
      simpl in R. subst r. eexists. repeat split.
    + intros request st entry E. unfold Sample.search_namaste_mapping. rewrite E.
      unfold Sample.try_body. unfold Net.bind at 1.
      assert (T : exists token st1, Sample.get_token remote st = (Net.Ok token, st1)).
      { unfold Sample.get_token, Net.bind, Net.get_cache, Net.post_token, Net.set_cache,
          Net.ret.
        destruct (Ht (Net.requests st)) as [token Htok].
        destruct (Net.token_cache st) as [t|]; [destruct (PyStr.nonempty t)|];
          rewrite ?Htok; eauto. }
      destruct T as [token [st1 ->]]. unfold Net.bind.
      pose proof (BestFacts.sample_finds_nothing remote (Sample.entry_term entry) token
                    (Sample.extract_keywords (Sample.entry_definition entry)) st1 Hs) as R.
      destruct (Sample.run_queries remote _ _ token st1) as [r st2].
      simpl in R. subst r. eexists. repeat split.
Qed.

(** Against a service that finds nothing, the batch run ends with an empty
    table, no best match and the score 0.0. *)
Lemma C6_best_match_witness :
  exists row,
    fst (Main.build_mapping_specific Scenario.silent Scenario.fresh) = Net.Ok (row, [])
    /\ Main.ICD11_CODE row = None /\ Main.SIMILARITY row = PyFloat.f0_0.
Proof.
  apply (proj2 (proj2 C6_best_match) Scenario.silent).
  - intro h. exists "token". reflexivity.
  - reflexivity.
Defined.

(** C6 as stated fails where a candidate scores 0.0: the only candidate found
    for "SR12" has a title without any character of the term, the table and the
    candidates of the response hold it, and the best match is unset; so too in
    the batch aggregator. *)
Lemma C6_best_unset_with_candidates :
  (exists body,
      fst (Sample.search_namaste_mapping Scenario.unrelated {| Sample.query := "SR12" |}
             Scenario.fresh) = Sample.Return body
      /\ map Sample.code (Sample.icd_candidates body) = ["SK01"]
      /\ Sample.best_match body = None)
  /\ (exists row,
         fst (Main.build_mapping_specific Scenario.unrelated Scenario.fresh)
         = Net.Ok (row, [("SK01", ("Bone", PyFloat.f0_0, "NAMASTE_term"))])
         /\ Main.ICD11_CODE row = None).
Proof.
  split; vm_compute; eexists; repeat split.
Qed.

(** C7.  The endpoint answers 404 exactly when no entry of [NAMASTE_DATA]
    matches the stripped query, an entry matching when the lowercased query is
    a substring of its lowercased key or of its lowercased term.  The query
    "SR12" is a substring of the key "SR12 (AAA-2)" and is not answered 404. *)
Theorem C7_not_found_iff_no_entry_matches :
  forall (remote : Net.Remote) (request : Sample.SearchRequest) (st : Net.State),
    let query := PyStr.strip (Sample.query request) in
    (Props.status (fst (Sample.search_namaste_mapping remote request st)) = 404
     <-> forall code entry,
           In (code, entry) Sample.NAMASTE_DATA ->
           PyStr.contains (PyStr.lower query) (PyStr.lower code) = false
           /\ PyStr.contains (PyStr.lower query) (PyStr.lower (Sample.entry_term entry))
              = false)
    /\ PyStr.contains (PyStr.lower "SR12") (PyStr.lower "SR12 (AAA-2)") = true
    /\ Props.status
         (fst (Sample.search_namaste_mapping remote {| Sample.query := "SR12" |} st))
       <> 404.
Proof.
  intros remote request st query. split; [|split].
  - rewrite <- LookupFacts.find_entry_None. subst query. split.
    + intro H.
      destruct (Sample.find_entry (PyStr.strip (Sample.query request))) as [entry|] eqn:E;
        [|reflexivity].
      destruct (LookupFacts.status_found remote request st entry E) as [H1|H1];
        rewrite H1 in H; discriminate.
    + apply LookupFacts.status_not_found.
  - reflexivity.
  - assert (E : Sample.find_entry (PyStr.strip (Sample.query {| Sample.query := "SR12" |}))
                = Some (snd (nth 1 Sample.NAMASTE_DATA
                               ("", {| Sample.entry_code := ""; Sample.entry_term := "";
                                       Sample.entry_definition := "" |}))))
      by reflexivity.
    destruct (LookupFacts.status_found remote _ st _ E) as [H|H]; rewrite H; discriminate.
Qed.

(** C8.  Both extractors return at most eight strings, none of which is a
    stop word or has three characters or fewer, and they return nothing for
    a definition without any alphanumeric character, as an empty one and one
    of punctuation only are. *)
Theorem C8_extract_keywords_bounded_and_filtered :
  forall definition : string,
    ((List.length (Main.extract_keywords definition) <= 8)%nat
     /\ forall k, In k (Main.extract_keywords definition) ->
                  PyStr.mem k Main.stop_words = false /\ PyStr.len k > 3)
    /\ ((List.length (Sample.extract_keywords definition) <= 8)%nat
        /\ forall k, In k (Sample.extract_keywords definition) ->
                     PyStr.mem k Sample.stop_words = false /\ PyStr.len k > 3)
    /\ ((forall c, In c (list_ascii_of_string definition) -> PyStr.isalnum c = false) ->
        Main.extract_keywords definition = [] /\ Sample.extract_keywords definition = []).
Proof.
  intro d. split; [|split].
  - split; [apply firstn_le_length|].
    intros k H. apply PyStrFacts.In_firstn, in_app_iff in H. destruct H as [H|H].
    + apply KeywordFacts.main_medical_keyword in H. destruct H as [_ [H _]].
      apply andb_true_iff in H. destruct H as [H1 H2].
      apply negb_true_iff in H2. split; [assumption | lia].
    + apply KeywordFacts.main_compound_term in H. simpl in H.
      intuition (subst; split; reflexivity).
  - split; [apply firstn_le_length|].
    intros k H. apply PyStrFacts.In_firstn, in_app_iff in H. destruct H as [H|H].
    + apply KeywordFacts.sample_medical_keyword in H. destruct H as [_ [H _]].
      apply andb_true_iff in H. destruct H as [H1 H2].
      apply negb_true_iff in H2. split; [assumption | lia].
    + apply KeywordFacts.sample_compound_term in H. simpl in H.
      intuition (subst; split; reflexivity).
  - intro H. split;
      [now apply KeywordFacts.main_no_alnum | now apply KeywordFacts.sample_no_alnum].
Qed.

(** A definition of punctuation only yields no keyword. *)
Lemma C8_extract_keywords_witness :
  Main.extract_keywords "?!... --" = [] /\ Sample.extract_keywords "?!... --" = [].
Proof.
  apply (proj2 (proj2 (C8_extract_keywords_bounded_and_filtered "?!... --"))).
  intros c H. simpl in H. intuition (subst; reflexivity).
Defined.


(** C10.  A query that strips to the empty string is never answered 404: the
    empty string is in every key, the first entry of the table (code "6", term
    "vAtasa~jcayaH") is the one found, and the answer is what the aggregation
    for that entry comes to. *)
Theorem C10_blank_query_selects_first_entry :
  forall (remote : Net.Remote) (request : Sample.SearchRequest) (st : Net.State),
    PyStr.strip (Sample.query request) = "" ->
    exists entry,
      Sample.find_entry (PyStr.strip (Sample.query request)) = Some entry
      /\ Sample.entry_code entry = "6"
      /\ Sample.entry_term entry = "vAtasa~jcayaH"
      /\ hd_error Sample.NAMASTE_DATA = Some ("6", entry)
      /\ Props.status (fst (Sample.search_namaste_mapping remote request st)) <> 404
      /\ Sample.search_namaste_mapping remote request st
         = match Sample.try_body remote entry st with
           | (Net.Ok response, st') => (Sample.Return response, st')
           | (Net.Raise msg, st') =>
               (Sample.HTTPException 500 ("Error processing request: " ++ msg)%string, st')
           end.
Proof.
  intros remote request st H.
  assert (E : Sample.find_entry (PyStr.strip (Sample.query request))
              = option_map snd (hd_error Sample.NAMASTE_DATA))
    by (rewrite H; reflexivity).
  simpl in E. eexists. split; [exact E|].
  repeat split.
  - destruct (LookupFacts.status_found remote request st _ E) as [S|S]; rewrite S;
      discriminate.
  - unfold Sample.search_namaste_mapping. now rewrite E.
Qed.

(** The query of three blanks. *)
Lemma C10_blank_query_witness :
  exists entry,
    Sample.entry_code entry = "6"
    /\ fst (Sample.search_namaste_mapping Scenario.silent {| Sample.query := "   " |}
              Scenario.fresh)
       = fst (match Sample.try_body Scenario.silent entry Scenario.fresh with
              | (Net.Ok response, st') => (Sample.Return response, st')
              | (Net.Raise msg, st') =>
                  (Sample.HTTPException 500 ("Error processing request: " ++ msg)%string,
                   st')
              end).
Proof.
  destruct (C10_blank_query_selects_first_entry Scenario.silent
              {| Sample.query := "   " |} Scenario.fresh eq_refl)
    as [entry [_ [Hc [_ [_ [_ H]]]]]].
  exists entry. split; [exact Hc | now rewrite H].
Defined.

(* ################################################################# *)
(** * Further properties of the two programs *)

(** X1.  The token that [get_token] of the service returns is the one it
    leaves in the cache.  When it is not empty, every later call returns it
    without a request and without a change of state, whatever the token
    endpoint would answer; an empty token is stored too, but the next call
    asks the token endpoint again. *)
Theorem X1_token_cache :
  forall (remote : Net.Remote) (st : Net.State) (t : string) (st1 : Net.State),
    Sample.get_token remote st = (Net.Ok t, st1) ->
    Net.token_cache st1 = Some t
    /\ (PyStr.nonempty t = true ->
        forall remote', Sample.get_token remote' st1 = (Net.Ok t, st1))
    /\ (PyStr.nonempty t = false ->
        forall remote',
          Net.requests (snd (Sample.get_token remote' st1))
          = Net.requests st1 ++ [Net.TokenRequest]).
Proof.
  intros remote st t st1 H.
  assert (C : Net.token_cache st1 = Some t).
  { destruct (TokenFacts.sample_get_token_cases st) as [[t0 [C N]]|C].
    - rewrite (TokenFacts.sample_get_token_warm remote st t0 C N) in H.
      now injection H as <- <-.
    - rewrite (TokenFacts.sample_get_token_cold remote st C) in H.
      destruct (Net.token_endpoint remote (Net.requests st)); [|discriminate].
      now injection H as <- <-. }
  split; [exact C|]. split.
  - intros N remote'. now apply TokenFacts.sample_get_token_warm.
  - intros N remote'. rewrite TokenFacts.sample_get_token_cold by (right; now exists t).
    now destruct (Net.token_endpoint remote' (Net.requests st1)).
Qed.

(** The first call of a process fetches the token; the second serves it from
    the cache, also when the token endpoint has begun to refuse. *)
Lemma X1_token_cache_witness :
  let st1 := snd (Sample.get_token Scenario.silent Scenario.fresh) in
  Net.token_cache st1 = Some "token"
  /\ Sample.get_token Scenario.denied st1 = (Net.Ok "token", st1).
Proof.
  destruct (X1_token_cache Scenario.silent Scenario.fresh "token"
              (snd (Sample.get_token Scenario.silent Scenario.fresh)) eq_refl)
    as [H1 [H2 _]].
  split; [exact H1 | exact (H2 eq_refl Scenario.denied)].
Defined.

(** X2.  A call of the endpoint by a process whose cache holds a token that
    is not empty makes no token request and keeps the token, whatever it
    answers: every request it makes is a search that carries this token, also
    after a search has failed. *)
Theorem X2_cached_token_never_renewed :
  forall (remote : Net.Remote) (request : Sample.SearchRequest) (st : Net.State)
         (t : string) (r : Sample.Response) (st' : Net.State),
    Net.token_cache st = Some t -> PyStr.nonempty t = true ->
    Sample.search_namaste_mapping remote request st = (r, st') ->
    Net.token_cache st' = Some t
    /\ exists qs, Net.requests st' = Net.requests st ++ map (Net.SearchRequest t) qs.
Proof.
  intros remote request st t r st' C N H.
  unfold Sample.search_namaste_mapping in H.
  destruct (Sample.find_entry (PyStr.strip (Sample.query request))) as [entry|].
  - unfold Sample.try_body in H. unfold Net.bind at 1 in H.
    rewrite (TokenFacts.sample_get_token_warm remote st t C N) in H.
    unfold Net.bind at 1 in H.
    match type of H with
    | context [Sample.run_queries ?r ?t ?k ?tok ?s] =>
        destruct (Sample.run_queries r t k tok s) as [[all|msg] st2] eqn:E
    end.
    + injection H as _ <-.
      pose proof (QueryFacts.sample_run_queries_requests _ _ _ _ _ _ _ E) as R.
      unfold Sample.run_queries in E. unfold Net.bind at 1 in E.
      unfold Net.search_icd at 1 in E.
      destruct (Net.search_endpoint remote (Net.requests st) t (Sample.entry_term entry));
        [|discriminate].
      apply (NetFacts.for_each_search remote t
               (fun all keyword candidates =>
                  fold_left (Sample.keyword_candidate (Sample.entry_term entry) keyword)
                    candidates all)) in E.
      destruct E as [_ E]. simpl in E. split; [congruence|]. eexists. exact R.
    + injection H as _ <-.
      apply FailureFacts.sample_run_queries_fails in E.
      destruct E as [E1 [made [E2 E3]]]. split; [congruence|].
      apply TokenFacts.stops_at_searches in E3. destruct E3 as [qs [-> _]].
      now exists qs.
  - injection H as _ <-. split; [assumption|]. exists []. simpl. now rewrite app_nil_r.
Qed.

(** With a token in the cache, a call whose third search fails is answered
    with an error and leaves the token where it was. *)
Lemma X2_cached_token_witness :
  let st' := snd (Sample.search_namaste_mapping Scenario.flaky {| Sample.query := "SR12" |}
                    Scenario.warm) in
  Net.token_cache st' = Some "cached"
  /\ exists qs, Net.requests st' = [] ++ map (Net.SearchRequest "cached") qs.
Proof.
  exact (X2_cached_token_never_renewed Scenario.flaky {| Sample.query := "SR12" |}
           Scenario.warm "cached" _ _ eq_refl eq_refl
           (surjective_pairing _)).
Defined.

(** X3.  The batch run fails in two ways only, and keeps the message of the
    request that failed: the token request fails, and then no search is made;
    or the token request succeeds and a search fails, and then the searches
    made are the first of the plan (the term, the keywords, the symptom
    phrases), the failing one being the last: no search is made after it. *)
Theorem X3_batch_failure :
  forall (code term def : string) (remote : Net.Remote) (st : Net.State)
         (msg : string) (st' : Net.State),
    Main.build_mapping code term def remote st = (Net.Raise msg, st') ->
    (Net.token_endpoint remote (Net.requests st) = Net.Raise msg
     /\ Net.requests st' = Net.requests st ++ [Net.TokenRequest])
    \/ exists token made,
         Net.token_endpoint remote (Net.requests st) = Net.Ok token
         /\ Net.requests st' = Net.requests st ++ Net.TokenRequest :: made
         /\ Props.stops_at remote token (Net.requests st ++ [Net.TokenRequest])
              (Props.batch_plan term def) made msg.
Proof.
  intros code term def remote st msg st' H.
  unfold Main.build_mapping, Main.get_token in H. unfold Net.bind at 1 in H.
  unfold Net.post_token at 1 in H.
  destruct (Net.token_endpoint remote (Net.requests st)) as [token|m].
  - right. unfold Net.bind at 1 in H.
    match type of H with
    | context [Main.run_queries ?t ?d ?r ?k ?s] =>
        destruct (Main.run_queries t d r k s) as [[vars|m] st2] eqn:E
    end; [discriminate|].
    injection H as <- <-.
    apply FailureFacts.main_run_queries_fails in E. simpl in E.
    destruct E as [_ [made [E2 E3]]].
    exists token, made. split; [reflexivity|]. split; [|exact E3].
    rewrite E2, <- app_assoc. reflexivity.
  - left. injection H as <- <-. now split.
Qed.

(** The batch run for the deployed entry, against a service whose third
    search fails, stops after three searches. *)
Lemma X3_batch_failure_witness :
  exists token made,
    Net.token_endpoint Scenario.flaky [] = Net.Ok token
    /\ Net.requests (snd (Main.build_mapping_specific Scenario.flaky Scenario.fresh))
       = [] ++ Net.TokenRequest :: made
    /\ Props.stops_at Scenario.flaky token ([] ++ [Net.TokenRequest])
         (Props.batch_plan Main.nam_term Main.nam_def) made "503 Server Error".
Proof.
  destruct (X3_batch_failure Main.nam_code Main.nam_term Main.nam_def Scenario.flaky
              Scenario.fresh "503 Server Error"
              (snd (Main.build_mapping_specific Scenario.flaky Scenario.fresh)))
    as [[H _]|H].
  - vm_compute. reflexivity.
  - discriminate H.
  - exact H.
Defined.

(** X4.  The endpoint answers with the response model or with one of two
    errors.  The error 404 is raised before any request is made and leaves the
    process as it was; its detail quotes the stripped query and lists the two
    keys.  The error 500 stands for a failed token request or for the first
    failed search, after which no search is made, and its detail is the
    message of that failure after "Error processing request: ". *)
Theorem X4_service_errors :
  forall (remote : Net.Remote) (request : Sample.SearchRequest) (st : Net.State)
         (status_code : Z) (detail : string) (st' : Net.State),
    Sample.search_namaste_mapping remote request st
    = (Sample.HTTPException status_code detail, st') ->
    let query := PyStr.strip (Sample.query request) in
    (status_code = 404
     /\ Sample.find_entry query = None
     /\ st' = st
     /\ detail = ("NAMASTE entry not found for query: '" ++ query
                  ++ "'. Available entries: ['6', 'SR12 (AAA-2)']")%string)
    \/ exists entry msg,
         status_code = 500
         /\ Sample.find_entry query = Some entry
         /\ detail = ("Error processing request: " ++ msg)%string
         /\ (Sample.get_token remote st = (Net.Raise msg, st')
             /\ Net.requests st' = Net.requests st ++ [Net.TokenRequest]
             /\ Net.token_cache st' = Net.token_cache st
             \/ exists token st1 made,
                  Sample.get_token remote st = (Net.Ok token, st1)
                  /\ Net.requests st' = Net.requests st1 ++ made
                  /\ Net.token_cache st' = Net.token_cache st1
                  /\ Props.stops_at remote token (Net.requests st1)
                       (Props.service_plan entry) made msg).
Proof.
  intros remote request st status_code detail st' H query. subst query.
  unfold Sample.search_namaste_mapping in H.
  destruct (Sample.find_entry (PyStr.strip (Sample.query request))) as [entry|].
  - right. unfold Sample.try_body in H. unfold Net.bind at 1 in H.
    destruct (Sample.get_token remote st) as [[token|m] st1] eqn:T.
    + unfold Net.bind at 1 in H.
      match type of H with
      | context [Sample.run_queries ?r ?t ?k ?tok ?s] =>
          destruct (Sample.run_queries r t k tok s) as [[all|m] st2] eqn:E
      end; [discriminate|].
      injection H as <- <- <-.
      apply FailureFacts.sample_run_queries_fails in E.
      destruct E as [E1 [made [E2 E3]]].
      exists entry, m. repeat split. right. exists token, st1, made. now repeat split.
    + injection H as <- <- <-. exists entry, m. repeat split. left.
      split; [reflexivity|].
      destruct (TokenFacts.sample_get_token_cases st) as [[t0 [C N]]|C].
      * rewrite (TokenFacts.sample_get_token_warm remote st t0 C N) in T. discriminate.
      * rewrite (TokenFacts.sample_get_token_cold remote st C) in T.
        destruct (Net.token_endpoint remote (Net.requests st)); [discriminate|].
        injection T as _ <-. now split.
  - left. injection H as <- <- <-. now repeat split.
Qed.

(** A query that names no entry is answered 404 without a request; the call
    for "SR12" whose third search fails is answered 500 with the message of
    that search. *)
Lemma X4_service_errors_witness :
  (fst (Sample.search_namaste_mapping Scenario.silent {| Sample.query := " pitta " |}
          Scenario.fresh)
   = Sample.HTTPException 404
       "NAMASTE entry not found for query: 'pitta'. Available entries: ['6', 'SR12 (AAA-2)']"
   /\ snd (Sample.search_namaste_mapping Scenario.silent {| Sample.query := " pitta " |}
             Scenario.fresh) = Scenario.fresh)
  /\ fst (Sample.search_namaste_mapping Scenario.flaky {| Sample.query := "SR12" |}
            Scenario.fresh)
     = Sample.HTTPException 500 "Error processing request: 503 Server Error".
Proof.
  split.
  - destruct (Sample.search_namaste_mapping Scenario.silent {| Sample.query := " pitta " |}
                Scenario.fresh) as [r st'] eqn:E.
    assert (R : exists detail, r = Sample.HTTPException 404 detail).
    { apply (f_equal fst) in E. vm_compute in E. rewrite <- E. eexists. reflexivity. }
    destruct R as [detail ->].
    destruct (X4_service_errors _ _ _ _ _ _ E) as [[_ [_ [H1 H2]]]|[entry [msg [H _]]]];
      [|discriminate].
    cbn [fst snd]. rewrite H1, H2. split; [vm_compute|]; reflexivity.
  - destruct (Sample.search_namaste_mapping Scenario.flaky {| Sample.query := "SR12" |}
                Scenario.fresh) as [r st'] eqn:E.
    assert (R : exists detail, r = Sample.HTTPException 500 detail).
    { apply (f_equal fst) in E. vm_compute in E. rewrite <- E. eexists. reflexivity. }
    destruct R as [detail ->].
    destruct (X4_service_errors _ _ _ _ _ _ E)
      as [[H _]|[entry [msg [_ [_ [H [[T _]|[token [st1 [made [T [_ [_ S]]]]]]]]]]]]];
      [discriminate| |].
    + vm_compute in T. discriminate.
    + cbn [fst]. rewrite H.
      assert (M : msg = "503 Server Error").
      { destruct S as [done [q [rest [_ [_ S]]]]].
        unfold Scenario.flaky in S. cbn [Net.search_endpoint] in S.
        destruct (Nat.eqb _ 2); [now injection S | discriminate]. }
      rewrite M. reflexivity.
Defined.

(** X5.  Whatever the services answer, one call of the endpoint makes at
    most ten requests, of which at most one is a token request and at most
    nine are searches; one batch run makes at most sixteen, of which the
    first, and no other, is the token request.  Requests made earlier stay
    in the record. *)
Theorem X5_request_budget :
  (forall (remote : Net.Remote) (request : Sample.SearchRequest) (st : Net.State),
      exists new,
        Net.requests (snd (Sample.search_namaste_mapping remote request st))
        = Net.requests st ++ new
        /\ (Props.token_requests new <= 1)%nat
        /\ (List.length (Net.queries new) <= 9)%nat
        /\ (List.length new <= 10)%nat)
  /\ (forall (code term def : string) (remote : Net.Remote) (st : Net.State),
         exists searches,
           Net.requests (snd (Main.build_mapping code term def remote st))
           = Net.requests st ++ Net.TokenRequest :: searches
           /\ Props.token_requests searches = 0%nat
           /\ (List.length searches <= 15)%nat).
Proof.
  assert (K : forall d, (List.length (Sample.extract_keywords d) <= 8)%nat)
    by (intro d; apply firstn_le_length).
  assert (K' : forall d, (List.length (Main.extract_keywords d) <= 8)%nat)
    by (intro d; apply firstn_le_length).
  split.
  - intros remote request st.
    unfold Sample.search_namaste_mapping.
    destruct (Sample.find_entry (PyStr.strip (Sample.query request))) as [entry|].
    2:{ exists []. simpl. rewrite app_nil_r. repeat split; lia. }
    unfold Sample.try_body. unfold Net.bind at 1.
    assert (T : exists tok,
               Net.requests (snd (Sample.get_token remote st)) = Net.requests st ++ tok
               /\ (tok = [] \/ tok = [Net.TokenRequest])).
    { destruct (TokenFacts.sample_get_token_cases st) as [[t0 [C N]]|C].
      - rewrite (TokenFacts.sample_get_token_warm remote st t0 C N).
        exists []. simpl. rewrite app_nil_r. now split; [|left].
      - rewrite (TokenFacts.sample_get_token_cold remote st C).
        exists [Net.TokenRequest].
        destruct (Net.token_endpoint remote (Net.requests st)); now split; [|right]. }
    destruct T as [tok [T1 T2]].
    assert (B : (Props.token_requests tok <= 1)%nat /\ Net.queries tok = []
                /\ (List.length tok <= 1)%nat)
      by (destruct T2 as [->| ->]; simpl; repeat split; lia).
    destruct B as [B1 [B2 B3]].
    destruct (Sample.get_token remote st) as [[token|m] st1].
    + simpl in T1. unfold Net.bind at 1.
      match goal with
      | |- context [Sample.run_queries ?r ?t ?k ?tok ?s] =>
          destruct (Sample.run_queries r t k tok s) as [[all|m] st2] eqn:E
      end.
      * apply QueryFacts.sample_run_queries_requests in E. simpl.
        eexists. split; [rewrite E, T1, <- app_assoc; reflexivity|].
        rewrite TokenFacts.token_requests_app, TokenFacts.token_requests_searches,
          NetFacts.queries_app, NetFacts.queries_searches, B2, !length_app, length_map.
        specialize (K (Sample.entry_definition entry)). simpl. repeat split; lia.
      * apply FailureFacts.sample_run_queries_fails in E.
        destruct E as [_ [made [E2 E3]]].
        apply TokenFacts.stops_at_searches in E3. destruct E3 as [qs [-> L]].
        simpl. eexists. split; [rewrite E2, T1, <- app_assoc; reflexivity|].
        rewrite TokenFacts.token_requests_app, TokenFacts.token_requests_searches,
          NetFacts.queries_app, NetFacts.queries_searches, B2, !length_app, length_map.
        specialize (K (Sample.entry_definition entry)). simpl in L |- *.
        repeat split; lia.
    + simpl in T1 |- *. exists tok. rewrite B2. simpl. repeat split; try assumption; lia.
  - intros code term def remote st.
    assert (P : (List.length (Props.batch_plan term def) <= 15)%nat).
    { unfold Props.batch_plan. rewrite !length_app. simpl.
      specialize (K' def). destruct (PyStr.nonempty (PyStr.strip def)); simpl; lia. }
    unfold Main.build_mapping, Main.get_token. unfold Net.bind at 1.
    unfold Net.post_token at 1.
    destruct (Net.token_endpoint remote (Net.requests st)) as [token|m].
    2:{ exists []. simpl. repeat split. lia. }
    unfold Net.bind at 1.
    match goal with
    | |- context [Main.run_queries ?t ?d ?r ?k ?s] =>
        destruct (Main.run_queries t d r k s) as [[vars|m] st2] eqn:E
    end.
    + apply QueryFacts.main_run_queries_requests in E. simpl in E |- *.
      exists (map (Net.SearchRequest token) (Props.batch_plan term def)).
      split; [rewrite E, <- app_assoc; reflexivity|].
      rewrite TokenFacts.token_requests_searches, length_map. split; [reflexivity|].
      exact P.
    + apply FailureFacts.main_run_queries_fails in E. simpl in E |- *.
      destruct E as [_ [made [E2 E3]]].
      apply TokenFacts.stops_at_searches in E3. destruct E3 as [qs [-> L]].
      exists (map (Net.SearchRequest token) qs).
      split; [rewrite E2, <- app_assoc; reflexivity|].
      rewrite TokenFacts.token_requests_searches, length_map. split; [reflexivity | lia].
Qed.

(** X6.  Every entry of the table that the batch run ends with carries the
    score and the source of its own title: the similarity of the term and the
    title under "NAMASTE_term"; the greater of that and 0.8 times the
    similarity of a keyword and the title under "keyword: " and that keyword,
    which is one of the extracted keywords; 0.9 times the similarity of a
    symptom phrase and the title under "symptom: " and that phrase.  The codes
    of the table are pairwise distinct. *)
Theorem X6_batch_table_entries :
  forall (code term def : string) (remote : Net.Remote) (st : Net.State)
         (row : Main.Row) (table : PyDict.dict string Main.Candidate) (st' : Net.State),
    Main.build_mapping code term def remote st = (Net.Ok (row, table), st') ->
    Props.distinct_codes table
    /\ forall icd title score source,
         In (icd, (title, score, source)) table ->
         Props.scored Main.similarity term (Main.extract_keywords def)
           Main.symptom_phrases title score source.
Proof.
  intros code term def remote st row table st' H.
  unfold Main.build_mapping, Net.bind in H.
  destruct (Main.get_token remote st) as [[token|msg] st1]; [|discriminate].
  destruct (Main.run_queries term def remote token st1) as [[vars|msg] st2] eqn:E;
    [|discriminate].
  injection H as _ <- _. split.
  - now apply TableFacts.main_table_distinct_codes in E.
  - apply ScoreFacts.main_run_queries_consistent in E. exact (proj1 E).
Qed.

(** The run in which the query for the term finds one code twice ends with
    one entry, scored as the term query scores its title. *)
Lemma X6_batch_table_witness :
  Props.scored Main.similarity Main.nam_term (Main.extract_keywords Main.nam_def)
    Main.symptom_phrases "Pitta disorder"
    (Main.similarity "vAtavRuddhiH" "Pitta disorder") "NAMASTE_term".
Proof.
  destruct (Main.build_mapping_specific Scenario.twice Scenario.fresh) as [r st'] eqn:E.
  assert (R : exists row,
             r = Net.Ok (row, [("SK00", ("Pitta disorder",
                                         Main.similarity "vAtavRuddhiH" "Pitta disorder",
                                         "NAMASTE_term"))])).
  { apply (f_equal fst) in E. cbn [fst] in E. rewrite <- E. vm_compute.
    eexists. reflexivity. }
  destruct R as [row ->].
  apply (proj2 (X6_batch_table_entries _ _ _ _ _ _ _ _ E) "SK00"). now left.
Defined.

(** X7.  The row that the batch run saves is consistent with the table and
    with itself: its ICD-11 code, when it has one, is a code of the table, and
    its similarity is, rounded to three places, the score that the title and the
    source of the row call for (as in X6); a row without a code has no title
    and no source. *)
Theorem X7_batch_row :
  forall (code term def : string) (remote : Net.Remote) (st : Net.State)
         (row : Main.Row) (table : PyDict.dict string Main.Candidate) (st' : Net.State),
    Main.build_mapping code term def remote st = (Net.Ok (row, table), st') ->
    Main.NAMASTE_CODE row = code /\ Main.NAMASTE_TERM row = term
    /\ match Main.ICD11_CODE row with
       | Some icd =>
           In icd (PyDict.keys table)
           /\ exists title source score,
                Main.ICD11_TERM row = Some title
                /\ Main.MATCH_SOURCE row = Some source
                /\ Main.SIMILARITY row = PyFloat.round3 score
                /\ PyFloat.gt score PyFloat.f0_0 = true
                /\ Props.scored Main.similarity term (Main.extract_keywords def)
                     Main.symptom_phrases title score source
       | None => Main.ICD11_TERM row = None /\ Main.MATCH_SOURCE row = None
       end.
Proof.
  intros code term def remote st row table st' H.
  unfold Main.build_mapping, Net.bind in H.
  destruct (Main.get_token remote st) as [[token|msg] st1]; [|discriminate].
  destruct (Main.run_queries term def remote token st1) as [[vars|msg] st2] eqn:E;
    [|discriminate].
  injection H as <- <- _.
  pose proof (BestFacts.main_run_queries_tracked _ _ _ _ _ _ _ E) as [Hb _].
  apply ScoreFacts.main_run_queries_consistent in E. destruct E as [_ E].
  unfold Main.make_row. simpl. split; [reflexivity|]. split; [reflexivity|].
  destruct (Main.best_overall_match vars) as [[[c t] s]|]; simpl; [|now split].
  destruct (E c t s eq_refl) as [E1 E2]. split; [assumption|].
  exists t, s, (Main.best_overall_score vars). now repeat split.
Qed.

(** In the run in which the query for the term finds one code twice, the
    code of the row is the one code of the table. *)
Lemma X7_batch_row_witness :
  exists row table,
    fst (Main.build_mapping_specific Scenario.twice Scenario.fresh) = Net.Ok (row, table)
    /\ Main.ICD11_CODE row = Some "SK00" /\ In "SK00" (PyDict.keys table).
Proof.
  destruct (Main.build_mapping_specific Scenario.twice Scenario.fresh) as [r st'] eqn:E.
  assert (R : exists row table,
             r = Net.Ok (row, table) /\ Main.ICD11_CODE row = Some "SK00").
  { apply (f_equal fst) in E. cbn [fst] in E. rewrite <- E. vm_compute.
    eexists. eexists. split; reflexivity. }
  destruct R as [row [table [-> C]]].
  exists row, table. split; [reflexivity|]. split; [exact C|].
  pose proof (proj2 (proj2 (X7_batch_row _ _ _ _ _ _ _ _ E))) as H.
  rewrite C in H. exact (proj1 H).
Defined.

(** X8.  In a response of the service the candidates are the entries of the
    table, each once, with the score rounded to three places, in an order in
    which no candidate is followed by one of greater similarity; and the best
    match, when there is one, is one of them. *)
Theorem X8_response_candidates_sorted :
  forall (entry : Sample.Entry) (keywords : list string)
         (table : PyDict.dict string Sample.Candidate),
    let body := Sample.respond entry keywords table in
    Permutation (Sample.icd_candidates body) (map Props.candidate_of table)
    /\ Sorted Props.follows (Sample.icd_candidates body)
    /\ forall best, Sample.best_match body = Some best ->
                    In best (Sample.icd_candidates body).
Proof.
  intros entry keywords table body. subst body.
  rewrite ResponseFacts.respond_candidates. split; [|split].
  - apply ResponseFacts.sort_by_similarity_perm.
  - apply ResponseFacts.sort_by_similarity_sorted.
  - intros best H. apply ResponseFacts.respond_best in H.
    apply (Permutation_in best (Permutation_sym
                                  (ResponseFacts.sort_by_similarity_perm _))).
    exact H.
Qed.

(** A table of two entries, of which the first scores 1.0: it is the best
    match and one of the candidates. *)
Lemma X8_response_witness :
  let body :=
    Sample.respond
      {| Sample.entry_code := "SR12 (AAA-2)"; Sample.entry_term := "vAtavRuddhiH";
         Sample.entry_definition := "" |} []
      [("SK00", ("Vata disorder", PyFloat.f1_0, "NAMASTE_term"));
       ("SK01", ("Bone", PyFloat.f0_0, "NAMASTE_term"))] in
  exists best, Sample.best_match body = Some best /\ In best (Sample.icd_candidates body).
Proof.
  intro body.
  assert (B : exists best, Sample.best_match body = Some best)
    by (vm_compute; eexists; reflexivity).
  destruct B as [best B]. exists best. split; [exact B|].
  exact (proj2 (proj2 (X8_response_candidates_sorted _ _ _)) best B).
Defined.

(** X9.  A response of the service names the entry found for the stripped
    query, with the keywords extracted from its definition.  No two of its
    candidates have the same code; no candidate has an empty code or an
    empty title; and each has, rounded, the score that its title and its
    source call for: the similarity of the term and the title under
    "NAMASTE_term", the greater of that and 0.8 times the similarity of the
    keyword and the title under "keyword: " and one of the keywords. *)
Theorem X9_response_well_formed :
  forall (remote : Net.Remote) (request : Sample.SearchRequest) (st : Net.State)
         (body : Sample.ConceptMapResponse) (st' : Net.State),
    Sample.search_namaste_mapping remote request st = (Sample.Return body, st') ->
    (exists entry,
        Sample.find_entry (PyStr.strip (Sample.query request)) = Some entry
        /\ Sample.namaste_code body = Sample.entry_code entry
        /\ Sample.namaste_term body = Sample.entry_term entry
        /\ Sample.namaste_definition body = Sample.entry_definition entry
        /\ Sample.extracted_keywords body
           = Sample.extract_keywords (Sample.entry_definition entry))
    /\ NoDup (map Sample.code (Sample.icd_candidates body))
    /\ forall c,
         In c (Sample.icd_candidates body) ->
         PyStr.nonempty (Sample.code c) = true
         /\ PyStr.nonempty (Sample.title c) = true
         /\ exists score,
              Sample.similarity_ c = PyFloat.round3 score
              /\ Props.scored Sample.similarity (Sample.namaste_term body)
                   (Sample.extracted_keywords body) [] (Sample.title c) score
                   (Sample.source c).
Proof.
  intros remote request st body st' H.
  unfold Sample.search_namaste_mapping in H.
  destruct (Sample.find_entry (PyStr.strip (Sample.query request))) as [entry|];
    [|discriminate].
  unfold Sample.try_body, Net.bind in H.
  destruct (Sample.get_token remote st) as [[token|msg] st1]; [|discriminate].
  match type of H with
  | context [Sample.run_queries ?r ?t ?k ?tok ?s] =>
      destruct (Sample.run_queries r t k tok s) as [[all|msg] st2] eqn:E
  end; [|discriminate].
  injection H as <- _.
  assert (P : Permutation
                (Sample.icd_candidates
                   (Sample.respond entry
                      (Sample.extract_keywords (Sample.entry_definition entry)) all))
                (map Props.candidate_of all)).
  { rewrite ResponseFacts.respond_candidates.
    apply ResponseFacts.sort_by_similarity_perm. }
  assert (F : Sample.namaste_term
                (Sample.respond entry
                   (Sample.extract_keywords (Sample.entry_definition entry)) all)
              = Sample.entry_term entry
              /\ Sample.extracted_keywords
                   (Sample.respond entry
                      (Sample.extract_keywords (Sample.entry_definition entry)) all)
                 = Sample.extract_keywords (Sample.entry_definition entry)
              /\ Sample.namaste_code
                   (Sample.respond entry
                      (Sample.extract_keywords (Sample.entry_definition entry)) all)
                 = Sample.entry_code entry
              /\ Sample.namaste_definition
                   (Sample.respond entry
                      (Sample.extract_keywords (Sample.entry_definition entry)) all)
                 = Sample.entry_definition entry).
  { unfold Sample.respond.
    destruct (fold_left Sample.convert_item all ([], None, PyFloat.f0_0))
      as [[cands best] bs]. now repeat split. }
  destruct F as [F1 [F2 [F3 F4]]].
  split; [|split].
  - exists entry. now repeat split.
  - apply (Permutation_NoDup (l := PyDict.keys all)).
    + rewrite <- ResponseFacts.map_code_candidate_of. symmetry.
      now apply Permutation_map.
    + now apply TableFacts.sample_table_distinct_codes in E.
  - intros c Hc. rewrite F1, F2.
    apply (Permutation_in c P) in Hc. apply in_map_iff in Hc.
    destruct Hc as [[code [[title score] source]] [<- Hin]].
    apply ResponseFacts.sample_table_well_formed in E.
    apply (proj1 (Forall_forall _ _) E) in Hin. destruct Hin as [H1 [H2 H3]].
    simpl. split; [assumption|]. split; [assumption|]. now exists score.
Qed.

(** The call for "SR12" against a service whose query for the term finds one
    entity: the response has one candidate, with a code and a title. *)
Lemma X9_response_witness :
  exists body,
    fst (Sample.search_namaste_mapping Scenario.unrelated {| Sample.query := "SR12" |}
           Scenario.fresh) = Sample.Return body
    /\ NoDup (map Sample.code (Sample.icd_candidates body))
    /\ Sample.namaste_code body = "SR12 (AAA-2)".
Proof.
  destruct (Sample.search_namaste_mapping Scenario.unrelated {| Sample.query := "SR12" |}
              Scenario.fresh) as [r st'] eqn:E.
  assert (R : exists body,
             r = Sample.Return body /\ Sample.namaste_code body = "SR12 (AAA-2)").
  { apply (f_equal fst) in E. cbn [fst] in E. rewrite <- E. vm_compute.
    eexists. split; reflexivity. }
  destruct R as [body [-> C]].
  exists body. split; [reflexivity|]. split; [|exact C].
  exact (proj1 (proj2 (X9_response_well_formed _ _ _ _ _ E))).
Defined.

(** X10.  The lookup of the endpoint takes no account of the case of the
    query nor of the white space around it.  It finds the first entry, "6",
    when the lowered query is part of "6" or of "vatasa~jcayah", also when it
    is part of the second entry too; it finds the second entry when it is not,
    but is part of "sr12 (aaa-2)" or of "vatavruddhih"; and it finds nothing
    otherwise.  Two queries that are equal once stripped and lowered, and for
    which an entry is found, are answered alike. *)
Theorem X10_lookup :
  forall q1 q2 : string,
    PyStr.lower (PyStr.strip q1) = PyStr.lower (PyStr.strip q2) ->
    let low := PyStr.lower (PyStr.strip q1) in
    Sample.find_entry (PyStr.strip q1)
    = (if PyStr.contains low "6" || PyStr.contains low "vatasa~jcayah"
       then Some Scenario.first_entry
       else if PyStr.contains low "sr12 (aaa-2)" || PyStr.contains low "vatavruddhih"
            then Some Scenario.second_entry
            else None)
    /\ Sample.find_entry (PyStr.strip q1) = Sample.find_entry (PyStr.strip q2)
    /\ forall (remote : Net.Remote) (st : Net.State),
         Sample.find_entry (PyStr.strip q1) <> None ->
         Sample.search_namaste_mapping remote {| Sample.query := q1 |} st
         = Sample.search_namaste_mapping remote {| Sample.query := q2 |} st.
Proof.
  intros q1 q2 E low.
  assert (F : Sample.find_entry (PyStr.strip q1) = Sample.find_entry (PyStr.strip q2))
    by now apply CaseFacts.find_entry_lower.
  split; [|split].
  - unfold Sample.find_entry, Sample.NAMASTE_DATA. cbn [find].
    rewrite !LookupFacts.entry_matches_substring. cbn [fst snd Sample.entry_term].
    fold low.
    change (PyStr.lower "6") with "6".
    change (PyStr.lower "vAtasa~jcayaH") with "vatasa~jcayah".
    change (PyStr.lower "SR12 (AAA-2)") with "sr12 (aaa-2)".
    change (PyStr.lower "vAtavRuddhiH") with "vatavruddhih".
    destruct (PyStr.contains low "6" || PyStr.contains low "vatasa~jcayah");
      [reflexivity|].
    destruct (PyStr.contains low "sr12 (aaa-2)" || PyStr.contains low "vatavruddhih");
      reflexivity.
  - exact F.
  - intros remote st N. unfold Sample.search_namaste_mapping. cbn [Sample.query].
    rewrite <- F. destruct (Sample.find_entry (PyStr.strip q1)); [reflexivity|].
    now elim N.
Qed.

(** The query " vata " is part of the terms of both entries and finds the
    first, as "VATA" does. *)
Lemma X10_lookup_witness :
  Sample.find_entry (PyStr.strip " vata ") = Some Scenario.first_entry
  /\ Sample.find_entry (PyStr.strip " vata ") = Sample.find_entry (PyStr.strip "VATA").
Proof.
  destruct (X10_lookup " vata " "VATA" eq_refl) as [H1 [H2 _]].
  split; [rewrite H1; reflexivity | exact H2].
Defined.

(** X11.  Every keyword that an extractor returns is one of its compound
    phrases, or a word of the definition in lower case: one of the words into
    which the lowered definition falls once its punctuation is taken for white
    space, which therefore occurs in the lowered definition, is made of word
    characters only (letters, digits and the underscore: no white space, no
    punctuation) and has one of the medical terms of the extractor in it. *)
Theorem X11_keywords_shape :
  forall definition k : string,
    (In k (Main.extract_keywords definition) ->
     In k ["hoarse voice"; "hard stools"; "weakness"; "skin discoloration"]
     \/ (In k (PyStr.split (PyStr.sub_nonword_nonspace (PyStr.lower definition)))
         /\ PyStr.contains k (PyStr.lower definition) = true
         /\ PyStr.lower k = k
         /\ (forall c, In c (list_ascii_of_string k) -> PyStr.isword c = true)
         /\ exists term, In term Main.medical_terms /\ PyStr.contains term k = true))
    /\ (In k (Sample.extract_keywords definition) ->
        In k ["hoarse voice"; "hard stools"; "weakness"]
        \/ (In k (PyStr.split (PyStr.sub_nonword_nonspace (PyStr.lower definition)))
            /\ PyStr.contains k (PyStr.lower definition) = true
            /\ PyStr.lower k = k
            /\ (forall c, In c (list_ascii_of_string k) -> PyStr.isword c = true)
            /\ exists term, In term Sample.medical_terms /\ PyStr.contains term k = true)).
Proof.
  intros d k. split; intro H; apply PyStrFacts.In_firstn, in_app_iff in H;
    destruct H as [H|H].
  - right. apply KeywordFacts.main_medical_keyword in H. destruct H as [H1 [_ H2]].
    destruct (WordFacts.word_chars d k H1) as [L W].
    split; [assumption|]. split; [now apply OccurFacts.word_occurs|].
    split; [assumption|]. split; [assumption|]. apply existsb_exists in H2. exact H2.
  - left. now apply KeywordFacts.main_compound_term in H.
  - right. apply KeywordFacts.sample_medical_keyword in H. destruct H as [H1 [_ H2]].
    destruct (WordFacts.word_chars d k H1) as [L W].
    split; [assumption|]. split; [now apply OccurFacts.word_occurs|].
    split; [assumption|]. split; [assumption|]. apply existsb_exists in H2. exact H2.
  - left. now apply KeywordFacts.sample_compound_term in H.
Qed.

(** "Hoarseness," in a definition gives the keyword "hoarseness". *)
Lemma X11_keywords_shape_witness :
  In "hoarseness" ["hoarse voice"; "hard stools"; "weakness"; "skin discoloration"]
  \/ (In "hoarseness"
        (PyStr.split
           (PyStr.sub_nonword_nonspace
              (PyStr.lower "Roughness or Hoarseness, of the voice.")))
      /\ PyStr.contains "hoarseness" (PyStr.lower "Roughness or Hoarseness, of the voice.")
         = true
      /\ PyStr.lower "hoarseness" = "hoarseness"
      /\ (forall c, In c (list_ascii_of_string "hoarseness") -> PyStr.isword c = true)
      /\ exists term, In term Main.medical_terms /\ PyStr.contains term "hoarseness" = true).
Proof.
  apply (proj1 (X11_keywords_shape "Roughness or Hoarseness, of the voice." "hoarseness")).
  vm_compute. right. now left.
Defined.

(** X12.  A string that is not empty has no similarity with the empty
    string: [similarity] is 0.0 in both orders and in both programs. *)
Theorem X12_similarity_with_empty :
  forall s : string,
    s <> "" -> PyStr.len s <= PyStr.maxsize ->
    Main.similarity s "" = PyFloat.f0_0 /\ Main.similarity "" s = PyFloat.f0_0
    /\ Sample.similarity s "" = PyFloat.f0_0 /\ Sample.similarity "" s = PyFloat.f0_0.
Proof.
  intros s N L. repeat split.
  - now apply ZeroFacts.similarity_empty_right.
  - now apply ZeroFacts.similarity_empty_left.
  - now apply ZeroFacts.similarity_empty_right.
  - now apply ZeroFacts.similarity_empty_left.
Qed.

(** The term of the batch run against a missing title. *)
Lemma X12_similarity_with_empty_witness :
  Main.similarity "vAtavRuddhiH" "" = PyFloat.f0_0.
Proof.
  apply (X12_similarity_with_empty "vAtavRuddhiH"); [discriminate | vm_compute; discriminate].
Defined.

(** X13.  The batch run does not guard against an entity without a title,
    which enters the table under the empty title; yet, for a term that is not
    empty, the row it saves never has the empty title: such a candidate scores
    0.0 in each of the three phases, and the best match is replaced by a
    greater score only. *)
Theorem X13_batch_title_not_empty :
  forall (code term def : string) (remote : Net.Remote) (st : Net.State)
         (row : Main.Row) (table : PyDict.dict string Main.Candidate) (st' : Net.State),
    term <> "" -> PyStr.len term <= PyStr.maxsize -> PyStr.len def <= PyStr.maxsize ->
    Main.build_mapping code term def remote st = (Net.Ok (row, table), st') ->
    Main.ICD11_TERM row <> Some "".
Proof.
  intros code term def remote st row table st' N L Ld H.
  unfold Main.build_mapping, Net.bind in H.
  destruct (Main.get_token remote st) as [[token|msg] st1]; [|discriminate].
  destruct (Main.run_queries term def remote token st1) as [[vars|msg] st2] eqn:E;
    [|discriminate].
  injection H as <- _ _.
  pose proof (BestFacts.main_run_queries_tracked _ _ _ _ _ _ _ E) as [Hb _].
  apply ScoreFacts.main_run_queries_consistent in E. destruct E as [_ E].
  unfold Main.make_row. simpl.
  destruct (Main.best_overall_match vars) as [[[c t] s]|]; simpl; [|discriminate].
  intro T. injection T as ->.
  destruct (E c "" s eq_refl) as [_ S].
  apply ZeroFacts.scored_empty_title in S; try assumption.
  - rewrite S in Hb. discriminate.
  - intros k Hk. now apply (ZeroFacts.main_keyword_length def).
  - apply ZeroFacts.symptom_phrase_length.
Qed.

(** The run in which the only entity found has no title ends with that
    entity in the table and without a best match. *)
Lemma X13_batch_title_witness :
  exists row,
    fst (Main.build_mapping_specific Scenario.untitled Scenario.fresh)
    = Net.Ok (row, [("SK02", ("", PyFloat.f0_0, "NAMASTE_term"))])
    /\ Main.ICD11_TERM row <> Some "".
Proof.
  destruct (Main.build_mapping_specific Scenario.untitled Scenario.fresh)
    as [r st'] eqn:E.
  assert (R : exists row,
             r = Net.Ok (row, [("SK02", ("", PyFloat.f0_0, "NAMASTE_term"))])).
  { apply (f_equal fst) in E. cbn [fst] in E. rewrite <- E. vm_compute.
    eexists. reflexivity. }
  destruct R as [row ->]. exists row. split; [reflexivity|].
  apply (X13_batch_title_not_empty Main.nam_code Main.nam_term Main.nam_def
           Scenario.untitled Scenario.fresh row
           [("SK02", ("", PyFloat.f0_0, "NAMASTE_term"))] st').
  - discriminate.
  - vm_compute. discriminate.
  - vm_compute. discriminate.
  - exact E.
Defined.

(** X14.  [similarity] comes to a value for any two strings: the loop
    [while queue] of [get_matching_blocks] ends within [2 * len(a) + 1]
    rounds, each of which calls [find_longest_match] once. *)
Theorem X14_matching_loop_ends :
  forall x y : string,
    let sm :=
      Difflib.new (list_ascii_of_string (PyStr.lower x))
        (list_ascii_of_string (PyStr.lower y)) in
    exists blocks,
      Difflib.matching_loop sm (S (2 * String.length x))
        [(0, PyStr.len x, 0, PyStr.len y)] []
      = Some blocks.
Proof.
  intros x y sm.
  pose proof (TerminationFacts.matching_loop_terminates sm) as H.
  unfold Difflib.enough_fuel in H. subst sm.
  rewrite (proj1 (IndexFacts.new_fields _ _)), (proj1 (proj2 (IndexFacts.new_fields _ _)))
    in H.
  now rewrite !CommonFacts.len_chars_lower, SimilarityFacts.length_chars,
    SimilarityFacts.length_lower in H.
Qed.

(** X15.  [similarity(a, b)] is [2.0 * M / T] for the total [M] of the sizes
    of the matching blocks of the lowered strings and [T = len(a) + len(b)]
    (1.0 when [T] is 0).  Every block [(i, j, k)] lies inside the two strings
    and over it they have the same characters, [a[i + d] == b[j + d]] for
    [d < k]; and [M] is at most the length of the shorter string. *)
Theorem X15_matching_blocks_sound :
  forall x y : string,
    let sa := list_ascii_of_string (PyStr.lower x) in
    let sb := list_ascii_of_string (PyStr.lower y) in
    let blocks := Difflib.get_matching_blocks (Difflib.new sa sb) in
    Main.similarity x y
    = Difflib.calculate_ratio (Difflib.sum_sizes blocks) (PyStr.len x + PyStr.len y)
    /\ Sample.similarity x y = Main.similarity x y
    /\ 0 <= Difflib.sum_sizes blocks <= Z.min (PyStr.len x) (PyStr.len y)
    /\ forall i j k,
         In (i, j, k) blocks ->
         0 <= k /\ 0 <= i /\ i + k <= PyStr.len x /\ 0 <= j /\ j + k <= PyStr.len y
         /\ forall d, 0 <= d < k ->
              exists c,
                Difflib.getitem sa (i + d) = Some c /\ Difflib.getitem sb (j + d) = Some c.
Proof.
  intros x y sa sb blocks.
  destruct (BlockFacts.get_matching_blocks_sound sa sb) as [F T].
  fold blocks in F, T. subst sa sb.
  rewrite !CommonFacts.len_chars_lower in F, T.
  split; [|split; [|split]].
  - rewrite BlockFacts.sum_sizes_total. apply CommonFacts.similarity_by_blocks.
  - reflexivity.
  - now rewrite BlockFacts.sum_sizes_total.
  - intros i j k H. apply (proj1 (Forall_forall _ _) F) in H.
    destruct H as [H1 [H2 [H3 [H4 [H5 H6]]]]].
    rewrite (proj1 (IndexFacts.new_fields _ _)),
      (proj1 (proj2 (IndexFacts.new_fields _ _))) in H6.
    repeat split; try assumption.
    intros d Hd. now apply CommonFacts.elt_eqb_true, H6.
Qed.

(** The blocks of "Vata" and "vat": one block of three characters, and the
    block of size 0 that ends the list. *)
Lemma X15_matching_blocks_witness :
  0 <= 3 /\ 0 <= 0 /\ 0 + 3 <= PyStr.len "Vata" /\ 0 <= 0 /\ 0 + 3 <= PyStr.len "vat"
  /\ forall d, 0 <= d < 3 ->
       exists c,
         Difflib.getitem (list_ascii_of_string (PyStr.lower "Vata")) (0 + d) = Some c
         /\ Difflib.getitem (list_ascii_of_string (PyStr.lower "vat")) (0 + d) = Some c.
Proof.
  apply (proj2 (proj2 (proj2 (X15_matching_blocks_sound "Vata" "vat"))) 0 0 3).
  vm_compute. now left.
Defined.

(** X16.  Two strings that have no character in common once lowered, and
    are not both empty, have the similarity 0.0 exactly, in both programs. *)
Theorem X16_no_common_character :
  forall x y : string,
    (forall c, In c (list_ascii_of_string (PyStr.lower x)) ->
               In c (list_ascii_of_string (PyStr.lower y)) -> False) ->
    x <> "" \/ y <> "" ->
    PyStr.len x <= PyStr.maxsize -> PyStr.len y <= PyStr.maxsize ->
    Main.similarity x y = PyFloat.f0_0 /\ Sample.similarity x y = PyFloat.f0_0.
Proof.
  intros x y N E Lx Ly.
  assert (G : Main.similarity x y = PyFloat.f0_0); [|now split].
  rewrite CommonFacts.similarity_by_blocks.
  destruct (BlockFacts.get_matching_blocks_sound
              (list_ascii_of_string (PyStr.lower x))
              (list_ascii_of_string (PyStr.lower y))) as [F _].
  rewrite (CommonFacts.total_none _ _ _ _ F).
  - unfold Difflib.calculate_ratio.
    assert (P : 0 < PyStr.len x + PyStr.len y).
    { assert (0 <= PyStr.len x) by (unfold PyStr.len; lia).
      assert (0 <= PyStr.len y) by (unfold PyStr.len; lia).
      destruct E as [E|E]; apply ZeroFacts.len_positive in E; lia. }
    destruct (Z.eqb_spec (PyStr.len x + PyStr.len y) 0) as [Z0|_]; [lia|].
    apply ZeroFacts.ratio_of_none. split; [assumption|].
    assert (2 ^ 64 <= 2 ^ 1021) by (apply Z.pow_le_mono_r; lia).
    unfold PyStr.maxsize in Lx, Ly. lia.
  - intros i j k H. apply (proj1 (Forall_forall _ _) F) in H.
    destruct H as [H1 [_ [_ [_ [_ H6]]]]].
    destruct (Z.le_gt_cases k 0) as [L|L]; [assumption|]. exfalso.
    specialize (H6 0 ltac:(lia)). apply CommonFacts.elt_eqb_true in H6.
    destruct H6 as [c [Ha Hb]].
    rewrite (proj1 (IndexFacts.new_fields _ _)) in Ha.
    rewrite (proj1 (proj2 (IndexFacts.new_fields _ _))) in Hb.
    apply CommonFacts.getitem_In in Ha, Hb. exact (N c Ha Hb).
Qed.

(** The term of the batch run and the title "Bone". *)
Lemma X16_no_common_character_witness :
  Main.similarity "vAtavRuddhiH" "Bone" = PyFloat.f0_0.
Proof.
  apply (X16_no_common_character "vAtavRuddhiH" "Bone").
  - intros c Hx Hy.
    assert (B : existsb (fun d => existsb (Ascii.eqb d)
                                     (list_ascii_of_string (PyStr.lower "Bone")))
                  (list_ascii_of_string (PyStr.lower "vAtavRuddhiH")) = true).
    { apply existsb_exists. exists c. split; [assumption|].
      apply existsb_exists. exists c. split; [assumption | apply Ascii.eqb_refl]. }
    vm_compute in B. discriminate.
  - left. discriminate.
  - vm_compute. discriminate.
  - vm_compute. discriminate.
Defined.

(** X17.  When the answer to the term query has no code twice (and the
    titles found are of lengths that CPython allows), the row that the batch
    run saves is an entry of its table: the table has, under the ICD-11 code
    of the row, the title and the source of the row, with the score of which
    the similarity of the row is the rounding; and no entry of the table has
    a greater score. *)
Theorem X17_batch_row_is_table_entry :
  forall (code term def : string) (remote : Net.Remote) (st : Net.State)
         (row : Main.Row) (table : PyDict.dict string Main.Candidate) (st' : Net.State),
    PyStr.len term <= PyStr.maxsize -> PyStr.len def <= PyStr.maxsize ->
    (forall h t q cands c,
        Net.search_endpoint remote h t q = Net.Ok cands -> In c cands ->
        PyStr.len (Net.get_or_empty (Net.title c)) <= PyStr.maxsize) ->
    (forall token cands,
        Net.search_endpoint remote (Net.requests st ++ [Net.TokenRequest]) token term
        = Net.Ok cands ->
        NoDup (map (fun c => Net.get_or_empty (Net.theCode c)) cands)) ->
    Main.build_mapping code term def remote st = (Net.Ok (row, table), st') ->
    forall icd,
      Main.ICD11_CODE row = Some icd ->
      exists title score source,
        PyDict.get String.eqb table icd = Some (title, score, source)
        /\ Main.ICD11_TERM row = Some title
        /\ Main.MATCH_SOURCE row = Some source
        /\ Main.SIMILARITY row = PyFloat.round3 score
        /\ forall c t s src, In (c, (t, s, src)) table -> PyFloat.gt s score = false.
Proof.
  intros code term def remote st row table st' Lt Ld Lc ND H icd Hicd.
  unfold Main.build_mapping, Main.get_token in H. unfold Net.bind at 1 in H.
  unfold Net.post_token at 1 in H.
  destruct (Net.token_endpoint remote (Net.requests st)) as [token|msg]; [|discriminate].
  unfold Net.bind at 1 in H.
  match type of H with
  | context [Main.run_queries ?t ?d ?r ?k ?s] =>
      destruct (Main.run_queries t d r k s) as [[vars|msg] st2] eqn:E
  end; [|discriminate].
  injection H as <- <- _.
  pose proof (BestFacts.main_run_queries_tracked _ _ _ _ _ _ _ E) as [_ [Hmax _]].
  apply SettledFacts.main_run_queries_settled in E; try assumption;
    [|intros cands; apply ND].
  destruct E as [_ [_ Hm]].
  unfold Main.make_row in Hicd |- *. cbn in Hicd |- *.
  destruct (Main.best_overall_match vars) as [[[c t] s]|]; [|discriminate].
  cbn in Hicd |- *. injection Hicd as ->.
  exists t, (Main.best_overall_score vars), s. repeat split; try assumption.
Qed.

(** The run in which the query for the term finds two codes: the row has
    the first, and the table has its title under it. *)
Lemma X17_batch_row_witness :
  exists row table score,
    fst (Main.build_mapping_specific Scenario.found Scenario.fresh) = Net.Ok (row, table)
    /\ Main.ICD11_CODE row = Some "SK00"
    /\ PyDict.get String.eqb table "SK00" = Some ("Vata disorder", score, "NAMASTE_term")
    /\ Main.SIMILARITY row = PyFloat.round3 score.
Proof.
  destruct (Main.build_mapping_specific Scenario.found Scenario.fresh) as [r st'] eqn:E.
  assert (R : exists row table,
             r = Net.Ok (row, table) /\ Main.ICD11_CODE row = Some "SK00"
             /\ Main.ICD11_TERM row = Some "Vata disorder"
             /\ Main.MATCH_SOURCE row = Some "NAMASTE_term").
  { apply (f_equal fst) in E. cbn [fst] in E. rewrite <- E. vm_compute.
    eexists. eexists. repeat split. }
  destruct R as [row [table [-> [C [T S]]]]].
  destruct (X17_batch_row_is_table_entry Main.nam_code Main.nam_term Main.nam_def
              Scenario.found Scenario.fresh row table st') with (icd := "SK00")
    as [title [score [source [G [T' [S' [R _]]]]]]].
  - vm_compute. discriminate.
  - vm_compute. discriminate.
  - intros h t q cands c Hs Hc. unfold Scenario.found in Hs. cbn in Hs.
    injection Hs as <-.
    destruct (String.eqb q "vAtavRuddhiH"); [|destruct Hc].
    destruct Hc as [<-|[<-|[]]]; vm_compute; discriminate.
  - intros token cands Hs. unfold Scenario.found in Hs. cbn in Hs.
    injection Hs as <-. cbn. repeat constructor; cbn; [|tauto].
    intros [H|[]]. discriminate.
  - exact E.
  - exact C.
  - exists row, table, score. rewrite T in T'. rewrite S in S'.
    injection T' as <-. injection S' as <-. now repeat split.
Defined.

(** X18.  The loops over the candidates of a keyword query (in both
    programs) and of a symptom query never remove a code from the table and
    never lower what is stored under it: after the loop the code has the
    entry it had, or an entry of a strictly greater score. *)
Theorem X18_stored_scores_only_rise :
  forall (term keyword phrase : string) (cands : list Net.Entity) (code : string)
         (old : string * PyFloat.float * string),
    (forall vars : Main.Locals,
        PyDict.get String.eqb (Main.all_candidates vars) code = Some old ->
        exists new,
          PyDict.get String.eqb
            (Main.all_candidates
               (fold_left (Main.keyword_candidate term keyword) cands vars)) code
          = Some new
          /\ Props.kept_or_raised old new)
    /\ (forall vars : Main.Locals,
           PyDict.get String.eqb (Main.all_candidates vars) code = Some old ->
           exists new,
             PyDict.get String.eqb
               (Main.all_candidates
                  (fold_left (Main.symptom_candidate phrase) cands vars)) code
             = Some new
             /\ Props.kept_or_raised old new)
    /\ (forall all : PyDict.dict string Sample.Candidate,
           PyDict.get String.eqb all code = Some old ->
           exists new,
             PyDict.get String.eqb
               (fold_left (Sample.keyword_candidate term keyword) cands all) code
             = Some new
             /\ Props.kept_or_raised old new).
Proof.
  intros term keyword phrase cands code old. split; [|split].
  - intros vars G.
    apply (RaiseFacts.fold_raises Main.all_candidates
             (Main.keyword_candidate term keyword) code); [|assumption].
    intros acc c o Ho. now apply RaiseFacts.main_keyword_candidate_raises.
  - intros vars G.
    apply (RaiseFacts.fold_raises Main.all_candidates
             (Main.symptom_candidate phrase) code); [|assumption].
    intros acc c o Ho. now apply RaiseFacts.main_symptom_candidate_raises.
  - intros all G.
    apply (RaiseFacts.fold_raises (fun all => all)
             (Sample.keyword_candidate term keyword) code); [|assumption].
    intros acc c o Ho. now apply RaiseFacts.sample_keyword_candidate_raises.
Qed.

(** The two entities that the term query replaced one by the other, found
    by the query for "voice" when the table has the first: the second does not
    take its place. *)
Lemma X18_stored_scores_witness :
  exists new,
    PyDict.get String.eqb
      (fold_left (Sample.keyword_candidate "vAtavRuddhiH" "voice")
         [Scenario.entity "Vata disorder" "SK00"; Scenario.entity "Pitta disorder" "SK00"]
         [("SK00", ("Vata disorder", Sample.similarity "vAtavRuddhiH" "Vata disorder",
                    "NAMASTE_term"))])
      "SK00" = Some new
    /\ Props.kept_or_raised
         ("Vata disorder", Sample.similarity "vAtavRuddhiH" "Vata disorder", "NAMASTE_term")
         new.
Proof.
  apply (proj2 (proj2 (X18_stored_scores_only_rise "vAtavRuddhiH" "voice" ""
                         [Scenario.entity "Vata disorder" "SK00";
                          Scenario.entity "Pitta disorder" "SK00"] "SK00"
                         ("Vata disorder",
                          Sample.similarity "vAtavRuddhiH" "Vata disorder",
                          "NAMASTE_term")))).
  reflexivity.
Defined.
